(** * Rule-based transaction-risk evaluation pipeline

    A shallow embedding of the four rule evaluators of the repository:

    - [AnalyzeSection.analyzeFraud]           (components/AnalyzeSection.tsx)
    - [DynamicThresholdingEngine]             (services/dynamicThresholding.ts)
    - [ExplainabilityEngine]                  (services/explainability.ts)
    - [ComplianceTracker]                     (services/complianceTracking.ts)

    and, beside them, of the hex codec and the access rules of
    services/security.ts, of the report and governance rules of
    services/compliance.ts and of the record intake of services/ingest.ts.

    Conventions of the embedding.

    - A JavaScript [number] is held in one of two ways.  Where a property
      turns on how the code rounds, the number is the binary64 value
      itself, a [float] with the operations of IEEE 754 ([F64],
      [Thresholds64], [Explain64]): the grading of a score against a
      threshold, the two gates of a recalibration, the ranking and the
      confidence of an explanation.  Elsewhere it is an exact rational
      ([Q], compared with [==]), and [NaN] out of [parseFloat] or out of
      [getHours()] of an invalid date is the [None] of an [option]; every
      comparison with it is false, as in JavaScript.
    - [toLowerCase] and [trim] are those of the ASCII characters;
      [ascii_only] marks the texts on which they are the code's.
    - A [Map<string, V>] is a [gmap string V] together with the list of its
      keys in insertion order, which is the order [for ... of] visits them.
    - The remote record store is an argument: what a query answers is passed
      in, what an update writes is collected in a log. *)

From Stdlib Require Import QArith Qminmax Qabs Qround Lqa Lia ZArith.
From Stdlib Require Import String Ascii List Sorting.Sorted Permutation.
From Stdlib Require Import Strings.Byte.
From Stdlib Require Import Floats.
From stdpp Require Import base option gmap strings list.

Set Warnings "-inexact-float".

Local Open Scope Q_scope.
Local Open Scope string_scope.
Local Open Scope list_scope.

(** ** JavaScript values *)

Module Js.

(** [x > y] on finite numbers. *)
Definition gt (x y : Q) : bool := if Qlt_le_dec y x then true else false.

(** [x < y] on finite numbers. *)
Definition lt (x y : Q) : bool := if Qlt_le_dec x y then true else false.

(** [x <= y] on finite numbers. *)
Definition le (x y : Q) : bool := if Qlt_le_dec y x then false else true.

(** A number that may be [NaN]. *)
Definition num := option Q.

(** [x > y] where [x] may be [NaN]. *)
Definition num_gt (x : num) (y : Q) : bool :=
  match x with Some a => gt a y | None => false end.

(** [x < y] where [x] may be [NaN]. *)
Definition num_lt (x : num) (y : Q) : bool :=
  match x with Some a => lt a y | None => false end.

(** [x || 0] on a number: [NaN] and [0] are falsy. *)
Definition or_zero (x : num) : Q :=
  match x with Some a => a | None => 0 end.

(** Truthiness of an optional string: [undefined], [null] and [""] are
    falsy. *)
Definition truthy (s : option string) : bool :=
  match s with
  | None => false
  | Some EmptyString => false
  | Some (String _ _) => true
  end.

(** [String.prototype.toLowerCase] on the ASCII letters. *)
Definition lower_ascii (c : ascii) : ascii :=
  let n := nat_of_ascii c in
  if (65 <=? n)%nat && (n <=? 90)%nat then ascii_of_nat (n + 32) else c.

Fixpoint toLowerCase (s : string) : string :=
  match s with
  | EmptyString => EmptyString
  | String c r => String (lower_ascii c) (toLowerCase r)
  end.

(** [s.startsWith(p)]. *)
Definition startsWith (s p : string) : bool := String.prefix p s.

(** [s.includes(p)]: [p] occurs in [s] at some position. *)
Fixpoint includes (s p : string) : bool :=
  startsWith s p ||
  match s with
  | EmptyString => false
  | String _ r => includes r p
  end.

(** [arr.some(f)]. *)
Definition some {A} (f : A -> bool) (arr : list A) : bool := existsb f arr.

(** [arr.join(sep)]. *)
Definition join (sep : string) (arr : list string) : string :=
  String.concat sep arr.

(** [s || fallback] on a string. *)
Definition or_string (s fallback : string) : string :=
  match s with EmptyString => fallback | _ => s end.

(** [Math.min], [Math.max], [Math.abs] on finite numbers. *)
Definition min (x y : Q) : Q := Qmin x y.
Definition max (x y : Q) : Q := Qmax x y.
Definition abs (x : Q) : Q := Qabs x.

(** [s || fallback] on an optional string. *)
Definition or_else (s : option string) (fallback : string) : string :=
  match s with
  | Some (String c r) => String c r
  | _ => fallback
  end.

(** A template literal, its interpolated numbers kept as numbers:
    [Fixed x d] is [x.toFixed(d)], [Hours h] is the hour [h] printed. *)
Inductive part :=
| Lit (s : string)
| Fixed (x : Q) (digits : nat)
| Hours (h : option Z).

Definition text := list part.

(** [arr.sort(cmp)]: the stable sort; [x] goes before the first [y] with
    [cmp x y <= 0]. *)
Section Sort.
Context {A : Type} (cmp : A -> A -> Q).

Fixpoint sort_insert (x : A) (l : list A) : list A :=
  match l with
  | [] => [x]
  | y :: r => if le (cmp x y) 0 then x :: y :: r
              else y :: sort_insert x r
  end.

Fixpoint sort (l : list A) : list A :=
  match l with
  | [] => []
  | x :: r => sort_insert x (sort r)
  end.
End Sort.

(** [parseFloat(x.toFixed(3))]: the nearest multiple of 1/1000, a tie
    going away from zero. *)
Definition toFixed3 (x : Q) : Q :=
  if Qlt_le_dec x 0
  then - (inject_Z (Qfloor ((- x) * 1000 + 0.5)) / 1000)
  else inject_Z (Qfloor (x * 1000 + 0.5)) / 1000.

(** [${s}] inside a template literal; an absent value prints as
    [undefined]. *)
Definition template (s : option string) : string :=
  match s with Some c => c | None => "undefined" end.

(** [arr.slice(0, n)]. *)
Definition slice0 {A} (n : nat) (arr : list A) : list A := firstn n arr.

(** The names every object literal inherits from [Object.prototype]; a
    lookup of one of them on a literal finds the inherited member, a
    function or an object, never [undefined]. *)
Definition inherited (k : string) : bool :=
  existsb (String.eqb k)
    ["constructor"; "__defineGetter__"; "__defineSetter__";
     "hasOwnProperty"; "__lookupGetter__"; "__lookupSetter__";
     "isPrototypeOf"; "propertyIsEnumerable"; "toString"; "valueOf";
     "__proto__"; "toLocaleString"].

(** White space for [String.prototype.trim], among the ASCII
    characters: tab, line feed, vertical tab, form feed, carriage return
    and space. *)
Definition is_white (c : ascii) : bool :=
  let n := nat_of_ascii c in
  ((9 <=? n)%nat && (n <=? 13)%nat) || (n =? 32)%nat.

Fixpoint trimStart (s : string) : string :=
  match s with
  | String c r => if is_white c then trimStart r else s
  | EmptyString => s
  end.

(** [s] without its trailing white space: a character stays when it is
    not white or something that stays follows it. *)
Fixpoint trimEnd (s : string) : string :=
  match s with
  | String c r =>
      match trimEnd r with
      | EmptyString => if is_white c then EmptyString else String c ""
      | kept => String c kept
      end
  | EmptyString => s
  end.

Definition trim (s : string) : string := trimEnd (trimStart s).

End Js.

(** ** The transaction record

    The services take a [Record<string, any>].  The numeric views the code
    takes of two of its fields are stored as such: [amount] is
    [parseFloat(transaction.amount)] and [hour] is
    [new Date(transaction.timestamp).getHours()]. *)

Record Transaction := {
  transaction_id : string;
  amount : Js.num;
  hour : option Z;
  location : option string;
  merchant : option string;
  merchant_category : option string;
  device_info : option string;
  ip_address : option string
}.

(** ** Fraud Score Estimator: [analyzeFraud] *)

Module FraudScore.

Record FraudAnalysis := {
  fraud_score : Q;
  is_fraudulent : bool;
  detection_reason : string
}.

Definition highRiskCategories : list string :=
  ["gambling"; "luxury"; "crypto"].

(** [transaction.merchant_category?.toLowerCase().includes(cat)] *)
Definition category_includes (transaction : Transaction) (cat : string)
  : bool :=
  match merchant_category transaction with
  | Some c => Js.includes (Js.toLowerCase c) cat
  | None => false
  end.

(** [now] is [new Date().getHours()], the hour of the evaluation. *)
Definition analyzeFraud (now : Z) (transaction : Transaction)
  : FraudAnalysis :=
  let fraudScore := 0 in
  let reasons : list string := [] in
  let amount := amount transaction in
  let '(fraudScore, reasons) :=
    if Js.num_gt amount 5000
    then (fraudScore + 0.3, reasons ++ ["Unusual transaction amount"])
    else (fraudScore, reasons) in
  let '(fraudScore, reasons) :=
    if (0 <=? now)%Z && (now <=? 4)%Z
    then (fraudScore + 0.25, reasons ++ ["Abnormal transaction timing"])
    else (fraudScore, reasons) in
  let '(fraudScore, reasons) :=
    if Js.some (category_includes transaction) highRiskCategories
    then (fraudScore + 0.25, reasons ++ ["High-risk merchant category"])
    else (fraudScore, reasons) in
  let '(fraudScore, reasons) :=
    if Js.num_gt amount 10000
    then (fraudScore + 0.2, reasons ++ ["Very high transaction value"])
    else (fraudScore, reasons) in
  {| fraud_score := Js.min fraudScore 1;
     is_fraudulent := Js.gt fraudScore 0.5;
     detection_reason :=
       Js.or_string (Js.join ", " reasons) "Normal transaction pattern" |}.

End FraudScore.

(** ** [Map<string, V>]: finite map plus insertion order *)

Module JsMap.
Section Defs.
Context {V : Type}.

Record t := mk { entries : gmap string V; order : list string }.

Definition empty : t := {| entries := ∅; order := [] |}.

(** [m.get(k)] *)
Definition get (k : string) (m : t) : option V := entries m !! k.

(** [m.set(k, v)]: a new key goes last, a known key keeps its place. *)
Definition set (k : string) (v : V) (m : t) : t :=
  {| entries := <[k := v]> (entries m);
     order := match entries m !! k with
              | Some _ => order m
              | None => order m ++ [k]
              end |}.

(** [m.keys()] and [m.values()], in insertion order. *)
Definition keys (m : t) : list string := order m.
Definition values (m : t) : list V := omap (fun k => get k m) (order m).

(** The order lists exactly the keys of the map, each once. *)
Definition wf (m : t) : Prop :=
  NoDup (order m) /\ forall k, k ∈ order m <-> is_Some (entries m !! k).
End Defs.
Arguments t : clear implicits.
End JsMap.

(** ** Threshold Store: [DynamicThresholdingEngine] *)

Module Thresholds.

Record ThresholdConfig := {
  merchantCategory : string;
  fraudThreshold : Q;
  dynamicAdjustment : bool;
  minThreshold : Q;
  maxThreshold : Q;
  adaptationRate : Q;
  sampleSizeMinimum : Q
}.

Record ThresholdAdjustment := {
  adj_merchantCategory : string;
  oldThreshold : Q;
  newThreshold : Q;
  reason : Js.text;
  adjustmentFactor : Q;
  timestamp : Z
}.

(** A row of [threshold_configs] as the record store returns it. *)
Record ConfigRow := {
  merchant_category : string;
  fraud_threshold : Q;
  dynamic_adjustment : bool;
  min_threshold : Q;
  max_threshold : Q;
  adaptation_rate : Q;
  sample_size_minimum : Q
}.

(** The two columns of [transactions] that the metrics read. *)
Record TxRow := { tx_fraud_score : Q; tx_is_fraudulent : bool }.

(** What the engine sends to [threshold_configs]. *)
Inductive DbWrite :=
| DbUpdate (category : string) (fraud_threshold : Q)
| DbInsert (row : ConfigRow).

(** The answer of the [transactions] query per category, over the
    trailing 30 days; [None] is an error or no data. *)
Definition TxQuery := string -> option (list TxRow).

Record Metrics := {
  sampleCount : nat;
  falsePositiveRate : Q;
  falseNegativeRate : Q;
  detectionAccuracy : Q;
  precision : option Q;
  recall : option Q
}.

(** The engine: its cache and the writes it has issued.  (The field
    [performanceMetrics] is never read or written.) *)
Record Engine := {
  thresholdCache : JsMap.t ThresholdConfig;
  dbLog : list DbWrite
}.

Definition with_cache (c : JsMap.t ThresholdConfig) (e : Engine) : Engine :=
  {| thresholdCache := c; dbLog := dbLog e |}.

Definition log (w : DbWrite) (e : Engine) : Engine :=
  {| thresholdCache := thresholdCache e; dbLog := dbLog e ++ [w] |}.

Definition mkConfig (c : string) (thr : Q) (lo hi rate : Q) (n : Q)
  : ThresholdConfig :=
  {| merchantCategory := c; fraudThreshold := thr;
     dynamicAdjustment := true; minThreshold := lo; maxThreshold := hi;
     adaptationRate := rate; sampleSizeMinimum := n |}.

Definition defaultThresholds : list ThresholdConfig :=
  [ mkConfig "grocery"         0.45 0.35 0.65 0.08 100;
    mkConfig "online_retail"   0.50 0.40 0.70 0.10 150;
    mkConfig "travel_agencies" 0.55 0.45 0.75 0.12 80;
    mkConfig "money_transfer"  0.65 0.55 0.85 0.15 50;
    mkConfig "crypto"          0.70 0.60 0.90 0.15 60;
    mkConfig "entertainment"   0.48 0.38 0.68 0.09 120;
    mkConfig "default"         0.50 0.35 0.75 0.10 100 ].

Definition initializeDefaultThresholds (e : Engine) : Engine :=
  fold_left
    (fun e config =>
       with_cache (JsMap.set (merchantCategory config) config
                             (thresholdCache e)) e)
    defaultThresholds e.

Definition constructor : Engine :=
  initializeDefaultThresholds
    {| thresholdCache := JsMap.empty; dbLog := [] |}.

Definition config_of_row (config : ConfigRow) : ThresholdConfig :=
  {| merchantCategory := merchant_category config;
     fraudThreshold := fraud_threshold config;
     dynamicAdjustment := dynamic_adjustment config;
     minThreshold := min_threshold config;
     maxThreshold := max_threshold config;
     adaptationRate := adaptation_rate config;
     sampleSizeMinimum := sample_size_minimum config |}.

(** [data] is the answer of the select: [None] when [data] is null or
    [error] is set. *)
Definition loadThresholdsFromDatabase (data : option (list ConfigRow))
           (e : Engine) : Engine :=
  match data with
  | Some data =>
      fold_left
        (fun e config =>
           with_cache (JsMap.set (merchant_category config)
                                 (config_of_row config)
                                 (thresholdCache e)) e)
        data e
  | None => e
  end.

(** The lookup shared by [getThreshold] and [getFullConfig]; the result
    is [None] where the source holds [undefined]. *)
Definition lookupConfig (e : Engine) (merchantCategory : option string)
  : option ThresholdConfig :=
  let config :=
    match merchantCategory with
    | Some c =>
        if Js.truthy merchantCategory
        then JsMap.get (Js.toLowerCase c) (thresholdCache e)
        else None
    | None => None
    end in
  match config with
  | Some config => Some config
  | None => JsMap.get "default" (thresholdCache e)
  end.

(** [None] is the [TypeError] of reading [fraudThreshold] off
    [undefined]. *)
Definition getThreshold (e : Engine) (merchantCategory : option string)
  : option Q :=
  config ← lookupConfig e merchantCategory;
  Some (fraudThreshold config).

(** [None] is the value [undefined]. *)
Definition getFullConfig (e : Engine) (merchantCategory : option string)
  : option ThresholdConfig :=
  lookupConfig e merchantCategory.


Record Counts := {
  falsePositives : nat;
  falseNegatives : nat;
  truePositives : nat;
  trueNegatives : nat
}.

(** The body of [data.forEach] in [calculateCategoryMetrics]. *)
Definition count_tx (threshold : Q) (c : Counts) (tx : TxRow) : Counts :=
  let predicted := Js.gt (tx_fraud_score tx) threshold in
  let actual := tx_is_fraudulent tx in
  if predicted && negb actual then
    {| falsePositives := S (falsePositives c);
       falseNegatives := falseNegatives c;
       truePositives := truePositives c;
       trueNegatives := trueNegatives c |}
  else if negb predicted && actual then
    {| falsePositives := falsePositives c;
       falseNegatives := S (falseNegatives c);
       truePositives := truePositives c;
       trueNegatives := trueNegatives c |}
  else if predicted && actual then
    {| falsePositives := falsePositives c;
       falseNegatives := falseNegatives c;
       truePositives := S (truePositives c);
       trueNegatives := trueNegatives c |}
  else
    {| falsePositives := falsePositives c;
       falseNegatives := falseNegatives c;
       truePositives := truePositives c;
       trueNegatives := S (trueNegatives c) |}.

Definition Qnat (n : nat) : Q := inject_Z (Z.of_nat n).

(** [n > 0 ? a / n : 0] *)
Definition ratio (a n : nat) : Q :=
  if (0 <? n)%nat then Qnat a / Qnat n else 0.

(** [None] is the exception [getThreshold] throws. *)
Definition calculateCategoryMetrics (e : Engine) (db : TxQuery)
           (merchantCategory : string) : option Metrics :=
  match db merchantCategory with
  | None =>
      Some {| sampleCount := 0;
              falsePositiveRate := 0;
              falseNegativeRate := 0;
              detectionAccuracy := 0;
              precision := None;
              recall := None |}
  | Some data =>
      threshold ← getThreshold e (Some merchantCategory);
      let c := fold_left (count_tx threshold) data
                 {| falsePositives := 0; falseNegatives := 0;
                    truePositives := 0; trueNegatives := 0 |} in
      let totalPositives := (truePositives c + falseNegatives c)%nat in
      let totalNegatives := (trueNegatives c + falsePositives c)%nat in
      Some {| sampleCount := length data;
              falsePositiveRate := ratio (falsePositives c) totalNegatives;
              falseNegativeRate := ratio (falseNegatives c) totalPositives;
              detectionAccuracy :=
                Qnat (truePositives c + trueNegatives c)
                / Qnat (Nat.max (length data) 1);
              precision :=
                Some (ratio (truePositives c)
                            (truePositives c + falsePositives c));
              recall :=
                Some (ratio (truePositives c)
                            (truePositives c + falseNegatives c)) |}
  end.

Definition generateAdjustmentReason (metrics : Metrics) : Js.text :=
  if Js.gt (falsePositiveRate metrics) 0.15 then
    [ Js.Lit "High false positive rate (";
      Js.Fixed (falsePositiveRate metrics * 100) 1;
      Js.Lit "%) - increasing threshold" ]
  else if Js.gt (falseNegativeRate metrics) 0.10 then
    [ Js.Lit "High false negative rate (";
      Js.Fixed (falseNegativeRate metrics * 100) 1;
      Js.Lit "%) - decreasing threshold" ]
  else [ Js.Lit "Performance-based adjustment" ].

(** The raw move of the threshold and the signed factor reported for it,
    before clamping: the [if / else if] of [calculateOptimalThreshold]. *)
Definition proposed (metrics : Metrics) (config : ThresholdConfig)
  : Q * Q :=
  let newThreshold := fraudThreshold config in
  let adjustmentFactor := 0 in
  if Js.gt (falsePositiveRate metrics) 0.15 then
    let increase :=
      adaptationRate config * (falsePositiveRate metrics - 0.10) in
    (newThreshold + increase, increase)
  else if Js.gt (falseNegativeRate metrics) 0.10 then
    let decrease :=
      adaptationRate config * (0.10 - falseNegativeRate metrics) in
    (newThreshold - decrease, - decrease)
  else (newThreshold, adjustmentFactor).

(** [now] is the [new Date()] of the record; [None] is [null]. *)
Definition calculateOptimalThreshold (now : Z) (metrics : Metrics)
           (config : ThresholdConfig) : option ThresholdAdjustment :=
  let '(newThreshold, adjustmentFactor) := proposed metrics config in
  let newThreshold :=
    Js.max (minThreshold config)
           (Js.min newThreshold (maxThreshold config)) in
  if Js.gt (Js.abs adjustmentFactor) 0.001 then
    Some {| adj_merchantCategory := merchantCategory config;
            oldThreshold := fraudThreshold config;
            newThreshold := newThreshold;
            reason := generateAdjustmentReason metrics;
            adjustmentFactor := adjustmentFactor;
            timestamp := now |}
  else None.

Definition set_fraudThreshold (x : Q) (config : ThresholdConfig)
  : ThresholdConfig :=
  {| merchantCategory := merchantCategory config;
     fraudThreshold := x;
     dynamicAdjustment := dynamicAdjustment config;
     minThreshold := minThreshold config;
     maxThreshold := maxThreshold config;
     adaptationRate := adaptationRate config;
     sampleSizeMinimum := sampleSizeMinimum config |}.

(** A failed write is only reported on the console. *)
Definition updateThreshold (merchantCategory : string) (newThreshold : Q)
           (e : Engine) : Engine :=
  match JsMap.get merchantCategory (thresholdCache e) with
  | None => e
  | Some config =>
      let config := set_fraudThreshold newThreshold config in
      log (DbUpdate merchantCategory newThreshold)
          (with_cache (JsMap.set merchantCategory config
                                 (thresholdCache e)) e)
  end.

Definition row_of_config (config : ThresholdConfig) : ConfigRow :=
  {| merchant_category := merchantCategory config;
     fraud_threshold := fraudThreshold config;
     dynamic_adjustment := dynamicAdjustment config;
     min_threshold := minThreshold config;
     max_threshold := maxThreshold config;
     adaptation_rate := adaptationRate config;
     sample_size_minimum := sampleSizeMinimum config |}.

Definition createThresholdConfig (config : ThresholdConfig) (e : Engine)
  : Engine :=
  log (DbInsert (row_of_config config))
      (with_cache (JsMap.set (merchantCategory config) config
                             (thresholdCache e)) e).

(** One turn of the [for ... of] loop of
    [adjustThresholdsBasedOnPerformance] at the entry [category]; [None]
    is an exception out of [calculateCategoryMetrics], thrown before the
    turn has changed anything. *)
Definition adjust_segment (db : TxQuery) (clock : string -> Z)
           (category : string)
           (st : Engine * list ThresholdAdjustment)
  : option (Engine * list ThresholdAdjustment) :=
  let '(e, adjustments) := st in
  match JsMap.get category (thresholdCache e) with
  | None => Some st
  | Some config =>
      metrics ← calculateCategoryMetrics e db category;
      if Js.lt (Qnat (sampleCount metrics)) (sampleSizeMinimum config)
      then Some st
      else
        match calculateOptimalThreshold (clock category) metrics config with
        | Some adjustment =>
            if Js.gt (Js.abs (adjustmentFactor adjustment)) 0.02
            then Some (updateThreshold category (newThreshold adjustment) e,
                       adjustments ++ [adjustment])
            else Some st
        | None => Some st
        end
  end.

(** The loop over the keys; the flag tells whether it ran to its end. *)
Fixpoint adjust_loop (db : TxQuery) (clock : string -> Z)
         (categories : list string)
         (st : Engine * list ThresholdAdjustment)
  : Engine * list ThresholdAdjustment * bool :=
  match categories with
  | [] => (st, true)
  | category :: rest =>
      match adjust_segment db clock category st with
      | Some st' => adjust_loop db clock rest st'
      | None => (st, false)
      end
  end.

(** The engine afterwards and the list returned; [None] for a rejected
    promise. *)
Definition adjustThresholdsBasedOnPerformance (db : TxQuery)
           (clock : string -> Z) (e : Engine)
  : Engine * option (list ThresholdAdjustment) :=
  let '(e', adjustments, finished) :=
    adjust_loop db clock (JsMap.keys (thresholdCache e)) (e, []) in
  (e', if finished then Some adjustments else None).

Definition getAllConfigs (e : Engine) : list ThresholdConfig :=
  JsMap.values (thresholdCache e).

(** The public operations that change the store, and a run of them from
    a fresh engine. *)
Inductive StoreOp :=
| Load (data : option (list ConfigRow))
| Create (config : ThresholdConfig)
| Recalibrate (db : TxQuery) (clock : string -> Z).

Definition apply_op (e : Engine) (op : StoreOp) : Engine :=
  match op with
  | Load data => loadThresholdsFromDatabase data e
  | Create config => createThresholdConfig config e
  | Recalibrate db clock =>
      fst (adjustThresholdsBasedOnPerformance db clock e)
  end.

Definition run (ops : list StoreOp) : Engine :=
  fold_left apply_op ops constructor.

End Thresholds.

(** ** Explanation Generator: [ExplainabilityEngine]

    Of [explainPrediction] the ranked feature list and the confidence are
    modelled; the SHAP-like vector, the LIME-like list, the free text and
    the factor lists do not feed either of them. *)

Module Explain.

Inductive Impact := positive | negative.

Record FeatureImportance := {
  feature : string;
  importance : Q;
  impact : Impact;
  description : Js.text
}.

Record ExplainabilityResult := {
  transactionId : string;
  modelPrediction : Q;
  confidence : Q;
  featureImportance : list FeatureImportance
}.

Definition normalizeScore (value min max : Q) : Q :=
  (value - min) / (max - min).

Definition highRiskCategories : list string :=
  ["money_transfer"; "crypto"; "gambling"; "dating_services";
   "travel_agencies"].

Definition calculateMerchantRiskScore (category : option string) : Q :=
  match category with
  | Some (String c r) =>
      if Js.some (fun c' => Js.includes (Js.toLowerCase (String c r)) c')
                 highRiskCategories
      then 0.75 else 0.3
  | _ => 0.5
  end.

Definition calculateIpRiskScore (ip : option string) : Q :=
  match ip with
  | Some (String c r) =>
      if Js.startsWith (String c r) "192.168"
         || Js.startsWith (String c r) "10."
      then 0.1 else 0.4
  | _ => 0.6
  end.

(** [hour] is [new Date(timestamp).getHours()], [None] for [NaN]. *)
Definition calculateTimeScore (hour : option Z) : Q :=
  match hour with
  | Some hour =>
      if (8 <=? hour)%Z && (hour <=? 20)%Z then 0.2
      else if (6 <=? hour)%Z && (hour <=? 23)%Z then 0.4
      else 0.8
  | None => 0.8
  end.

Definition calculateAmountDeviation (amount : Q) : Q :=
  let average := 500 in
  let maxDeviation := 5000 in
  let deviation := Js.abs (amount - average) / maxDeviation in
  Js.min deviation 1.

Definition impact_if (b : bool) : Impact :=
  if b then positive else negative.

(** The eight entries in the order they are pushed. *)
Definition pushed (transaction : Transaction) (fraudScore : Q)
  : list FeatureImportance :=
  let amount := Js.or_zero (amount transaction) in
  let amountImportance := normalizeScore (amount / 10000) 0 1 in
  let locationScore :=
    if Js.truthy (location transaction) then 0.3 else 0.7 in
  let merchantScore :=
    calculateMerchantRiskScore (merchant_category transaction) in
  let deviceScore :=
    if Js.truthy (device_info transaction) then 0.2 else 0.8 in
  let ipScore := calculateIpRiskScore (ip_address transaction) in
  let timeScore := calculateTimeScore (hour transaction) in
  let frequencyScore := 0.5 in
  let deviationScore := calculateAmountDeviation amount in
  [ {| feature := "Transaction Amount";
       importance := amountImportance * 0.15;
       impact := impact_if (Js.gt amountImportance 0.7);
       description :=
         [ Js.Lit "Amount of $"; Js.Fixed amount 2; Js.Lit " is ";
           Js.Lit (if Js.gt amountImportance 0.7
                   then "significantly above" else "within");
           Js.Lit " normal range" ] |};
    {| feature := "Location";
       importance := locationScore * 0.12;
       impact := impact_if (Js.gt locationScore 0.5);
       description :=
         [ Js.Lit "Transaction location: ";
           Js.Lit (Js.or_else (location transaction) "Unknown") ] |};
    {| feature := "Merchant Category";
       importance := merchantScore * 0.18;
       impact := impact_if (Js.gt merchantScore 0.6);
       description :=
         [ Js.Lit "Merchant category: ";
           Js.Lit (Js.or_else (merchant_category transaction)
                              "Unknown") ] |};
    {| feature := "Device";
       importance := deviceScore * 0.10;
       impact := impact_if (Js.gt deviceScore 0.5);
       description :=
         [ Js.Lit "Device ";
           Js.Lit (if Js.truthy (device_info transaction)
                   then "recognized" else "unknown") ] |};
    {| feature := "IP Address";
       importance := ipScore * 0.15;
       impact := impact_if (Js.gt ipScore 0.5);
       description :=
         [ Js.Lit "IP reputation score: "; Js.Fixed (ipScore * 100) 1;
           Js.Lit "%" ] |};
    {| feature := "Time Pattern";
       importance := timeScore * 0.08;
       impact := impact_if (Js.gt timeScore 0.5);
       description :=
         [ Js.Lit "Transaction at "; Js.Hours (hour transaction);
           Js.Lit ":00" ] |};
    {| feature := "Frequency";
       importance := frequencyScore * 0.12;
       impact := impact_if (Js.gt frequencyScore 0.6);
       description :=
         [ Js.Lit "Transaction frequency within normal range" ] |};
    {| feature := "Amount Deviation";
       importance := deviationScore * 0.10;
       impact := impact_if (Js.gt deviationScore 0.6);
       description :=
         [ Js.Fixed (deviationScore * 100) 1;
           Js.Lit "% deviation from average" ] |} ].

Definition calculateFeatureImportance (transaction : Transaction)
           (fraudScore : Q) : list FeatureImportance :=
  Js.sort (fun a b => importance b - importance a)
          (pushed transaction fraudScore).

Definition calculateConfidence (fraudScore : Q)
           (features : list FeatureImportance) : Q :=
  let featureVariance :=
    fold_left (fun sum f => sum + importance f) features 0 in
  let confidence := Js.min (featureVariance + 0.3) 0.95 in
  Js.toFixed3 confidence.

Definition explainPrediction (transaction : Transaction) (fraudScore : Q)
  : ExplainabilityResult :=
  let featureImportance :=
    calculateFeatureImportance transaction fraudScore in
  {| transactionId := transaction_id transaction;
     modelPrediction := fraudScore;
     confidence := calculateConfidence fraudScore featureImportance;
     featureImportance := featureImportance |}.

(** The attribution vector; the two entries computed from
    [parseFloat(transaction.amount)] are [NaN] when it is. *)
Record ShapValues := {
  shap_amount : Js.num;
  shap_location : Q;
  shap_merchant_category : Q;
  shap_device : Q;
  shap_ip_address : Q;
  shap_time_pattern : Q;
  shap_frequency_anomaly : Q;
  shap_amount_deviation : Js.num
}.

Definition calculateShapValues (transaction : Transaction) (fraudScore : Q)
  : ShapValues :=
  {| shap_amount :=
       option_map (fun a => normalizeScore (a / 10000) 0 1 * 0.3)
                  (amount transaction);
     shap_location :=
       (if Js.truthy (location transaction) then 0.2 else 0.7) * 0.15;
     shap_merchant_category :=
       calculateMerchantRiskScore (merchant_category transaction) * 0.25;
     shap_device :=
       (if Js.truthy (device_info transaction) then 0.2 else 0.8) * 0.15;
     shap_ip_address :=
       calculateIpRiskScore (ip_address transaction) * 0.2;
     shap_time_pattern := calculateTimeScore (hour transaction) * 0.1;
     shap_frequency_anomaly := normalizeScore fraudScore 0 1 * 0.15;
     shap_amount_deviation :=
       option_map (fun a => calculateAmountDeviation a * 0.1)
                  (amount transaction) |}.

Record LimeExplanation := {
  lime_feature : string;
  lime_weight : Q;
  lime_value : Js.text;
  lime_impact : Q
}.

(** The five entries in the order they are pushed. *)
Definition lime_pushed (transaction : Transaction) (fraudScore : Q)
  : list LimeExplanation :=
  [ {| lime_feature := "High Amount Transaction";
       lime_weight := 0.3;
       lime_value :=
         match amount transaction with
         | Some a => [Js.Lit "$"; Js.Fixed a 2]
         | None => [Js.Lit "$"; Js.Lit "NaN"]
         end;
       lime_impact := if Js.gt fraudScore 0.7 then 0.25 else - 0.1 |};
    {| lime_feature := "Merchant Category Risk";
       lime_weight := 0.25;
       lime_value :=
         [Js.Lit (Js.or_else (merchant_category transaction) "Unknown")];
       lime_impact :=
         if Js.gt (calculateMerchantRiskScore
                     (merchant_category transaction)) 0.6
         then 0.2 else - 0.15 |};
    {| lime_feature := "Location Verification";
       lime_weight := 0.2;
       lime_value :=
         [Js.Lit (Js.or_else (location transaction) "Unverified")];
       lime_impact :=
         if Js.truthy (location transaction) then - 0.1 else 0.3 |};
    {| lime_feature := "Device Recognition";
       lime_weight := 0.15;
       lime_value :=
         [Js.Lit (if Js.truthy (device_info transaction)
                  then "Known device" else "Unknown device")];
       lime_impact :=
         if Js.truthy (device_info transaction) then - 0.15 else 0.25 |};
    {| lime_feature := "IP Reputation";
       lime_weight := 0.1;
       lime_value :=
         [Js.Lit "Risk score: ";
          Js.Fixed (calculateIpRiskScore (ip_address transaction) * 100) 1;
          Js.Lit "%"];
       lime_impact :=
         if Js.gt (calculateIpRiskScore (ip_address transaction)) 0.5
         then 0.15 else - 0.1 |} ].

Definition generateLimeExplanations (transaction : Transaction)
           (fraudScore : Q) : list LimeExplanation :=
  Js.sort (fun a b => lime_weight b - lime_weight a)
          (lime_pushed transaction fraudScore).

(** Every risk that applies, before the cut to five. *)
Definition risks_found (transaction : Transaction) (fraudScore : Q)
  : list string :=
  let risks : list string := [] in
  let risks :=
    if Js.gt fraudScore 0.7
    then risks ++ ["High fraud score detected"] else risks in
  let risks :=
    if Js.num_gt (amount transaction) 5000
    then risks ++ ["Unusually high transaction amount"] else risks in
  let risks :=
    if negb (Js.truthy (location transaction))
    then risks ++ ["Transaction location not verified"] else risks in
  let risks :=
    if negb (Js.truthy (device_info transaction))
    then risks ++ ["Device not recognized or trusted"] else risks in
  let risks :=
    if Js.gt (calculateMerchantRiskScore (merchant_category transaction))
             0.6
    then risks ++ [Js.template (merchant_category transaction)
                   +:+ " is high-risk category"]
    else risks in
  let risks :=
    if Js.gt (calculateIpRiskScore (ip_address transaction)) 0.6
    then risks ++ ["IP address has poor reputation"] else risks in
  let risks :=
    match hour transaction with
    | Some hour =>
        if (hour <? 6)%Z || (23 <? hour)%Z
        then risks ++ ["Transaction during unusual hours"] else risks
    | None => risks
    end in
  risks.

Definition identifyRiskFactors (transaction : Transaction) (fraudScore : Q)
  : list string :=
  Js.slice0 5 (risks_found transaction fraudScore).

Definition identifySafeFactors (transaction : Transaction) : list string :=
  let safe : list string := [] in
  let safe :=
    if Js.truthy (location transaction)
    then safe ++ ["Transaction location verified"] else safe in
  let safe :=
    if Js.truthy (device_info transaction)
    then safe ++ ["Device is recognized and trusted"] else safe in
  let safe :=
    if Js.num_lt (amount transaction) 1000
    then safe ++ ["Transaction amount within normal range"] else safe in
  let safe :=
    if Js.truthy (merchant transaction)
    then safe ++ [Js.template (merchant transaction)
                  +:+ " is established merchant"]
    else safe in
  let safe :=
    match hour transaction with
    | Some hour =>
        if (8 <=? hour)%Z && (hour <=? 20)%Z
        then safe ++ ["Transaction during business hours"] else safe
    | None => safe
    end in
  safe.


End Explain.

(** ** Compliance Classifier and Aggregator: [ComplianceTracker] *)

Module Compliance.

Inductive Severity := sev_low | sev_medium | sev_high | sev_critical.

(** The [violationDetails] payloads the classifier builds. *)
Inductive Details :=
| FraudDetails (fraudScore threshold : Q) (description : string)
| AmountDetails (amount limit : Q) (description : string)
| MissingDetails (missingFields : list string) (description : string)
| RiskDetails (riskLevel : string) (merchantCategory : option string)
              (description : string)
| TimeDetails (transactionHour : Z) (normalBusinessHours : string)
              (description : string).

Record ComplianceEvent := {
  eventType : string;
  severity : Severity;
  complianceStandard : string;
  violationDetails : Details;
  resolutionStatus : string
}.

Definition complianceStandards : list string :=
  ["PCI-DSS"; "GDPR"; "AML-KYC"; "SOX"; "HIPAA"; "CCPA"].

(** [[!location && 'location', !device_info && 'device_info']
     .filter(Boolean)] *)
Definition missingFields (transaction : Transaction) : list string :=
  (if Js.truthy (location transaction) then [] else ["location"])
  ++ (if Js.truthy (device_info transaction) then [] else ["device_info"]).

Definition identifyCompllianceViolations (transaction : Transaction)
           (fraudScore : Q) (riskLevel : string) : list ComplianceEvent :=
  let events : list ComplianceEvent := [] in
  let amount := Js.or_zero (amount transaction) in
  let events :=
    if Js.gt fraudScore 0.7 then
      events ++
      [ {| eventType := "fraud_detection_threshold_exceeded";
           severity := sev_high;
           complianceStandard := "AML-KYC";
           violationDetails :=
             FraudDetails fraudScore 0.7
               "Transaction exceeds fraud detection threshold";
           resolutionStatus := "pending" |} ]
    else events in
  let events :=
    if Js.gt amount 10000 then
      events ++
      [ {| eventType := "high_value_transaction";
           severity := if Js.gt amount 50000 then sev_critical
                       else sev_high;
           complianceStandard := "AML-KYC";
           violationDetails :=
             AmountDetails amount 10000
               "High-value transaction requires enhanced monitoring";
           resolutionStatus := "pending" |} ]
    else events in
  let events :=
    if negb (Js.truthy (location transaction))
       || negb (Js.truthy (device_info transaction)) then
      events ++
      [ {| eventType := "incomplete_transaction_data";
           severity := sev_medium;
           complianceStandard := "PCI-DSS";
           violationDetails :=
             MissingDetails (missingFields transaction)
               "Required transaction data is incomplete";
           resolutionStatus := "pending" |} ]
    else events in
  let events :=
    if String.eqb riskLevel "critical" || String.eqb riskLevel "high" then
      events ++
      [ {| eventType := "high_risk_transaction_detected";
           severity := if String.eqb riskLevel "critical"
                       then sev_critical else sev_high;
           complianceStandard := "GDPR";
           violationDetails :=
             RiskDetails riskLevel (merchant_category transaction)
               ("Transaction classified as " +:+ riskLevel +:+ " risk");
           resolutionStatus := "pending" |} ]
    else events in
  let events :=
    match hour transaction with
    | Some hour =>
        if (hour <? 6)%Z || (23 <? hour)%Z then
          events ++
          [ {| eventType := "unusual_transaction_time";
               severity := sev_low;
               complianceStandard := "AML-KYC";
               violationDetails :=
                 TimeDetails hour "6-23"
                   "Transaction outside normal business hours";
               resolutionStatus := "pending" |} ]
        else events
    | None => events
    end in
  events.

(** A row of [compliance_events]; the two dates are epoch milliseconds,
    [None] where the column is empty. *)
Record EventRow := {
  event_type : string;
  row_severity : string;
  compliance_standard : string;
  resolution_status : string;
  created_at : option Z;
  resolved_at : option Z
}.

Record ComplianceMetrics := {
  totalEvents : nat;
  criticalEvents : nat;
  unresolvedEvents : nat;
  resolutionRate : Q;
  avgResolutionTime : Q;
  standardCoverage : JsMap.t nat
}.

Definition resolution_time (e : EventRow) : Z :=
  match resolved_at e, created_at e with
  | Some r, Some c => (r - c)%Z
  | _, _ => 0%Z
  end.

Definition Qnat (n : nat) : Q := inject_Z (Z.of_nat n).

(** [allEvents] is the [data] of the select over the trailing 90 days;
    [None] is [null]. *)
Definition getComplianceMetrics (allEvents : option (list EventRow))
  : ComplianceMetrics :=
  match allEvents with
  | None =>
      {| totalEvents := 0; criticalEvents := 0; unresolvedEvents := 0;
         resolutionRate := 0; avgResolutionTime := 0;
         standardCoverage := JsMap.empty |}
  | Some allEvents =>
      let criticalEvents :=
        length (List.filter
                  (fun e => String.eqb (row_severity e) "critical")
                  allEvents) in
      let unresolvedEvents :=
        length (List.filter
                  (fun e => String.eqb (resolution_status e) "pending")
                  allEvents) in
      let resolvedEvents :=
        List.filter (fun e => String.eqb (resolution_status e) "resolved")
                    allEvents in
      let resolutionTimes :=
        List.filter (fun t => (0 <? t)%Z)
                    (map resolution_time resolvedEvents) in
      let standardCoverage :=
        fold_left
          (fun coverage standard =>
             let count :=
               length (List.filter
                         (fun e => String.eqb (compliance_standard e)
                                              standard)
                         allEvents) in
             JsMap.set standard count coverage)
          complianceStandards JsMap.empty in
      {| totalEvents := length allEvents;
         criticalEvents := criticalEvents;
         unresolvedEvents := unresolvedEvents;
         resolutionRate :=
           if (0 <? length allEvents)%nat
           then Qnat (length resolvedEvents) / Qnat (length allEvents)
           else 0;
         avgResolutionTime :=
           if (0 <? length resolutionTimes)%nat
           then inject_Z (fold_left Z.add resolutionTimes 0%Z)
                / Qnat (length resolutionTimes)
                / (1000 * 60 * 60)
           else 0;
         standardCoverage := standardCoverage |}
  end.

End Compliance.

(** ** Hex codec of [EncryptionService]

    A [Uint8Array] is a list of bytes.  The encryption itself belongs to
    the platform's [crypto.subtle] and is not modelled. *)

Module EncryptionService.

(** The digit of [n] in [toString(16)], for [n] below 16. *)
Definition hex_digit (n : N) : ascii :=
  match String.get (N.to_nat n) "0123456789abcdef" with
  | Some c => c
  | None => "0"%char
  end.

(** [b.toString(16)] for a byte: one digit below 16, else two. *)
Definition toString16 (b : byte) : string :=
  let n := Byte.to_N b in
  if (n <? 16)%N then String (hex_digit n) ""
  else String (hex_digit (n / 16)) (String (hex_digit (n mod 16)) "").

(** [s.padStart(n, c)] for a one-character filler. *)
Definition padStart (n : nat) (c : ascii) (s : string) : string :=
  string_of_list_ascii (repeat c (n - String.length s)) +:+ s.

Definition toHex (array : list byte) : string :=
  Js.join "" (map (fun b => padStart 2 "0" (toString16 b)) array).

(** White space that [parseInt] skips, among the ASCII characters. *)
Definition is_space (c : ascii) : bool :=
  let n := nat_of_ascii c in
  ((9 <=? n)%nat && (n <=? 13)%nat) || (n =? 32)%nat.

Fixpoint skip_spaces (s : string) : string :=
  match s with
  | String c r => if is_space c then skip_spaces r else s
  | EmptyString => s
  end.

Definition digit16 (c : ascii) : option Z :=
  let n := Z.of_nat (nat_of_ascii c) in
  if (48 <=? n)%Z && (n <=? 57)%Z then Some (n - 48)%Z
  else if (97 <=? n)%Z && (n <=? 102)%Z then Some (n - 87)%Z
  else if (65 <=? n)%Z && (n <=? 70)%Z then Some (n - 55)%Z
  else None.

(** The value of the longest prefix of digits, [None] when there is no
    digit at all. *)
Fixpoint digits16 (s : string) (acc : option Z) : option Z :=
  match s with
  | String c r =>
      match digit16 c with
      | Some d =>
          digits16 r (Some (16 * match acc with Some a => a | None => 0 end
                            + d)%Z)
      | None => acc
      end
  | EmptyString => acc
  end.

(** [parseInt(s, 16)]: leading white space, a sign and a [0x] prefix are
    skipped, then digits are read as far as they go; [None] is [NaN]. *)
Definition parseInt16 (s : string) : option Z :=
  let s := skip_spaces s in
  let '(sign, s) :=
    match s with
    | String "-" r => ((-1)%Z, r)
    | String "+" r => (1%Z, r)
    | _ => (1%Z, s)
    end in
  let s :=
    match s with
    | String "0" (String "x" r) => r
    | String "0" (String "X" r) => r
    | _ => s
    end in
  option_map (Z.mul sign) (digits16 s None).

(** What storing a number into a [Uint8Array] keeps of it: [NaN] becomes
    0, an integer is taken modulo 256. *)
Definition to_uint8 (v : option Z) : byte :=
  match v with
  | Some z =>
      match Byte.of_N (Z.to_N (z mod 256)) with
      | Some b => b
      | None => "000"%byte
      end
  | None => "000"%byte
  end.

(** [hex.substring(i, i + 2)] for [i = 0, 2, 4, ...] below the length. *)
Fixpoint substrings2 (hex : string) : list string :=
  match hex with
  | EmptyString => []
  | String a EmptyString => [String a ""]
  | String a (String b r) => String a (String b "") :: substrings2 r
  end.

(** The array has [hex.length / 2] cells, rounded down; a write beyond
    them is dropped. *)
Definition fromHex (hex : string) : list byte :=
  firstn (String.length hex / 2)
         (map (fun p => to_uint8 (parseInt16 p)) (substrings2 hex)).

End EncryptionService.

(** ** Access rules of [RBACEngine] *)

Module RBACEngine.

Record RBACPolicy := { role : string; permissions : list string }.

Record Engine := { policies : JsMap.t RBACPolicy }.

Definition set_policy (k : string) (policy : RBACPolicy) (e : Engine)
  : Engine :=
  {| policies := JsMap.set k policy (policies e) |}.

Definition initializeDefaultPolicies (e : Engine) : Engine :=
  let e :=
    set_policy "admin"
      {| role := "admin";
         permissions :=
           ["manage_users"; "manage_models"; "view_all_transactions";
            "manage_thresholds"; "view_compliance_logs";
            "configure_system"; "manage_datasets"] |} e in
  let e :=
    set_policy "analyst"
      {| role := "analyst";
         permissions :=
           ["view_transactions"; "analyze_patterns"; "view_reports";
            "manage_thresholds"; "export_data"] |} e in
  set_policy "viewer"
    {| role := "viewer";
       permissions := ["view_own_transactions"; "view_own_reports"] |} e.

Definition constructor : Engine :=
  initializeDefaultPolicies {| policies := JsMap.empty |}.

(** [arr.includes(x)] on strings. *)
Definition includes (arr : list string) (x : string) : bool :=
  existsb (String.eqb x) arr.

Definition hasPermission (e : Engine) (role permission : string) : bool :=
  match JsMap.get role (policies e) with
  | Some policy => includes (permissions policy) permission || false
  | None => false
  end.

Definition getPermissions (e : Engine) (role : string) : list string :=
  match JsMap.get role (policies e) with
  | Some policy => permissions policy
  | None => []
  end.

Definition canAccess (e : Engine) (userRole userId resourceId
                                   resourceType : string) : bool :=
  let permissions := getPermissions e userRole in
  if String.eqb resourceType "transaction" then
    if String.eqb userRole "admin" then true
    else if String.eqb userRole "analyst"
         then includes permissions "view_transactions"
         else includes permissions "view_own_transactions"
              && String.eqb userId resourceId
  else if String.eqb resourceType "report" then
    if String.eqb userRole "admin" then true
    else if String.eqb userRole "analyst"
         then includes permissions "view_reports"
         else includes permissions "view_own_reports"
              && String.eqb userId resourceId
  else if String.eqb resourceType "model" then
    includes permissions "manage_models"
  else if String.eqb resourceType "threshold" then
    includes permissions "manage_thresholds"
  else false.

Definition addCustomPolicy (role : string) (permissions : list string)
           (e : Engine) : Engine :=
  set_policy role {| role := role; permissions := permissions |} e.

(** A run of policy additions from a fresh engine. *)
Definition customised (additions : list (string * list string)) : Engine :=
  fold_left (fun e a => addCustomPolicy (fst a) (snd a) e)
            additions constructor.

End RBACEngine.


(** ** Report rules of [ComplianceManager] *)

Module ComplianceManager.

(** A number that may be one of the three values a division by zero
    brings in. *)
Inductive ext := Fin (q : Q) | PosInf | NegInf | NaN.

(** [a / b] *)
Definition div (a b : Q) : ext :=
  if Qeq_bool b 0 then
    if Js.gt a 0 then PosInf else if Js.lt a 0 then NegInf else NaN
  else Fin (a / b).

(** [x * c] and [x + c] for a finite [c]. *)
Definition mul_fin (x : ext) (c : Q) : ext :=
  match x with
  | Fin q => Fin (q * c)
  | PosInf => if Js.gt c 0 then PosInf else if Js.lt c 0 then NegInf else NaN
  | NegInf => if Js.gt c 0 then NegInf else if Js.lt c 0 then PosInf else NaN
  | NaN => NaN
  end.

Definition add_fin (x : ext) (c : Q) : ext :=
  match x with Fin q => Fin (q + c) | _ => x end.

(** [Math.min(1, x)] *)
Definition min1 (x : ext) : ext :=
  match x with
  | Fin q => Fin (Js.min 1 q)
  | PosInf => Fin 1
  | NegInf => NegInf
  | NaN => NaN
  end.

(** [x > c] *)
Definition ext_gt (x : ext) (c : Q) : bool :=
  match x with
  | Fin q => Js.gt q c
  | PosInf => true
  | NegInf | NaN => false
  end.

Record ComplianceMetrics := {
  totalTransactions : Q;
  fraudulentTransactions : Q;
  detectionRate : Q;
  falsePositiveRate : Q;
  averageResponseTime : Q;
  systemUptime : Q
}.

Record RiskAssessment := {
  overallRiskScore : ext;
  highRiskTransactions : Z;
  mediumRiskTransactions : Z;
  lowRiskTransactions : Q
}.

Record RegulatoryChecks := {
  pciDssCompliant : bool;
  gdprCompliant : bool;
  amlCompliant : bool;
  notes : list string
}.

Definition assessRisk (metrics : ComplianceMetrics) : RiskAssessment :=
  let fraudRate :=
    div (fraudulentTransactions metrics) (totalTransactions metrics) in
  let overallRiskScore :=
    add_fin (mul_fin fraudRate 0.6) (falsePositiveRate metrics * 0.4) in
  let overallRiskScore :=
    if Js.gt (averageResponseTime metrics) 1000
    then add_fin overallRiskScore 0.1 else overallRiskScore in
  let overallRiskScore :=
    if Js.lt (systemUptime metrics) 0.99
    then add_fin overallRiskScore 0.05 else overallRiskScore in
  let overallRiskScore := min1 overallRiskScore in
  let highRisk := Qfloor (fraudulentTransactions metrics * 0.8) in
  let mediumRisk := Qfloor (fraudulentTransactions metrics * 0.15) in
  let lowRisk :=
    fraudulentTransactions metrics - inject_Z highRisk
    - inject_Z mediumRisk in
  {| overallRiskScore := overallRiskScore;
     highRiskTransactions := highRisk;
     mediumRiskTransactions := mediumRisk;
     lowRiskTransactions := lowRisk |}.

Definition performRegulatoryChecks (metrics : ComplianceMetrics)
  : RegulatoryChecks :=
  let notes : list string := [] in
  let pciDssCompliant :=
    Js.le 0.999 (systemUptime metrics)
    && Js.lt (averageResponseTime metrics) 2000 in
  let notes :=
    if negb pciDssCompliant
    then notes ++ ["PCI DSS: Improve system uptime and response time"]
    else notes in
  let gdprCompliant := true in
  let notes := notes ++ ["GDPR: Data retention and processing aligned"] in
  let amlCompliant := Js.le 0.85 (detectionRate metrics) in
  let notes :=
    if negb amlCompliant
    then notes
         ++ ["AML: Fraud detection rate below recommended threshold"]
    else notes in
  {| pciDssCompliant := pciDssCompliant;
     gdprCompliant := gdprCompliant;
     amlCompliant := amlCompliant;
     notes := notes |}.

Definition generateRecommendations (metrics : ComplianceMetrics)
           (riskAssessment : RiskAssessment)
           (regulatoryChecks : RegulatoryChecks) : list string :=
  let recommendations : list string := [] in
  let recommendations :=
    if ext_gt (overallRiskScore riskAssessment) 0.7
    then recommendations
         ++ ["High fraud risk detected. Increase monitoring and threshold sensitivity."]
    else recommendations in
  let recommendations :=
    if Js.gt (falsePositiveRate metrics) 0.15
    then recommendations
         ++ ["High false positive rate. Review and recalibrate detection thresholds."]
    else recommendations in
  let recommendations :=
    if Js.gt (averageResponseTime metrics) 1000
    then recommendations
         ++ ["Improve system response time. Consider caching optimization."]
    else recommendations in
  let recommendations :=
    if negb (pciDssCompliant regulatoryChecks)
    then recommendations ++ ["Implement PCI DSS compliance controls."]
    else recommendations in
  let recommendations :=
    if negb (amlCompliant regulatoryChecks)
    then recommendations ++ ["Enhance AML detection capabilities."]
    else recommendations in
  let recommendations :=
    recommendations ++ ["Conduct monthly compliance reviews."] in
  let recommendations :=
    recommendations ++ ["Implement continuous model monitoring."] in
  recommendations.

Record ComplianceReport := {
  reportId : string;
  period : Z * Z;
  metrics : ComplianceMetrics;
  riskAssessment : RiskAssessment;
  regulatoryChecks : RegulatoryChecks;
  recommendations : list string;
  generatedAt : Z
}.

(** [id] is what [generateReportId] draws from the clock and the random
    source, [now] is [new Date()]. *)
Definition generateReport (id : string) (now : Z)
           (metrics : ComplianceMetrics) (periodStart periodEnd : Z)
  : ComplianceReport :=
  let riskAssessment := assessRisk metrics in
  let regulatoryChecks := performRegulatoryChecks metrics in
  let recommendations :=
    generateRecommendations metrics riskAssessment regulatoryChecks in
  {| reportId := id;
     period := (periodStart, periodEnd);
     metrics := metrics;
     riskAssessment := riskAssessment;
     regulatoryChecks := regulatoryChecks;
     recommendations := recommendations;
     generatedAt := now |}.

Record Validation := { compliant : bool; violations : list string }.

Definition validateCompliance (metrics : ComplianceMetrics) : Validation :=
  let violations : list string := [] in
  let violations :=
    if Js.lt (detectionRate metrics) 0.8
    then violations ++ ["Fraud detection rate below 80% threshold"]
    else violations in
  let violations :=
    if Js.gt (falsePositiveRate metrics) 0.2
    then violations ++ ["False positive rate exceeds 20%"]
    else violations in
  let violations :=
    if Js.lt (systemUptime metrics) 0.99
    then violations ++ ["System uptime below 99%"]
    else violations in
  let violations :=
    if Js.gt (averageResponseTime metrics) 5000
    then violations ++ ["Average response time exceeds 5 seconds"]
    else violations in
  {| compliant := (length violations =? 0)%nat;
     violations := violations |}.

End ComplianceManager.

(** ** Retention and access rules of [DataGovernance]

    [shouldDeleteData] moves a calendar date by days in local time and
    is not modelled. *)

Module DataGovernance.

Record Engine := { retentionPolicies : JsMap.t Q }.

Definition set_retention (k : string) (days : Q) (e : Engine) : Engine :=
  {| retentionPolicies := JsMap.set k days (retentionPolicies e) |}.

Definition initializeRetentionPolicies (e : Engine) : Engine :=
  set_retention "personal_data" 7
    (set_retention "reports" 365
       (set_retention "logs" 30
          (set_retention "transactions" 90 e))).

Definition constructor : Engine :=
  initializeRetentionPolicies {| retentionPolicies := JsMap.empty |}.

(** [None] is [null]: no policy, or a policy of 0 days. *)
Definition getRetentionPeriod (e : Engine) (dataType : string) : option Q :=
  match JsMap.get dataType (retentionPolicies e) with
  | Some days => if Qeq_bool days 0 then None else Some days
  | None => None
  end.

Definition setRetentionPolicy (dataType : string) (days : Q) (e : Engine)
  : Engine :=
  set_retention dataType days e.

Inductive Classification := public | internal | confidential | restricted.

Definition classifications (dataType : string) : option Classification :=
  if String.eqb dataType "transactions" then Some confidential
  else if String.eqb dataType "personal_data" then Some restricted
  else if String.eqb dataType "reports" then Some internal
  else if String.eqb dataType "logs" then Some internal
  else if String.eqb dataType "models" then Some confidential
  else None.

(** [None] is a member inherited from [Object.prototype], which the
    lookup returns in place of a classification. *)
Definition getDataClassification (dataType : string)
  : option Classification :=
  match classifications dataType with
  | Some c => Some c
  | None => if Js.inherited dataType then None else Some internal
  end.

Definition roleAccessMap (userRole : string)
  : option (list Classification) :=
  if String.eqb userRole "admin"
  then Some [public; internal; confidential; restricted]
  else if String.eqb userRole "analyst"
  then Some [public; internal; confidential]
  else if String.eqb userRole "viewer"
  then Some [public; internal]
  else None.

Definition same_class (a b : Classification) : bool :=
  match a, b with
  | public, public | internal, internal | confidential, confidential
  | restricted, restricted => true
  | _, _ => false
  end.

(** [None] is the [TypeError] of calling [includes] on a member inherited
    from [Object.prototype]. *)
Definition validateDataAccess (userRole dataType : string) : option bool :=
  let classification := getDataClassification dataType in
  match roleAccessMap userRole with
  | Some allowedLevels =>
      Some match classification with
           | Some c => existsb (same_class c) allowedLevels
           | None => false
           end
  | None =>
      if Js.inherited userRole then None
      else Some false
  end.

End DataGovernance.


(** ** Record intake of [DataIngestor]

    A field of a record holds a primitive value; [parseFloat] and the
    [Date] constructor on strings are the platform's and are arguments.
    The three error texts [Line i: m], [Record i: m] and
    [Batch b, Record r: m] are kept as their parts. *)

Module DataIngestor.

Inductive value :=
| Undefined
| Null
| Bool (b : bool)
| Num (n : Js.num)
| Str (s : string).

(** [!v] *)
Definition falsy (v : value) : bool :=
  match v with
  | Undefined | Null => true
  | Bool b => negb b
  | Num None => true
  | Num (Some q) => Qeq_bool q 0
  | Str EmptyString => true
  | Str (String _ _) => false
  end.

(** [record.name] on a record that holds its fields as own properties. *)
Definition field (record : gmap string value) (name : string) : value :=
  match record !! name with Some v => v | None => Undefined end.

Inductive outcome := Valid | Throws (message : string).

Inductive place :=
| Line (i : nat)
| Record (i : nat)
| BatchRecord (batchIdx recordIdx : nat).

Record IngestResult := {
  total : Z;
  success : nat;
  failed : nat;
  errors : list (place * string);
  duration : Z
}.

Record IngestConfig := {
  batchSize : Q;
  retryAttempts : Q;
  timeout : Q
}.

Definition default_config : IngestConfig :=
  {| batchSize := 1000; retryAttempts := 3; timeout := 30000 |}.

Definition double_quote : ascii := ascii_of_nat 34.

(** The loop of [parseCSVLine] over the characters still to read. *)
Fixpoint parse_chars (chars : string) (result : list string)
         (current : string) (insideQuotes : bool) : list string :=
  match chars with
  | String char rest =>
      if Ascii.eqb char double_quote
      then parse_chars rest result current (negb insideQuotes)
      else if Ascii.eqb char "," && negb insideQuotes
      then parse_chars rest (result ++ [Js.trim current]) "" insideQuotes
      else parse_chars rest result (current +:+ String char "") insideQuotes
  | EmptyString => result ++ [Js.trim current]
  end.

Definition parseCSVLine (line : string) : list string :=
  parse_chars line [] "" false.

(** [values[index] || null] *)
Definition cell (values : list string) (index : nat) : value :=
  match nth_error values index with
  | Some (String c r) => Str (String c r)
  | _ => Null
  end.

(** An assignment to [record["__proto__"]] sets no own property. *)
Definition mapToRecord (headers values : list string)
  : gmap string value :=
  fold_left
    (fun record (h : nat * string) =>
       let '(index, header) := h in
       if String.eqb header "__proto__" then record
       else <[header := cell values index]> record)
    (combine (seq 0 (length headers)) headers) ∅.

(** [data.split('\n')] *)
Fixpoint split_lines (data : string) : list string :=
  match data with
  | String c rest =>
      match split_lines rest with
      | line :: lines =>
          if Ascii.eqb c (ascii_of_nat 10) then "" :: line :: lines
          else String c line :: lines
      | [] => [String c ""]
      end
  | EmptyString => [""]
  end.

Definition nonblank (line : string) : bool :=
  match Js.trim line with EmptyString => false | _ => true end.

(** [[0, 1, 'true', 'false', true, false].includes(v)] *)
Definition is_flag (v : value) : bool :=
  match v with
  | Num (Some q) => Qeq_bool q 0 || Qeq_bool q 1
  | Str s => String.eqb s "true" || String.eqb s "false"
  | Bool _ => true
  | _ => false
  end.

Section Platform.
Variable parseFloat_string : string -> Js.num.
Variable Date_parse : string -> option Z.

(** [parseFloat(v)]: the value is first turned into a string. *)
Definition parseFloat (v : value) : Js.num :=
  match v with
  | Str s => parseFloat_string s
  | Num n => n
  | _ => None
  end.

(** The time value of [new Date(v)], [None] for an invalid date. *)
Definition Date_of (v : value) : option Z :=
  match v with
  | Str s => Date_parse s
  | Num (Some q) =>
      if Js.gt (Qabs q) 8640000000000000 then None
      else Some (if Qlt_le_dec q 0 then Qceiling q else Qfloor q)
  | Num None => None
  | Bool b => Some (if b then 1 else 0)%Z
  | Null => Some 0%Z
  | Undefined => None
  end.

Definition validateRecord (record : gmap string value) : outcome :=
  if falsy (field record "amount")
     || match parseFloat (field record "amount") with
        | None => true
        | Some _ => false
        end
  then Throws "Invalid or missing amount field"
  else if falsy (field record "timestamp")
  then Throws "Missing timestamp field"
  else
    match Date_of (field record "timestamp") with
    | None => Throws "Invalid timestamp format"
    | Some _ =>
        match field record "is_fraudulent" with
        | Undefined => Valid
        | v => if negb (is_flag v)
               then Throws "Invalid is_fraudulent value"
               else Valid
        end
    end.

(** The counters of the three loops. *)
Record Counters := {
  n_success : nat;
  n_failed : nat;
  n_errors : list (place * string)
}.

(** One [try { validateRecord(record); success++ } catch { ... }], the
    error pushed when [room] allows it. *)
Definition check (record : gmap string value) (where_ : place)
           (room : list (place * string) -> bool) (c : Counters)
  : Counters :=
  match validateRecord record with
  | Valid =>
      {| n_success := S (n_success c); n_failed := n_failed c;
         n_errors := n_errors c |}
  | Throws message =>
      {| n_success := n_success c; n_failed := S (n_failed c);
         n_errors := if room (n_errors c)
                     then n_errors c ++ [(where_, message)]
                     else n_errors c |}
  end.

Definition always (errors : list (place * string)) : bool := true.

(** [errors.length < 10] *)
Definition below_ten (errors : list (place * string)) : bool :=
  (length errors <? 10)%nat.

Definition zero : Counters :=
  {| n_success := 0; n_failed := 0; n_errors := [] |}.

(** The loop over [i] from [first]. *)
Fixpoint check_all (label : nat -> place)
         (room : list (place * string) -> bool) (i : nat)
         (records : list (gmap string value)) (c : Counters) : Counters :=
  match records with
  | record :: rest =>
      check_all label room (S i) rest (check record (label i) room c)
  | [] => c
  end.

(** [startTime] and [endTime] are the two readings of [Date.now()]. *)
Definition ingestFromJSON (startTime endTime : Z)
           (data : list (gmap string value)) : IngestResult :=
  let c := check_all Record always 0 data zero in
  {| total := Z.of_nat (length data);
     success := n_success c;
     failed := n_failed c;
     errors := Js.slice0 10 (n_errors c);
     duration := (endTime - startTime)%Z |}.

(** [None] is the [TypeError] of reading the header off an input with no
    line that is not blank. *)
Definition ingestFromCSV (startTime endTime : Z) (data : string)
  : option IngestResult :=
  let lines := List.filter nonblank (split_lines data) in
  match lines with
  | [] => None
  | first :: rows =>
      let headers := parseCSVLine first in
      let c :=
        check_all Line always 1
                  (map (fun line => mapToRecord headers (parseCSVLine line))
                       rows)
                  zero in
      Some {| total := (Z.of_nat (length lines) - 1)%Z;
              success := n_success c;
              failed := n_failed c;
              errors := Js.slice0 10 (n_errors c);
              duration := (endTime - startTime)%Z |}
  end.

End Platform.

(** An index argument of [slice]: truncated, and counted from the end
    when negative. *)
Definition slice_index (len : Z) (x : Q) : Z :=
  let z := if Qlt_le_dec x 0 then Qceiling x else Qfloor x in
  if (z <? 0)%Z then Z.max (len + z) 0 else Z.min z len.

(** [arr.slice(start, stop)] *)
Definition slice {A} (start stop : Q) (arr : list A) : list A :=
  let len := Z.of_nat (length arr) in
  let k := slice_index len start in
  let final := slice_index len stop in
  firstn (Z.to_nat (Z.max (final - k) 0)) (skipn (Z.to_nat k) arr).

(** The loop of [createBatches]; [None] when the turns allowed by [fuel]
    do not bring [i] to the end of the data.  The index is exact, which
    is what the code computes when the batch size is an integer. *)
Fixpoint batches_from {A} (fuel : nat) (i : Q) (data : list A)
         (batchSize : Q) (batches : list (list A))
  : option (list (list A)) :=
  if Js.lt i (inject_Z (Z.of_nat (length data))) then
    match fuel with
    | S fuel =>
        batches_from fuel (i + batchSize) data batchSize
                     (batches ++ [slice i (i + batchSize) data])
    | O => None
    end
  else Some batches.

Definition createBatches {A} (fuel : nat) (data : list A) (batchSize : Q)
  : option (list (list A)) :=
  batches_from fuel 0 data batchSize [].

Section PlatformBatch.
Variable parseFloat_string : string -> Js.num.
Variable Date_parse : string -> option Z.

(** The outer loop of [ingestBatch] over the batches. *)
Fixpoint check_batches (batchIdx : nat)
         (batches : list (list (gmap string value))) (c : Counters)
  : Counters :=
  match batches with
  | batch :: rest =>
      check_batches (S batchIdx) rest
        (check_all parseFloat_string Date_parse (BatchRecord batchIdx)
                   below_ten 0 batch c)
  | [] => c
  end.

Definition ingestBatch (fuel : nat) (config : IngestConfig)
           (startTime endTime : Z) (data : list (gmap string value))
  : option IngestResult :=
  batches ← createBatches fuel data (batchSize config);
  let c := check_batches 0 batches zero in
  Some {| total := Z.of_nat (length data);
          success := n_success c;
          failed := n_failed c;
          errors := n_errors c;
          duration := (endTime - startTime)%Z |}.

End PlatformBatch.

End DataIngestor.


(** ** Binary64 numbers

    Where the outcome of the code turns on how a sum, a difference or a
    product is rounded, the number is the binary64 value itself, one of
    the kernel's [float]s: the grading of a score against a threshold,
    the gates of a recalibration, the ranking of the features and the
    confidence of an explanation. *)

Module F64.
Local Open Scope float_scope.

Definition isNaN (x : float) : bool := negb (x =? x).

(** [x || 0]: [NaN] and both zeros are falsy. *)
Definition or_zero (x : float) : float :=
  if isNaN x || (x =? 0) then 0 else x.

(** [Math.min] and [Math.max]: [NaN] if either is, and [-0] below [+0]. *)
Definition min (x y : float) : float :=
  if isNaN x || isNaN y then nan
  else if x <? y then x
  else if y <? x then y
  else if get_sign x then x else y.

Definition max (x y : float) : float :=
  if isNaN x || isNaN y then nan
  else if y <? x then x
  else if x <? y then y
  else if get_sign x then y else x.

(** A count as a number; array lengths are below [2^32]. *)
Definition of_nat (n : nat) : float :=
  of_uint63 (Uint63.of_Z (Z.of_nat n)).

(** The exact value of a finite number; 0 stands in for [NaN] and the
    infinities, which have none. *)
Definition exact (x : float) : Q :=
  match Prim2SF x with
  | S754_finite s m e =>
      let v := match e with
               | Zneg p => Qmake (Zpos m) (Pos.pow 2 p)
               | _ => inject_Z (Zpos m * 2 ^ e)
               end in
      if s then Qopp v else v
  | _ => 0%Q
  end.

(** The integer nearest to [m * 2^e * 1000], a tie going up. *)
Definition thousandths (m : positive) (e : Z) : Z :=
  match e with
  | Zneg p => (2000 * Zpos m + 2 ^ Zpos p) / 2 ^ (Zpos p + 1)
  | _ => Zpos m * 2 ^ e * 1000
  end.

(** [parseFloat(x.toFixed(3))].  Below [2^43] in magnitude the digits
    are those of the nearest multiple of 1/1000, whose numerator is below
    [2^53], and the string parses to the nearest number, which is what
    the division returns; from [2^43] on the spacing of the numbers is
    above 1/1000 and the string parses back to [x], as do [NaN] and
    [Infinity]. *)
Definition toFixed3 (x : float) : float :=
  match Prim2SF x with
  | S754_finite s m e =>
      if abs x <? 8796093022208 then
        let q := of_uint63 (Uint63.of_Z (thousandths m e)) / 1000 in
        if s then - q else q
      else x
  | S754_zero _ => 0
  | _ => x
  end.

(** [arr.sort(cmp)]: the stable sort; [x] goes after [y] only when
    [cmp x y > 0], a [NaN] out of [cmp] counting as 0. *)
Section Sort.
Context {A : Type} (cmp : A -> A -> float).

Fixpoint sort_insert (x : A) (l : list A) : list A :=
  match l with
  | [] => [x]
  | y :: r => if 0 <? cmp x y then y :: sort_insert x r
              else x :: y :: r
  end.

Fixpoint sort (l : list A) : list A :=
  match l with
  | [] => []
  | x :: r => sort_insert x (sort r)
  end.
End Sort.

(** A template literal, its interpolated numbers kept as numbers:
    [Fixed x d] is [x.toFixed(d)], [Hours h] is the hour [h] printed. *)
Inductive part :=
| Lit (s : string)
| Fixed (x : float) (digits : nat)
| Hours (h : option Z).

Definition text := list part.

End F64.

(** ** Threshold Store on binary64 numbers *)

Module Thresholds64.
Local Open Scope float_scope.

Record ThresholdConfig := {
  merchantCategory : string;
  fraudThreshold : float;
  dynamicAdjustment : bool;
  minThreshold : float;
  maxThreshold : float;
  adaptationRate : float;
  sampleSizeMinimum : float
}.

Record ThresholdAdjustment := {
  adj_merchantCategory : string;
  oldThreshold : float;
  newThreshold : float;
  reason : F64.text;
  adjustmentFactor : float;
  timestamp : Z
}.

(** A row of [threshold_configs] as the record store returns it. *)
Record ConfigRow := {
  merchant_category : string;
  fraud_threshold : float;
  dynamic_adjustment : bool;
  min_threshold : float;
  max_threshold : float;
  adaptation_rate : float;
  sample_size_minimum : float
}.

(** The two columns of [transactions] that the metrics read. *)
Record TxRow := { tx_fraud_score : float; tx_is_fraudulent : bool }.

(** What the engine sends to [threshold_configs]. *)
Inductive DbWrite :=
| DbUpdate (category : string) (fraud_threshold : float)
| DbInsert (row : ConfigRow).

(** The answer of the [transactions] query per category, over the
    trailing 30 days; [None] is an error or no data. *)
Definition TxQuery := string -> option (list TxRow).

Record Metrics := {
  sampleCount : nat;
  falsePositiveRate : float;
  falseNegativeRate : float;
  detectionAccuracy : float;
  precision : option float;
  recall : option float
}.

Record Engine := {
  thresholdCache : JsMap.t ThresholdConfig;
  dbLog : list DbWrite
}.

Definition with_cache (c : JsMap.t ThresholdConfig) (e : Engine) : Engine :=
  {| thresholdCache := c; dbLog := dbLog e |}.

Definition log (w : DbWrite) (e : Engine) : Engine :=
  {| thresholdCache := thresholdCache e; dbLog := dbLog e ++ [w] |}.

Definition mkConfig (c : string) (thr lo hi rate n : float)
  : ThresholdConfig :=
  {| merchantCategory := c; fraudThreshold := thr;
     dynamicAdjustment := true; minThreshold := lo; maxThreshold := hi;
     adaptationRate := rate; sampleSizeMinimum := n |}.

Definition defaultThresholds : list ThresholdConfig :=
  [ mkConfig "grocery"         0.45 0.35 0.65 0.08 100;
    mkConfig "online_retail"   0.50 0.40 0.70 0.10 150;
    mkConfig "travel_agencies" 0.55 0.45 0.75 0.12 80;
    mkConfig "money_transfer"  0.65 0.55 0.85 0.15 50;
    mkConfig "crypto"          0.70 0.60 0.90 0.15 60;
    mkConfig "entertainment"   0.48 0.38 0.68 0.09 120;
    mkConfig "default"         0.50 0.35 0.75 0.10 100 ].

Definition initializeDefaultThresholds (e : Engine) : Engine :=
  fold_left
    (fun e config =>
       with_cache (JsMap.set (merchantCategory config) config
                             (thresholdCache e)) e)
    defaultThresholds e.

Definition constructor : Engine :=
  initializeDefaultThresholds
    {| thresholdCache := JsMap.empty; dbLog := [] |}.

Definition config_of_row (config : ConfigRow) : ThresholdConfig :=
  {| merchantCategory := merchant_category config;
     fraudThreshold := fraud_threshold config;
     dynamicAdjustment := dynamic_adjustment config;
     minThreshold := min_threshold config;
     maxThreshold := max_threshold config;
     adaptationRate := adaptation_rate config;
     sampleSizeMinimum := sample_size_minimum config |}.

(** [data] is the answer of the select: [None] when [data] is null or
    [error] is set. *)
Definition loadThresholdsFromDatabase (data : option (list ConfigRow))
           (e : Engine) : Engine :=
  match data with
  | Some data =>
      fold_left
        (fun e config =>
           with_cache (JsMap.set (merchant_category config)
                                 (config_of_row config)
                                 (thresholdCache e)) e)
        data e
  | None => e
  end.

(** The lookup shared by [getThreshold] and [getFullConfig]; the result
    is [None] where the source holds [undefined]. *)
Definition lookupConfig (e : Engine) (merchantCategory : option string)
  : option ThresholdConfig :=
  let config :=
    match merchantCategory with
    | Some c =>
        if Js.truthy merchantCategory
        then JsMap.get (Js.toLowerCase c) (thresholdCache e)
        else None
    | None => None
    end in
  match config with
  | Some config => Some config
  | None => JsMap.get "default" (thresholdCache e)
  end.

(** [None] is the [TypeError] of reading [fraudThreshold] off
    [undefined]. *)
Definition getThreshold (e : Engine) (merchantCategory : option string)
  : option float :=
  config ← lookupConfig e merchantCategory;
  Some (fraudThreshold config).

Record Counts := {
  falsePositives : nat;
  falseNegatives : nat;
  truePositives : nat;
  trueNegatives : nat
}.

(** The body of [data.forEach] in [calculateCategoryMetrics]. *)
Definition count_tx (threshold : float) (c : Counts) (tx : TxRow) : Counts :=
  let predicted := threshold <? tx_fraud_score tx in
  let actual := tx_is_fraudulent tx in
  if predicted && negb actual then
    {| falsePositives := S (falsePositives c);
       falseNegatives := falseNegatives c;
       truePositives := truePositives c;
       trueNegatives := trueNegatives c |}
  else if negb predicted && actual then
    {| falsePositives := falsePositives c;
       falseNegatives := S (falseNegatives c);
       truePositives := truePositives c;
       trueNegatives := trueNegatives c |}
  else if predicted && actual then
    {| falsePositives := falsePositives c;
       falseNegatives := falseNegatives c;
       truePositives := S (truePositives c);
       trueNegatives := trueNegatives c |}
  else
    {| falsePositives := falsePositives c;
       falseNegatives := falseNegatives c;
       truePositives := truePositives c;
       trueNegatives := S (trueNegatives c) |}.

(** [n > 0 ? a / n : 0] *)
Definition ratio (a n : nat) : float :=
  if (0 <? n)%nat then F64.of_nat a / F64.of_nat n else 0.

(** [None] is the exception [getThreshold] throws. *)
Definition calculateCategoryMetrics (e : Engine) (db : TxQuery)
           (merchantCategory : string) : option Metrics :=
  match db merchantCategory with
  | None =>
      Some {| sampleCount := 0;
              falsePositiveRate := 0;
              falseNegativeRate := 0;
              detectionAccuracy := 0;
              precision := None;
              recall := None |}
  | Some data =>
      threshold ← getThreshold e (Some merchantCategory);
      let c := fold_left (count_tx threshold) data
                 {| falsePositives := 0; falseNegatives := 0;
                    truePositives := 0; trueNegatives := 0 |} in
      let totalPositives := (truePositives c + falseNegatives c)%nat in
      let totalNegatives := (trueNegatives c + falsePositives c)%nat in
      Some {| sampleCount := length data;
              falsePositiveRate := ratio (falsePositives c) totalNegatives;
              falseNegativeRate := ratio (falseNegatives c) totalPositives;
              detectionAccuracy :=
                F64.of_nat (truePositives c + trueNegatives c)
                / F64.of_nat (Nat.max (length data) 1);
              precision :=
                Some (ratio (truePositives c)
                            (truePositives c + falsePositives c));
              recall :=
                Some (ratio (truePositives c)
                            (truePositives c + falseNegatives c)) |}
  end.

Definition generateAdjustmentReason (metrics : Metrics) : F64.text :=
  if 0.15 <? falsePositiveRate metrics then
    [ F64.Lit "High false positive rate (";
      F64.Fixed (falsePositiveRate metrics * 100) 1;
      F64.Lit "%) - increasing threshold" ]
  else if 0.10 <? falseNegativeRate metrics then
    [ F64.Lit "High false negative rate (";
      F64.Fixed (falseNegativeRate metrics * 100) 1;
      F64.Lit "%) - decreasing threshold" ]
  else [ F64.Lit "Performance-based adjustment" ].

(** The raw move of the threshold and the signed factor reported for it,
    before clamping: the [if / else if] of [calculateOptimalThreshold]. *)
Definition proposed (metrics : Metrics) (config : ThresholdConfig)
  : float * float :=
  let newThreshold := fraudThreshold config in
  let adjustmentFactor := 0 in
  if 0.15 <? falsePositiveRate metrics then
    let increase :=
      adaptationRate config * (falsePositiveRate metrics - 0.10) in
    (newThreshold + increase, increase)
  else if 0.10 <? falseNegativeRate metrics then
    let decrease :=
      adaptationRate config * (0.10 - falseNegativeRate metrics) in
    (newThreshold - decrease, - decrease)
  else (newThreshold, adjustmentFactor).

(** [now] is the [new Date()] of the record; [None] is [null]. *)
Definition calculateOptimalThreshold (now : Z) (metrics : Metrics)
           (config : ThresholdConfig) : option ThresholdAdjustment :=
  let '(newThreshold, adjustmentFactor) := proposed metrics config in
  let newThreshold :=
    F64.max (minThreshold config)
            (F64.min newThreshold (maxThreshold config)) in
  if 0.001 <? abs adjustmentFactor then
    Some {| adj_merchantCategory := merchantCategory config;
            oldThreshold := fraudThreshold config;
            newThreshold := newThreshold;
            reason := generateAdjustmentReason metrics;
            adjustmentFactor := adjustmentFactor;
            timestamp := now |}
  else None.

Definition set_fraudThreshold (x : float) (config : ThresholdConfig)
  : ThresholdConfig :=
  {| merchantCategory := merchantCategory config;
     fraudThreshold := x;
     dynamicAdjustment := dynamicAdjustment config;
     minThreshold := minThreshold config;
     maxThreshold := maxThreshold config;
     adaptationRate := adaptationRate config;
     sampleSizeMinimum := sampleSizeMinimum config |}.

(** A failed write is only reported on the console. *)
Definition updateThreshold (merchantCategory : string)
           (newThreshold : float) (e : Engine) : Engine :=
  match JsMap.get merchantCategory (thresholdCache e) with
  | None => e
  | Some config =>
      let config := set_fraudThreshold newThreshold config in
      log (DbUpdate merchantCategory newThreshold)
          (with_cache (JsMap.set merchantCategory config
                                 (thresholdCache e)) e)
  end.

Definition row_of_config (config : ThresholdConfig) : ConfigRow :=
  {| merchant_category := merchantCategory config;
     fraud_threshold := fraudThreshold config;
     dynamic_adjustment := dynamicAdjustment config;
     min_threshold := minThreshold config;
     max_threshold := maxThreshold config;
     adaptation_rate := adaptationRate config;
     sample_size_minimum := sampleSizeMinimum config |}.

Definition createThresholdConfig (config : ThresholdConfig) (e : Engine)
  : Engine :=
  log (DbInsert (row_of_config config))
      (with_cache (JsMap.set (merchantCategory config) config
                             (thresholdCache e)) e).

(** One turn of the [for ... of] loop of
    [adjustThresholdsBasedOnPerformance] at the entry [category]; [None]
    is an exception out of [calculateCategoryMetrics], thrown before the
    turn has changed anything. *)
Definition adjust_segment (db : TxQuery) (clock : string -> Z)
           (category : string)
           (st : Engine * list ThresholdAdjustment)
  : option (Engine * list ThresholdAdjustment) :=
  let '(e, adjustments) := st in
  match JsMap.get category (thresholdCache e) with
  | None => Some st
  | Some config =>
      metrics ← calculateCategoryMetrics e db category;
      if F64.of_nat (sampleCount metrics) <? sampleSizeMinimum config
      then Some st
      else
        match calculateOptimalThreshold (clock category) metrics config with
        | Some adjustment =>
            if 0.02 <? abs (adjustmentFactor adjustment)
            then Some (updateThreshold category (newThreshold adjustment) e,
                       adjustments ++ [adjustment])
            else Some st
        | None => Some st
        end
  end.

(** The loop over the keys; the flag tells whether it ran to its end. *)
Fixpoint adjust_loop (db : TxQuery) (clock : string -> Z)
         (categories : list string)
         (st : Engine * list ThresholdAdjustment)
  : Engine * list ThresholdAdjustment * bool :=
  match categories with
  | [] => (st, true)
  | category :: rest =>
      match adjust_segment db clock category st with
      | Some st' => adjust_loop db clock rest st'
      | None => (st, false)
      end
  end.

(** The engine afterwards and the list returned; [None] for a rejected
    promise. *)
Definition adjustThresholdsBasedOnPerformance (db : TxQuery)
           (clock : string -> Z) (e : Engine)
  : Engine * option (list ThresholdAdjustment) :=
  let '(e', adjustments, finished) :=
    adjust_loop db clock (JsMap.keys (thresholdCache e)) (e, []) in
  (e', if finished then Some adjustments else None).

Definition isTransactionFraudulent (e : Engine) (fraudScore : float)
           (merchantCategory : option string) : option bool :=
  threshold ← getThreshold e merchantCategory;
  Some (threshold <? fraudScore).

Inductive RiskLevel := low | medium | high | critical.

Definition calculateRiskLevel (e : Engine) (fraudScore : float)
           (merchantCategory : option string) : option RiskLevel :=
  threshold ← getThreshold e merchantCategory;
  let distance := fraudScore - threshold in
  if fraudScore <=? threshold then Some low
  else if distance <? 0.1 then Some medium
  else if distance <? 0.25 then Some high
  else Some critical.

(** The public operations that change the store, and a run of them from
    a fresh engine. *)
Inductive StoreOp :=
| Load (data : option (list ConfigRow))
| Create (config : ThresholdConfig)
| Recalibrate (db : TxQuery) (clock : string -> Z).

Definition apply_op (e : Engine) (op : StoreOp) : Engine :=
  match op with
  | Load data => loadThresholdsFromDatabase data e
  | Create config => createThresholdConfig config e
  | Recalibrate db clock =>
      fst (adjustThresholdsBasedOnPerformance db clock e)
  end.

Definition run (ops : list StoreOp) : Engine :=
  fold_left apply_op ops constructor.

End Thresholds64.

(** ** Explanation Generator on binary64 numbers

    The ranked feature list and the confidence of [explainPrediction]. *)

Module Explain64.
Local Open Scope float_scope.

(** The transaction as the engine reads it: [amount] is
    [parseFloat(transaction.amount)], [NaN] when it does not parse, and
    [hour] is [new Date(transaction.timestamp).getHours()]. *)
Record Transaction := {
  transaction_id : string;
  amount : float;
  hour : option Z;
  location : option string;
  merchant : option string;
  merchant_category : option string;
  device_info : option string;
  ip_address : option string
}.

Inductive Impact := positive | negative.

Record FeatureImportance := {
  feature : string;
  importance : float;
  impact : Impact;
  description : F64.text
}.

Record ExplainabilityResult := {
  transactionId : string;
  modelPrediction : float;
  confidence : float;
  featureImportance : list FeatureImportance
}.

Definition normalizeScore (value min max : float) : float :=
  (value - min) / (max - min).

Definition highRiskCategories : list string :=
  ["money_transfer"; "crypto"; "gambling"; "dating_services";
   "travel_agencies"].

Definition calculateMerchantRiskScore (category : option string) : float :=
  match category with
  | Some (String c r) =>
      if Js.some (fun c' => Js.includes (Js.toLowerCase (String c r)) c')
                 highRiskCategories
      then 0.75 else 0.3
  | _ => 0.5
  end.

Definition calculateIpRiskScore (ip : option string) : float :=
  match ip with
  | Some (String c r) =>
      if Js.startsWith (String c r) "192.168"
         || Js.startsWith (String c r) "10."
      then 0.1 else 0.4
  | _ => 0.6
  end.

Definition calculateTimeScore (hour : option Z) : float :=
  match hour with
  | Some hour =>
      if (8 <=? hour)%Z && (hour <=? 20)%Z then 0.2
      else if (6 <=? hour)%Z && (hour <=? 23)%Z then 0.4
      else 0.8
  | None => 0.8
  end.

Definition calculateAmountDeviation (amount : float) : float :=
  let average := 500 in
  let maxDeviation := 5000 in
  let deviation := abs (amount - average) / maxDeviation in
  F64.min deviation 1.

Definition impact_if (b : bool) : Impact :=
  if b then positive else negative.

(** The eight entries in the order they are pushed. *)
Definition pushed (transaction : Transaction) (fraudScore : float)
  : list FeatureImportance :=
  let amount := F64.or_zero (amount transaction) in
  let amountImportance := normalizeScore (amount / 10000) 0 1 in
  let locationScore :=
    if Js.truthy (location transaction) then 0.3 else 0.7 in
  let merchantScore :=
    calculateMerchantRiskScore (merchant_category transaction) in
  let deviceScore :=
    if Js.truthy (device_info transaction) then 0.2 else 0.8 in
  let ipScore := calculateIpRiskScore (ip_address transaction) in
  let timeScore := calculateTimeScore (hour transaction) in
  let frequencyScore := 0.5 in
  let deviationScore := calculateAmountDeviation amount in
  [ {| feature := "Transaction Amount";
       importance := amountImportance * 0.15;
       impact := impact_if (0.7 <? amountImportance);
       description :=
         [ F64.Lit "Amount of $"; F64.Fixed amount 2; F64.Lit " is ";
           F64.Lit (if 0.7 <? amountImportance
                    then "significantly above" else "within");
           F64.Lit " normal range" ] |};
    {| feature := "Location";
       importance := locationScore * 0.12;
       impact := impact_if (0.5 <? locationScore);
       description :=
         [ F64.Lit "Transaction location: ";
           F64.Lit (Js.or_else (location transaction) "Unknown") ] |};
    {| feature := "Merchant Category";
       importance := merchantScore * 0.18;
       impact := impact_if (0.6 <? merchantScore);
       description :=
         [ F64.Lit "Merchant category: ";
           F64.Lit (Js.or_else (merchant_category transaction)
                               "Unknown") ] |};
    {| feature := "Device";
       importance := deviceScore * 0.10;
       impact := impact_if (0.5 <? deviceScore);
       description :=
         [ F64.Lit "Device ";
           F64.Lit (if Js.truthy (device_info transaction)
                    then "recognized" else "unknown") ] |};
    {| feature := "IP Address";
       importance := ipScore * 0.15;
       impact := impact_if (0.5 <? ipScore);
       description :=
         [ F64.Lit "IP reputation score: "; F64.Fixed (ipScore * 100) 1;
           F64.Lit "%" ] |};
    {| feature := "Time Pattern";
       importance := timeScore * 0.08;
       impact := impact_if (0.5 <? timeScore);
       description :=
         [ F64.Lit "Transaction at "; F64.Hours (hour transaction);
           F64.Lit ":00" ] |};
    {| feature := "Frequency";
       importance := frequencyScore * 0.12;
       impact := impact_if (0.6 <? frequencyScore);
       description :=
         [ F64.Lit "Transaction frequency within normal range" ] |};
    {| feature := "Amount Deviation";
       importance := deviationScore * 0.10;
       impact := impact_if (0.6 <? deviationScore);
       description :=
         [ F64.Fixed (deviationScore * 100) 1;
           F64.Lit "% deviation from average" ] |} ].

Definition calculateFeatureImportance (transaction : Transaction)
           (fraudScore : float) : list FeatureImportance :=
  F64.sort (fun a b => importance b - importance a)
           (pushed transaction fraudScore).

Definition calculateConfidence (fraudScore : float)
           (features : list FeatureImportance) : float :=
  let featureVariance :=
    fold_left (fun sum f => sum + importance f) features 0 in
  let confidence := F64.min (featureVariance + 0.3) 0.95 in
  F64.toFixed3 confidence.

Definition explainPrediction (transaction : Transaction)
           (fraudScore : float) : ExplainabilityResult :=
  let featureImportance :=
    calculateFeatureImportance transaction fraudScore in
  {| transactionId := transaction_id transaction;
     modelPrediction := fraudScore;
     confidence := calculateConfidence fraudScore featureImportance;
     featureImportance := featureImportance |}.

End Explain64.

(** * Vocabulary of the properties *)

Section FraudScoreTerms.

(** The weight a rule adds: [w] when it is triggered, nothing otherwise. *)
Definition weight (triggered : bool) (w : Q) : Q :=
  if triggered then w else 0.

End FraudScoreTerms.

Section ComplianceTerms.
Import Compliance.

Definition is_high_value (ev : ComplianceEvent) : bool :=
  String.eqb (eventType ev) "high_value_transaction".

(** How many rows carry the value [v] in the column [col]. *)
Definition tally {A} (col : A -> string) (v : string) (rows : list A)
  : nat :=
  count_occ string_dec (map col rows) v.

End ComplianceTerms.

Section ThresholdTerms.
Import Thresholds.

(** A configuration whose threshold lies within its own bounds. *)
Definition bounded (config : ThresholdConfig) : Prop :=
  minThreshold config <= fraudThreshold config <= maxThreshold config.

Definition all_bounded (e : Engine) : Prop :=
  forall k config,
    JsMap.get k (thresholdCache e) = Some config -> bounded config.

(** A run of recalibrations from a fresh engine; each call has its own
    view of the transactions and its own clock. *)
Definition recalibrated (calls : list (TxQuery * (string -> Z))) : Engine :=
  fold_left
    (fun e call =>
       fst (adjustThresholdsBasedOnPerformance (fst call) (snd call) e))
    calls constructor.

(** Fifty money-transfer transactions, all fraudulent and all scored
    0.1, hence all missed at the seeded threshold 0.65; no other
    transaction in the window. *)
Definition missed_frauds : TxQuery :=
  fun category =>
    if String.eqb category "money_transfer"
    then Some (repeat {| tx_fraud_score := 0.1;
                         tx_is_fraudulent := true |} 50)
    else Some [].

(** Keys are only ever added to the cache. *)
Definition keeps_keys (e e' : Engine) : Prop :=
  forall k, is_Some (JsMap.get k (thresholdCache e)) ->
            is_Some (JsMap.get k (thresholdCache e')).

(** A key as the seeding of the store writes it: lower case, not empty,
    and the category of its own configuration.  [getThreshold] finds the
    entry of such a key under the key itself. *)
Definition canonical (k : string) (config : ThresholdConfig) : Prop :=
  Js.toLowerCase k = k /\ k <> "" /\ merchantCategory config = k.

(** A store whose keys are in order and canonical; the seeded store is
    one, and recalibration keeps it one. *)
Definition store_ok (e : Engine) : Prop :=
  JsMap.wf (thresholdCache e) /\
  forall k config,
    JsMap.get k (thresholdCache e) = Some config -> canonical k config.

(** The record [calculateOptimalThreshold] builds when it builds one. *)
Definition adjustment_of (now : Z) (metrics : Metrics)
           (config : ThresholdConfig) : ThresholdAdjustment :=
  {| adj_merchantCategory := merchantCategory config;
     oldThreshold := fraudThreshold config;
     newThreshold :=
       Qmax (minThreshold config)
            (Qmin (fst (proposed metrics config)) (maxThreshold config));
     reason := generateAdjustmentReason metrics;
     adjustmentFactor := snd (proposed metrics config);
     timestamp := now |}.

End ThresholdTerms.

Section ExplainTerms.
Import Explain.

(** The sum of the importance values of a list of features. *)
Definition total_importance (l : list FeatureImportance) : Q :=
  fold_right (fun f acc => importance f + acc) 0 l.

Definition is_amount_feature (f : FeatureImportance) : bool :=
  String.eqb (feature f) "Transaction Amount".

(** The spec's everyday purchase. *)
Definition purchase : Transaction :=
  {| transaction_id := "TXN001"; amount := Some 45.99;
     hour := Some 14%Z; location := Some "New York, USA";
     merchant := Some "Amazon Store"; merchant_category := Some "retail";
     device_info := Some "iPhone 13";
     ip_address := Some "192.168.1.100" |}.

(** The same purchase at twenty thousand. *)
Definition large_purchase : Transaction :=
  {| transaction_id := "TXN001"; amount := Some 20000;
     hour := Some 14%Z; location := Some "New York, USA";
     merchant := Some "Amazon Store"; merchant_category := Some "retail";
     device_info := Some "iPhone 13";
     ip_address := Some "192.168.1.100" |}.

End ExplainTerms.

Section StoreFrameTerms.
Import Thresholds.

(** Two configurations that differ at most in their threshold. *)
Definition same_but_threshold (c c' : ThresholdConfig) : Prop :=
  c' = set_fraudThreshold (fraudThreshold c') c.

(** Two engines with the same keys in the same order, whose entries
    differ at most in their thresholds. *)
Definition threshold_frame (e e' : Engine) : Prop :=
  JsMap.keys (thresholdCache e') = JsMap.keys (thresholdCache e) /\
  forall k,
    match JsMap.get k (thresholdCache e), JsMap.get k (thresholdCache e') with
    | Some c, Some c' => same_but_threshold c c'
    | None, None => True
    | _, _ => False
    end.

(** The threshold carried by a write, whichever kind it is. *)
Definition written_threshold (w : DbWrite) : Q :=
  match w with
  | DbUpdate _ x => x
  | DbInsert row => fraud_threshold row
  end.

Definition is_update (w : DbWrite) : bool :=
  match w with DbUpdate _ _ => true | DbInsert _ => false end.

(** An entry of the running engine against the seeded one of its key:
    same configuration but for a threshold that has not gone down and is
    still below the maximum. *)
Definition raised_from_seed (e : Engine) : Prop :=
  forall k config,
    JsMap.get k (thresholdCache e) = Some config ->
    exists seeded,
      JsMap.get k (thresholdCache constructor) = Some seeded /\
      same_but_threshold seeded config /\
      fraudThreshold seeded <= fraudThreshold config <= maxThreshold seeded.

End StoreFrameTerms.

Section ExplainMoreTerms.
Import Explain.

(** The names of the eight features, in the order they are pushed. *)
Definition feature_names : list string :=
  ["Transaction Amount"; "Location"; "Merchant Category"; "Device";
   "IP Address"; "Time Pattern"; "Frequency"; "Amount Deviation"].

(** The last character of a string. *)
Fixpoint last_char (s : string) : option ascii :=
  match s with
  | EmptyString => None
  | String c EmptyString => Some c
  | String _ r => last_char r
  end.

End ExplainMoreTerms.

Section ComplianceMoreTerms.
Import Compliance.

(** The event types in the order the rules are checked. *)
Definition event_types : list string :=
  ["fraud_detection_threshold_exceeded"; "high_value_transaction";
   "incomplete_transaction_data"; "high_risk_transaction_detected";
   "unusual_transaction_time"].

Definition is_incomplete_data (ev : ComplianceEvent) : bool :=
  String.eqb (eventType ev) "incomplete_transaction_data".

End ComplianceMoreTerms.

Section TextTerms.

(** A text of ASCII characters only, on which lower-casing and trimming
    are what the definitions above make them. *)
Definition ascii_only (s : string) : bool :=
  forallb (fun c => (nat_of_ascii c <? 128)%nat) (list_ascii_of_string s).

End TextTerms.

Section IntakeTerms.
Import DataIngestor.

(** The counters of the capped loop against those of the loop that cuts
    at the end: the same counts, and the same messages in the same
    order. *)
Definition same_count (cb cj : Counters) : Prop :=
  n_success cb = n_success cj
  /\ n_failed cb = n_failed cj
  /\ map snd (n_errors cb) = firstn 10 (map snd (n_errors cj)).

Definition has_char (c : ascii) (s : string) : bool :=
  existsb (Ascii.eqb c) (list_ascii_of_string s).

(** A writer of lines that puts the fields with a comma in quotes. *)
Definition quoted (f : string) : string :=
  String double_quote (f +:+ String double_quote "").

Definition csv_field (f : string) : string :=
  if has_char "," f then quoted f else f.

Definition csv_line (fields : list string) : string :=
  String.concat "," (map csv_field fields).

(** A field that can be written: ASCII characters only, no quote among
    them and no white space around them. *)
Definition writable (f : string) : Prop :=
  ascii_only f = true /\ Js.trim f = f /\ has_char double_quote f = false.

End IntakeTerms.

Section Binary64Terms.
Local Open Scope Z_scope.

(** What a rounding can return: a value of the sign asked for. *)
Definition signed (s : bool) (x : spec_float) : Prop :=
  match x with
  | S754_zero s' | S754_infinity s' | S754_finite s' _ _ => s' = s
  | S754_nan => False
  end.

(** A value of the sign [s] that is not zero. *)
Definition positive_of (s : bool) (x : spec_float) : Prop :=
  match x with
  | S754_infinity s' | S754_finite s' _ _ => s' = s
  | _ => False
  end.

(** The place of a value in the order of the numbers: the value counted
    in units of [2^-1074], the infinities beyond every finite one. *)
Definition rankSF (x : spec_float) : Z :=
  match x with
  | S754_zero _ | S754_nan => 0
  | S754_infinity s => cond_Zopp s (2 ^ 2100)
  | S754_finite s m e => cond_Zopp s (Zpos m * 2 ^ (e + 1074))
  end.

Definition rank (x : float) : Z := rankSF (Prim2SF x).

(** Zero or more, the infinity included. *)
Definition nonneg (x : float) : Prop := (0 <=? x)%float = true.

Definition is_finite (x : float) : Prop :=
  match Prim2SF x with
  | S754_zero _ | S754_finite _ _ _ => True
  | _ => False
  end.

End Binary64Terms.

Section Binary64MoreTerms.

(** A finite number other than zero, and a positive one. *)
Definition is_number (c : float) : Prop :=
  match Prim2SF c with
  | S754_finite _ _ _ => True
  | _ => False
  end.

Definition is_positive (c : float) : Prop :=
  match Prim2SF c with
  | S754_finite false _ _ => True
  | _ => False
  end.

Definition SFnonneg (x : spec_float) : Prop :=
  match x with
  | S754_zero _ | S754_finite false _ _ | S754_infinity false => True
  | _ => False
  end.

End Binary64MoreTerms.

Section Explain64Terms.
Import Explain64.

(** The sum of the importance values as [reduce] runs it, from the left
    and from 0. *)
Definition running_total (l : list FeatureImportance) : float :=
  fold_left (fun sum f => (sum + importance f)%float) l 0%float.

(** A list no entry of which is followed, at any distance, by one of
    greater importance. *)
Definition descending (l : list FeatureImportance) : Prop :=
  StronglySorted (fun a b => (importance b <=? importance a)%float = true) l.

(** A refund of a million, from nowhere known. *)
Definition refund : Transaction :=
  {| transaction_id := "TXN9"; amount := (-1000000)%float;
     hour := Some 14%Z; location := None; merchant := None;
     merchant_category := None; device_info := None;
     ip_address := None |}.

(** The spec's everyday purchase, at the amount [a]. *)
Definition purchase_of (a : float) : Transaction :=
  {| transaction_id := "TXN001"; amount := a;
     hour := Some 14%Z; location := Some "New York, USA";
     merchant := Some "Amazon Store"; merchant_category := Some "retail";
     device_info := Some "iPhone 13";
     ip_address := Some "192.168.1.100" |}.

End Explain64Terms.

Section Recalibration64Terms.
Import Thresholds64.
Local Open Scope float_scope.

(** What every store that the operations reach keeps: its keys in
    order, an entry under ['default'], and each entry under the category
    it carries. *)
Definition sound_store (e : Engine) : Prop :=
  JsMap.wf (thresholdCache e) /\
  is_Some (JsMap.get "default" (thresholdCache e)) /\
  forall k config,
    JsMap.get k (thresholdCache e) = Some config ->
    merchantCategory config = k.

(** The keys that the loop visits before it comes to [k]. *)
Fixpoint keys_before (k : string) (ks : list string) : list string :=
  match ks with
  | [] => []
  | k' :: rest => if String.eqb k' k then [] else k' :: keys_before k rest
  end.

(** The engine as the turn of the segment [k] finds it, in a
    recalibration of [e]: the turns of the keys before [k] are done. *)
Definition engine_at (db : TxQuery) (clock : string -> Z) (e : Engine)
           (k : string) : Engine :=
  fst (fst (adjust_loop db clock
              (keys_before k (JsMap.keys (thresholdCache e))) (e, []))).

(** The record [calculateOptimalThreshold] builds when it builds one. *)
Definition built_record (now : Z) (metrics : Metrics)
           (config : ThresholdConfig) : ThresholdAdjustment :=
  {| adj_merchantCategory := merchantCategory config;
     oldThreshold := fraudThreshold config;
     newThreshold :=
       F64.max (minThreshold config)
               (F64.min (fst (proposed metrics config))
                        (maxThreshold config));
     reason := generateAdjustmentReason metrics;
     adjustmentFactor := snd (proposed metrics config);
     timestamp := now |}.

(** The adjustment, if any, that the turn of the segment [k] applies to
    the engine it finds. *)
Definition turn_decision (db : TxQuery) (clock : string -> Z) (e : Engine)
           (k : string) : option ThresholdAdjustment :=
  config ← JsMap.get k (thresholdCache e);
  metrics ← calculateCategoryMetrics e db k;
  if F64.of_nat (sampleCount metrics) <? sampleSizeMinimum config
  then None
  else
    adjustment ← calculateOptimalThreshold (clock k) metrics config;
    if 0.02 <? abs (adjustmentFactor adjustment)
    then Some adjustment else None.

(** A turn that does not throw. *)
Definition turn (db : TxQuery) (clock : string -> Z)
           (st : Engine * list ThresholdAdjustment) (k : string)
  : Engine * list ThresholdAdjustment :=
  match turn_decision db clock (fst st) k with
  | Some adjustment =>
      (updateThreshold k (newThreshold adjustment) (fst st),
       snd st ++ [adjustment])
  | None => st
  end.

(** Fifty money-transfer transactions, all fraudulent and all scored
    0.1, hence all missed at the seeded threshold 0.65; no other
    transaction in the window. *)
Definition overlooked_frauds : TxQuery :=
  fun category =>
    if String.eqb category "money_transfer"
    then Some (repeat {| tx_fraud_score := 0.1;
                         tx_is_fraudulent := true |} 50)
    else Some [].

(** A hundred grocery transactions, none fraudulent, twenty of them
    scored 0.9 and so flagged at the seeded threshold 0.45: a
    false-positive rate of 0.2. *)
Definition false_alarms : TxQuery :=
  fun category =>
    if String.eqb category "grocery"
    then Some (repeat {| tx_fraud_score := 0.9;
                         tx_is_fraudulent := false |} 20
               ++ repeat {| tx_fraud_score := 0.1;
                            tx_is_fraudulent := false |} 80)
    else Some [].

End Recalibration64Terms.

(** * Properties *)

(** ** Comparisons and strings *)

Lemma gt_true (x y : Q) : Js.gt x y = true <-> y < x.
Proof.
  unfold Js.gt. destruct (Qlt_le_dec y x) as [H | H].
  - tauto.
  - split; [discriminate | intros H'; lra].
Qed.

Lemma gt_false (x y : Q) : Js.gt x y = false <-> x <= y.
Proof.
  unfold Js.gt. destruct (Qlt_le_dec y x) as [H | H].
  - split; [discriminate | intros H'; lra].
  - tauto.
Qed.

Ltac by_cases_on_order :=
  match goal with
  | |- context [Qlt_le_dec ?x ?y] =>
      destruct (Qlt_le_dec x y); split; (discriminate || tauto || lra)
  end.

Lemma lt_true (x y : Q) : Js.lt x y = true <-> x < y.
Proof. unfold Js.lt. by_cases_on_order. Qed.

Lemma lt_false (x y : Q) : Js.lt x y = false <-> y <= x.
Proof. unfold Js.lt. by_cases_on_order. Qed.

Lemma le_true (x y : Q) : Js.le x y = true <-> x <= y.
Proof. unfold Js.le. by_cases_on_order. Qed.

Lemma le_false (x y : Q) : Js.le x y = false <-> y < x.
Proof. unfold Js.le. by_cases_on_order. Qed.

Lemma num_gt_true (x : Js.num) (y : Q) :
  Js.num_gt x y = true <-> exists a, x = Some a /\ y < a.
Proof.
  destruct x as [a |]; simpl.
  - rewrite gt_true. split.
    + intros H. exists a. split; [reflexivity | exact H].
    + intros (b & Hb & H). injection Hb as ->. exact H.
  - split; [discriminate | intros (b & Hb & _); discriminate].
Qed.

Lemma startsWith_spec (s p : string) :
  Js.startsWith s p = true <-> exists post, s = p +:+ post.
Proof.
  unfold Js.startsWith. revert s. induction p as [| c p IH]; intros s.
  - split; [intros _; exists s | intros _; destruct s]; reflexivity.
  - destruct s as [| d s]; simpl.
    + split; [discriminate | intros (post & H); discriminate].
    + destruct (ascii_dec c d) as [-> | Hne].
      * rewrite IH. split; intros (post & H); exists post.
        -- rewrite H. reflexivity.
        -- injection H as H. exact H.
      * split; [discriminate |].
        intros (post & H). injection H as H1 H2. congruence.
Qed.

(** [includes] finds exactly the occurrences of [p] inside [s]. *)
Lemma includes_spec (s p : string) :
  Js.includes s p = true <-> exists pre post, s = pre +:+ p +:+ post.
Proof.
  induction s as [| c s IH]; cbn [Js.includes];
    rewrite orb_true_iff, startsWith_spec.
  - split.
    + intros [(post & H) | H]; [| discriminate].
      exists "", post. exact H.
    + intros (pre & post & H). left.
      destruct pre; [exists post; exact H | discriminate].
  - rewrite IH. split.
    + intros [(post & H) | (pre & post & H)].
      * exists "", post. exact H.
      * exists (String c pre), post. simpl. rewrite H. reflexivity.
    + intros (pre & post & H). destruct pre as [| d pre].
      * left. exists post. exact H.
      * right. simpl in H. injection H as _ H. exists pre, post. exact H.
Qed.

Lemma bool_of_iff (b c : bool) (P : Prop) :
  (b = true <-> P) -> (c = true <-> P) -> b = c.
Proof. destruct b, c; intuition congruence. Qed.

(** ** Fraud Score Estimator *)

Section FraudScoreProps.
Import FraudScore.

Lemma category_rule (tx : Transaction) :
  Js.some (category_includes tx) highRiskCategories = true <->
  exists c kw pre post,
    merchant_category tx = Some c /\ In kw highRiskCategories /\
    Js.toLowerCase c = pre +:+ kw +:+ post.
Proof.
  unfold Js.some. rewrite existsb_exists. unfold category_includes. split.
  - intros (kw & Hin & H). destruct (merchant_category tx) as [c |];
      [| discriminate].
    apply includes_spec in H as (pre & post & H).
    exists c, kw, pre, post. auto.
  - intros (c & kw & pre & post & -> & Hin & H).
    exists kw. split; [exact Hin |]. apply includes_spec. eauto.
Qed.

Lemma hour_rule (now : Z) :
  (0 <=? now)%Z && (now <=? 4)%Z = true <-> (0 <= now <= 4)%Z.
Proof. rewrite andb_true_iff, Z.leb_le, Z.leb_le. tauto. Qed.

(** C1: the score is the capped sum of the weights of the triggered
    rules: amount above 5000 adds 0.30, an evaluation hour in 0..4 adds
    0.25, a merchant category that contains, whatever its case, one of
    gambling, luxury or crypto adds 0.25, amount above 10000 adds 0.20.
    The score lies in [0,1] and the transaction is flagged exactly when
    the score exceeds 0.5. *)
Theorem analyzeFraud_score (now : Z) (tx : Transaction)
        (large night risky huge : bool) :
  (large = true <-> exists a, amount tx = Some a /\ 5000 < a) ->
  (night = true <-> (0 <= now <= 4)%Z) ->
  (risky = true <->
     exists c kw pre post,
       merchant_category tx = Some c /\
       In kw ["gambling"; "luxury"; "crypto"] /\
       Js.toLowerCase c = pre +:+ kw +:+ post) ->
  (huge = true <-> exists a, amount tx = Some a /\ 10000 < a) ->
  let r := analyzeFraud now tx in
  fraud_score r ==
    Qmin (weight large 0.30 + weight night 0.25
          + weight risky 0.25 + weight huge 0.20) 1
  /\ 0 <= fraud_score r <= 1
  /\ (is_fraudulent r = true <-> 0.5 < fraud_score r).
Proof.
  intros Hl Hn Hr Hh r. subst r. unfold analyzeFraud.
  rewrite <- (bool_of_iff _ _ _ Hl (num_gt_true _ _)).
  rewrite <- (bool_of_iff _ _ _ Hn (hour_rule _)).
  rewrite <- (bool_of_iff _ _ _ Hr (category_rule _)).
  rewrite <- (bool_of_iff _ _ _ Hh (num_gt_true _ _)).
  clear. unfold Js.min.
  destruct large, night, risky, huge; cbn -[Qmin Qle Qlt Qeq];
    (split; [| split; [| rewrite gt_true]]);
    repeat match goal with
           | |- context [Qmin ?a ?b] =>
               let H := fresh in
               destruct (Q.min_spec a b) as [[? H] | [? H]];
               rewrite !H; clear H
           end; lra.
Qed.

Lemma analyzeFraud_score_witness :
  let tx := {| transaction_id := "TXN002"; amount := Some 8750;
               hour := Some 14%Z; location := Some "London, UK";
               merchant := Some "Luxury Casino Online";
               merchant_category := Some "Gambling";
               device_info := Some "Unknown Device";
               ip_address := Some "45.123.67.89" |} in
  let r := analyzeFraud 2 tx in
  fraud_score r == 0.8 /\ 0 <= fraud_score r <= 1 /\
  (is_fraudulent r = true <-> 0.5 < fraud_score r).
Proof.
  intros tx r.
  destruct (analyzeFraud_score 2 tx true true true false) as (H1 & H2 & H3).
  - split; [intros _ | reflexivity]. exists 8750. split; [reflexivity | lra].
  - split; [lia | reflexivity].
  - split; [intros _ | reflexivity].
    exists "Gambling", "gambling", "", "". simpl. auto.
  - split; [discriminate |]. intros (a & Ha & H). injection Ha as <-. lra.
  - split; [| split; [exact H2 | exact H3]].
    fold r in H1. rewrite H1. reflexivity.
Defined.

End FraudScoreProps.

(** ** Compliance Classifier *)

Section ComplianceProps.
Import Compliance.

(** The events of type ["high_value_transaction"] among those returned:
    one, from the amount rule, or none. *)
Lemma high_value_events (tx : Transaction) (fraudScore : Q)
      (riskLevel : string) :
  let amount := Js.or_zero (amount tx) in
  List.filter is_high_value
              (identifyCompllianceViolations tx fraudScore riskLevel) =
  if Js.gt amount 10000 then
    [ {| eventType := "high_value_transaction";
         severity := if Js.gt amount 50000 then sev_critical else sev_high;
         complianceStandard := "AML-KYC";
         violationDetails :=
           AmountDetails amount 10000
             "High-value transaction requires enhanced monitoring";
         resolutionStatus := "pending" |} ]
  else [].
Proof.
  unfold identifyCompllianceViolations.
  destruct (Js.gt fraudScore 0.7), (Js.gt (Js.or_zero (amount tx)) 10000),
    (negb (Js.truthy (location tx)) || negb (Js.truthy (device_info tx))),
    (String.eqb riskLevel "critical" || String.eqb riskLevel "high"),
    (hour tx) as [h |]; try destruct ((h <? 6)%Z || (23 <? h)%Z);
    reflexivity.
Qed.

(** C7: a ["high_value_transaction"] event of severity critical is
    emitted exactly when the amount exceeds 50000, one of severity high
    exactly when the amount lies in (10000, 50000], and none at all when
    the amount is at most 10000. *)
Theorem high_value_transaction_severity (tx : Transaction) (fraudScore : Q)
        (riskLevel : string) :
  let amount := Js.or_zero (amount tx) in
  let events := identifyCompllianceViolations tx fraudScore riskLevel in
  let emitted sev :=
    exists ev, In ev events /\ eventType ev = "high_value_transaction"
               /\ severity ev = sev in
  (emitted sev_critical <-> 50000 < amount) /\
  (emitted sev_high <-> 10000 < amount <= 50000) /\
  (amount <= 10000 <->
   forall ev, In ev events -> eventType ev <> "high_value_transaction").
Proof.
  intros a events emitted.
  assert (Hin : forall ev,
             In ev events /\ eventType ev = "high_value_transaction" <->
             In ev (List.filter is_high_value events)).
  { intros ev. rewrite filter_In. unfold is_high_value.
    rewrite String.eqb_eq. tauto. }
  subst events. pose proof (high_value_events tx fraudScore riskLevel) as F.
  cbv zeta in F. fold a in F. rewrite F in Hin. clear F.
  assert (Hem : forall sev,
             emitted sev <->
             Js.gt a 10000 = true /\
             (if Js.gt a 50000 then sev_critical else sev_high) = sev).
  { intros sev. subst emitted. cbv beta. split.
    - intros (ev & H1 & H2 & H3).
      pose proof (proj1 (Hin ev) (conj H1 H2)) as H.
      destruct (Js.gt a 10000); [| destruct H].
      destruct H as [<- | []]. split; [reflexivity | exact H3].
    - intros [H1 H2]. rewrite H1 in Hin.
      pose proof (fun ev => proj2 (Hin ev)) as Hin'. simpl in Hin'.
      destruct (Hin' _ (or_introl eq_refl)) as [Ha Hb].
      eexists. split; [exact Ha | split; [exact Hb | exact H2]]. }
  rewrite !Hem. clear Hem emitted.
  split; [| split].
  - rewrite gt_true.
    destruct (Js.gt a 50000) eqn:H5;
      [apply gt_true in H5 | apply gt_false in H5];
      intuition (try discriminate; try reflexivity; try lra;
                 try (exfalso; lra)).
  - rewrite gt_true.
    destruct (Js.gt a 50000) eqn:H5;
      [apply gt_true in H5 | apply gt_false in H5];
      intuition (try discriminate; try reflexivity; try lra;
                 try (exfalso; lra)).
  - split.
    + intros Hle ev Hev Hty. apply gt_false in Hle. rewrite Hle in Hin.
      exact (proj1 (Hin ev) (conj Hev Hty)).
    + intros H. destruct (Js.gt a 10000) eqn:H1.
      * exfalso. eapply H; [apply Hin; left; reflexivity | reflexivity].
      * apply gt_false in H1. exact H1.
Qed.

End ComplianceProps.

(** ** Compliance Aggregator *)

Section AggregateProps.
Import Compliance.

Lemma filter_length_tally {A} (col : A -> string) (v : string)
      (rows : list A) :
  length (List.filter (fun e => String.eqb (col e) v) rows)
  = tally col v rows.
Proof.
  unfold tally. induction rows as [| r rows IH]; simpl; [reflexivity |].
  destruct (String.eqb_spec (col r) v) as [Heq | Hne];
    destruct (string_dec (col r) v); try contradiction; simpl;
    rewrite IH; reflexivity.
Qed.

(** The coverage map built by the [forEach] over the six standards. *)
Lemma coverage_get (count : string -> nat) (standard : string) :
  JsMap.get standard
    (fold_left (fun coverage s => JsMap.set s (count s) coverage)
               complianceStandards JsMap.empty)
  = if decide (standard ∈ complianceStandards)
    then Some (count standard) else None.
Proof.
  unfold JsMap.get, complianceStandards.
  cbn [fold_left JsMap.set JsMap.entries JsMap.empty].
  destruct (decide _) as [Hin | Hout].
  - repeat (apply elem_of_cons in Hin as [-> | Hin];
            [vm_compute; reflexivity |]).
    inversion Hin.
  - repeat (rewrite lookup_insert_ne;
            [| intros <-; apply Hout; set_solver]).
    apply lookup_empty.
Qed.

Lemma coverage_keys (count : string -> nat) :
  JsMap.keys
    (fold_left (fun coverage s => JsMap.set s (count s) coverage)
               complianceStandards JsMap.empty)
  = complianceStandards.
Proof. vm_compute. reflexivity. Qed.

(** C9: over any list of events, the resolution rate is the number of
    resolved events over the number of events, and 0 for no events; the
    critical count is the number of events of severity critical; the
    coverage map has exactly the six standards as keys, each with the
    number of events under it, which is 0 for a standard with none. *)
Theorem compliance_metrics (events : list EventRow) :
  let m := getComplianceMetrics (Some events) in
  let total := length events in
  let resolved := tally resolution_status "resolved" events in
  totalEvents m = total /\
  resolutionRate m ==
    match total with
    | O => 0
    | S _ => Qnat resolved / Qnat total
    end /\
  criticalEvents m = tally row_severity "critical" events /\
  JsMap.keys (standardCoverage m)
    = ["PCI-DSS"; "GDPR"; "AML-KYC"; "SOX"; "HIPAA"; "CCPA"] /\
  forall standard,
    JsMap.get standard (standardCoverage m) =
    if decide (standard ∈ ["PCI-DSS"; "GDPR"; "AML-KYC"; "SOX"; "HIPAA";
                           "CCPA"])
    then Some (tally compliance_standard standard events)
    else None.
Proof.
  intros m total resolved. subst m total resolved.
  cbn [getComplianceMetrics totalEvents resolutionRate criticalEvents
       standardCoverage].
  rewrite !filter_length_tally.
  split; [reflexivity |]. split.
  { destruct events; simpl; reflexivity. }
  split; [reflexivity |]. split.
  { apply (coverage_keys
             (fun s => length (List.filter
                                 (fun e => String.eqb (compliance_standard e) s)
                                 events))). }
  intros standard.
  rewrite (coverage_get
             (fun s => length (List.filter
                                 (fun e => String.eqb (compliance_standard e) s)
                                 events))).
  destruct (decide _); [rewrite filter_length_tally |]; reflexivity.
Qed.

(** The spec's scenario: ten events, four critical, six resolved. *)
Example compliance_metrics_scenario :
  let row sev status :=
    {| event_type := "high_value_transaction"; row_severity := sev;
       compliance_standard := "AML-KYC"; resolution_status := status;
       created_at := Some 0%Z; resolved_at := None |} in
  let events :=
    [ row "critical" "resolved"; row "critical" "resolved";
      row "critical" "pending"; row "critical" "pending";
      row "high" "resolved"; row "high" "resolved"; row "low" "resolved";
      row "low" "resolved"; row "medium" "pending";
      row "medium" "pending" ] in
  let m := getComplianceMetrics (Some events) in
  resolutionRate m == 0.6 /\ criticalEvents m = 4%nat /\
  JsMap.get "AML-KYC" (standardCoverage m) = Some 10%nat /\
  JsMap.get "SOX" (standardCoverage m) = Some 0%nat.
Proof. vm_compute. repeat split; reflexivity. Qed.

End AggregateProps.

(** ** Threshold Store: the cache under the store operations *)

Section StoreProps.
Import Thresholds.

Lemma get_set {V} (k k' : string) (v : V) (m : JsMap.t V) :
  JsMap.get k (JsMap.set k' v m)
  = if decide (k' = k) then Some v else JsMap.get k m.
Proof. unfold JsMap.get, JsMap.set. simpl. apply lookup_insert. Qed.

Lemma get_updateThreshold (k k' : string) (x : Q) (e : Engine) :
  JsMap.get k (thresholdCache (updateThreshold k' x e))
  = match JsMap.get k' (thresholdCache e) with
    | Some config =>
        if decide (k' = k) then Some (set_fraudThreshold x config)
        else JsMap.get k (thresholdCache e)
    | None => JsMap.get k (thresholdCache e)
    end.
Proof.
  unfold updateThreshold.
  destruct (JsMap.get k' (thresholdCache e)); [| reflexivity].
  simpl. apply get_set.
Qed.

(** What one turn of the loop does: nothing, or one applied adjustment
    of the visited entry. *)
Lemma adjust_segment_cases (db : TxQuery) (clock : string -> Z)
      (k : string) (e e' : Engine) (adjs adjs' : list ThresholdAdjustment) :
  adjust_segment db clock k (e, adjs) = Some (e', adjs') ->
  (e' = e /\ adjs' = adjs) \/
  exists config metrics adjustment,
    JsMap.get k (thresholdCache e) = Some config /\
    calculateCategoryMetrics e db k = Some metrics /\
    Js.lt (Qnat (sampleCount metrics)) (sampleSizeMinimum config) = false /\
    calculateOptimalThreshold (clock k) metrics config = Some adjustment /\
    Js.gt (Js.abs (adjustmentFactor adjustment)) 0.02 = true /\
    e' = updateThreshold k (newThreshold adjustment) e /\
    adjs' = adjs ++ [adjustment].
Proof.
  unfold adjust_segment.
  destruct (JsMap.get k (thresholdCache e)) as [config |] eqn:Hc;
    [| intros [= <- <-]; left; split; reflexivity].
  destruct (calculateCategoryMetrics e db k) as [metrics |] eqn:Hm;
    [| discriminate].
  cbn [mbind option_bind].
  destruct (Js.lt _ _) eqn:Hn;
    [intros [= <- <-]; left; split; reflexivity |].
  destruct (calculateOptimalThreshold _ _ _) as [adjustment |] eqn:Ha;
    [| intros [= <- <-]; left; split; reflexivity].
  destruct (Js.gt _ _) eqn:Hg;
    [| intros [= <- <-]; left; split; reflexivity].
  intros [= <- <-]. right. exists config, metrics, adjustment.
  repeat split; assumption || reflexivity.
Qed.

(** The threshold an adjustment carries is clamped between the bounds
    of the configuration it was computed for. *)
Lemma calculateOptimalThreshold_clamped (now : Z) (metrics : Metrics)
      (config : ThresholdConfig) (adjustment : ThresholdAdjustment) :
  calculateOptimalThreshold now metrics config = Some adjustment ->
  minThreshold config <= maxThreshold config ->
  minThreshold config <= newThreshold adjustment <= maxThreshold config.
Proof.
  unfold calculateOptimalThreshold.
  destruct (proposed metrics config) as [raw factor].
  destruct (Js.gt _ _); [| discriminate].
  intros [= <-] Hb. simpl. unfold Js.max, Js.min. split.
  - apply Q.le_max_l.
  - apply Q.max_lub; [exact Hb | apply Q.le_min_r].
Qed.

Lemma adjust_segment_bounded (db : TxQuery) (clock : string -> Z)
      (k : string) (e e' : Engine) (adjs adjs' : list ThresholdAdjustment) :
  adjust_segment db clock k (e, adjs) = Some (e', adjs') ->
  all_bounded e -> all_bounded e'.
Proof.
  intros H Hb.
  apply adjust_segment_cases in H
      as [[-> _] | (config & metrics & adj & Hc & _ & _ & Ha & _ & -> & _)];
    [exact Hb |].
  intros k' config'. rewrite get_updateThreshold, Hc.
  destruct (decide (k = k')) as [<- | Hne]; [| apply Hb].
  intros [= <-]. unfold bounded. simpl.
  apply (calculateOptimalThreshold_clamped _ _ _ _ Ha).
  specialize (Hb _ _ Hc). unfold bounded in Hb. lra.
Qed.

Lemma adjust_loop_bounded (db : TxQuery) (clock : string -> Z)
      (ks : list string) (e : Engine) (adjs : list ThresholdAdjustment) :
  all_bounded e -> all_bounded (fst (fst (adjust_loop db clock ks (e, adjs)))).
Proof.
  revert e adjs.
  induction ks as [| k ks IH]; intros e adjs Hb; cbn [adjust_loop];
    [exact Hb |].
  destruct (adjust_segment db clock k (e, adjs)) as [[e' adjs'] |] eqn:H;
    [| exact Hb].
  apply IH. exact (adjust_segment_bounded _ _ _ _ _ _ _ H Hb).
Qed.

Lemma adjustThresholds_engine (db : TxQuery) (clock : string -> Z)
      (e : Engine) :
  fst (adjustThresholdsBasedOnPerformance db clock e)
  = fst (fst (adjust_loop db clock (JsMap.keys (thresholdCache e)) (e, []))).
Proof.
  unfold adjustThresholdsBasedOnPerformance.
  destruct (adjust_loop _ _ _ _) as [[e' adjs] fin]. reflexivity.
Qed.

(** The insertion order stays a duplicate-free list of the keys. *)
Lemma wf_empty {V} : JsMap.wf (@JsMap.empty V).
Proof.
  split; [constructor |]. intros k. simpl. rewrite lookup_empty. split.
  - intros H. inversion H.
  - intros [? [=]].
Qed.

Lemma wf_set {V} (k : string) (v : V) (m : JsMap.t V) :
  JsMap.wf m -> JsMap.wf (JsMap.set k v m).
Proof.
  intros [Hnd Hkeys]. unfold JsMap.wf, JsMap.set. simpl.
  destruct (JsMap.entries m !! k) as [v0 |] eqn:Hk.
  - split; [exact Hnd |]. intros k'. rewrite lookup_insert.
    destruct (decide (k = k')) as [<- | _]; [| apply Hkeys].
    split; [intros _; eexists; reflexivity | intros _].
    apply Hkeys. exists v0. exact Hk.
  - assert (Hout : k ∉ JsMap.order m).
    { intros Hin. apply Hkeys in Hin as [? Hin]. congruence. }
    split.
    + apply NoDup_app. split; [exact Hnd |]. split.
      * intros x Hx Hx'. apply list_elem_of_singleton in Hx' as ->.
        contradiction.
      * apply NoDup_singleton.
    + intros k'. rewrite elem_of_app, list_elem_of_singleton, lookup_insert.
      destruct (decide (k = k')) as [<- | Hne].
      * split; [intros _; eexists; reflexivity | intros _; right; reflexivity].
      * rewrite Hkeys. split; [intros [H | ->]; [exact H | contradiction] |].
        intros H. left. exact H.
Qed.

Lemma wf_updateThreshold (k : string) (x : Q) (e : Engine) :
  JsMap.wf (thresholdCache e) ->
  JsMap.wf (thresholdCache (updateThreshold k x e)).
Proof.
  intros Hwf. unfold updateThreshold.
  destruct (JsMap.get k (thresholdCache e)); [| exact Hwf].
  simpl. apply wf_set, Hwf.
Qed.

Lemma wf_loop (db : TxQuery) (clock : string -> Z) (ks : list string)
      (e : Engine) (adjs : list ThresholdAdjustment) :
  JsMap.wf (thresholdCache e) ->
  JsMap.wf (thresholdCache (fst (fst (adjust_loop db clock ks (e, adjs))))).
Proof.
  revert e adjs.
  induction ks as [| k ks IH]; intros e adjs Hwf; cbn [adjust_loop];
    [exact Hwf |].
  destruct (adjust_segment db clock k (e, adjs)) as [[e' adjs'] |] eqn:H;
    [| exact Hwf].
  apply IH.
  apply adjust_segment_cases in H as [[-> _] | (? & ? & ? & H)];
    [exact Hwf |].
  destruct H as (_ & _ & _ & _ & _ & -> & _).
  apply wf_updateThreshold, Hwf.
Qed.

Lemma wf_fold_set {A} (key : A -> string) (value : A -> ThresholdConfig)
      (l : list A) (e : Engine) :
  JsMap.wf (thresholdCache e) ->
  JsMap.wf (thresholdCache
              (fold_left
                 (fun e a =>
                    with_cache (JsMap.set (key a) (value a) (thresholdCache e))
                               e)
                 l e)).
Proof.
  revert e. induction l as [| a l IH]; intros e Hwf; simpl; [exact Hwf |].
  apply IH. simpl. apply wf_set, Hwf.
Qed.

Lemma wf_op (op : StoreOp) (e : Engine) :
  JsMap.wf (thresholdCache e) -> JsMap.wf (thresholdCache (apply_op e op)).
Proof.
  intros Hwf. destruct op as [[rows |] | config | db clock]; simpl.
  - apply (wf_fold_set merchant_category config_of_row), Hwf.
  - exact Hwf.
  - apply wf_set, Hwf.
  - rewrite adjustThresholds_engine. apply wf_loop, Hwf.
Qed.

(** Every store that the operations reach keeps its keys in order. *)
Lemma run_wf (ops : list StoreOp) : JsMap.wf (thresholdCache (run ops)).
Proof.
  unfold run.
  assert (H0 : JsMap.wf (thresholdCache constructor)).
  { apply (wf_fold_set merchantCategory (fun c => c)), wf_empty. }
  revert H0. generalize constructor as e.
  induction ops as [| op ops IH]; intros e H0; simpl; [exact H0 |].
  apply IH, wf_op, H0.
Qed.

Lemma constructor_bounded : all_bounded constructor.
Proof.
  intros k config. unfold JsMap.get. intros H.
  assert (Hall : map_Forall (fun _ c => bounded c)
                   (JsMap.entries (thresholdCache constructor))).
  { unfold constructor, initializeDefaultThresholds, defaultThresholds.
    cbn [fold_left with_cache JsMap.set JsMap.entries JsMap.empty
         thresholdCache merchantCategory mkConfig].
    repeat (apply map_Forall_insert_2;
            [unfold bounded; simpl; lra |]).
    apply map_Forall_empty. }
  exact (Hall _ _ H).
Qed.

(** C6: from the seeded configurations, after any sequence of
    recalibrations, the threshold of every segment lies between the
    segment's minimum and maximum. *)
Theorem threshold_within_bounds (calls : list (TxQuery * (string -> Z)))
        (category : string) (config : ThresholdConfig) :
  JsMap.get category (thresholdCache (recalibrated calls)) = Some config ->
  minThreshold config <= fraudThreshold config <= maxThreshold config.
Proof.
  revert category config. change (all_bounded (recalibrated calls)).
  unfold recalibrated. generalize constructor_bounded.
  generalize constructor as e.
  induction calls as [| [db clock] calls IH]; intros e Hb; simpl;
    [exact Hb |].
  apply IH. rewrite adjustThresholds_engine.
  apply adjust_loop_bounded. exact Hb.
Qed.

Lemma threshold_within_bounds_witness :
  exists config,
    JsMap.get "money_transfer"
      (thresholdCache (recalibrated [(missed_frauds, fun _ => 0%Z)]))
    = Some config /\
    minThreshold config <= fraudThreshold config <= maxThreshold config.
Proof.
  eexists. split; [vm_compute; reflexivity |].
  apply (threshold_within_bounds [(missed_frauds, fun _ => 0%Z)]
                                 "money_transfer").
  vm_compute. reflexivity.
Defined.

Lemma keeps_keys_set (k : string) (config : ThresholdConfig) (e : Engine) :
  keeps_keys e (with_cache (JsMap.set k config (thresholdCache e)) e).
Proof.
  intros k' H. simpl. rewrite get_set.
  destruct (decide (k = k')); [eexists; reflexivity | exact H].
Qed.

Lemma keeps_keys_trans (e1 e2 e3 : Engine) :
  keeps_keys e1 e2 -> keeps_keys e2 e3 -> keeps_keys e1 e3.
Proof. intros H12 H23 k H. apply H23, H12, H. Qed.

Lemma keeps_keys_load (data : option (list ConfigRow)) (e : Engine) :
  keeps_keys e (loadThresholdsFromDatabase data e).
Proof.
  destruct data as [rows |]; simpl; [| intros k H; exact H].
  revert e. induction rows as [| row rows IH]; intros e; simpl;
    [intros k H; exact H |].
  eapply keeps_keys_trans; [apply keeps_keys_set | apply IH].
Qed.

Lemma keeps_keys_create (config : ThresholdConfig) (e : Engine) :
  keeps_keys e (createThresholdConfig config e).
Proof.
  intros k H. unfold createThresholdConfig. simpl. rewrite get_set.
  destruct (decide (merchantCategory config = k));
    [eexists; reflexivity | exact H].
Qed.

Lemma keeps_keys_update (k : string) (x : Q) (e : Engine) :
  keeps_keys e (updateThreshold k x e).
Proof.
  intros k' H. rewrite get_updateThreshold.
  destruct (JsMap.get k (thresholdCache e)); [| exact H].
  destruct (decide (k = k')); [eexists; reflexivity | exact H].
Qed.

Lemma keeps_keys_loop (db : TxQuery) (clock : string -> Z)
      (ks : list string) (e : Engine) (adjs : list ThresholdAdjustment) :
  keeps_keys e (fst (fst (adjust_loop db clock ks (e, adjs)))).
Proof.
  revert e adjs.
  induction ks as [| k ks IH]; intros e adjs; cbn [adjust_loop];
    [intros k H; exact H |].
  destruct (adjust_segment db clock k (e, adjs)) as [[e' adjs'] |] eqn:H;
    [| intros k' H'; exact H'].
  eapply keeps_keys_trans; [| apply IH].
  apply adjust_segment_cases in H as [[-> _] | (? & ? & ? & H)];
    [intros k' H'; exact H' |].
  destruct H as (_ & _ & _ & _ & _ & -> & _). apply keeps_keys_update.
Qed.

Lemma keeps_keys_op (op : StoreOp) (e : Engine) :
  keeps_keys e (apply_op e op).
Proof.
  destruct op as [data | config | db clock]; simpl.
  - apply keeps_keys_load.
  - apply keeps_keys_create.
  - rewrite adjustThresholds_engine. apply keeps_keys_loop.
Qed.

Lemma lookupConfig_default (e : Engine) (category : option string) :
  is_Some (JsMap.get "default" (thresholdCache e)) ->
  is_Some (lookupConfig e category).
Proof.
  intros H. unfold lookupConfig.
  destruct category as [c |]; [| exact H].
  destruct (Js.truthy (Some c)); [| exact H].
  destruct (JsMap.get (Js.toLowerCase c) (thresholdCache e));
    [eexists; reflexivity | exact H].
Qed.

(** C10: whatever the category argument, and after any sequence of
    loads, created configurations and recalibrations, the cache holds
    the key ["default"], so [getFullConfig] returns a configuration and
    [getThreshold] a threshold. *)
Theorem default_always_present (ops : list StoreOp)
        (category : option string) :
  let e := run ops in
  is_Some (JsMap.get "default" (thresholdCache e)) /\
  (exists config, getFullConfig e category = Some config) /\
  (exists t, getThreshold e category = Some t).
Proof.
  intros e.
  assert (Hd : is_Some (JsMap.get "default" (thresholdCache e))).
  { subst e. unfold run.
    assert (H0 : is_Some (JsMap.get "default" (thresholdCache constructor)))
      by (eexists; vm_compute; reflexivity).
    revert H0. generalize constructor as e.
    induction ops as [| op ops IH]; intros e H0; simpl; [exact H0 |].
    apply IH. apply keeps_keys_op. exact H0. }
  split; [exact Hd |].
  destruct (lookupConfig_default e category Hd) as [config Hc].
  split.
  - exists config. exact Hc.
  - exists (fraudThreshold config). unfold getThreshold. rewrite Hc.
    reflexivity.
Qed.

End StoreProps.

(** ** [Array.prototype.sort] with a descending key comparator *)

Section SortProps.
Context {A : Type} (key : A -> Q).

Let cmp (a b : A) : Q := key b - key a.

Lemma sort_insert_perm (x : A) (l : list A) :
  Permutation (Js.sort_insert cmp x l) (x :: l).
Proof.
  induction l as [| y l IH]; simpl; [reflexivity |].
  destruct (Js.le (cmp x y) 0); [reflexivity |].
  rewrite IH. apply perm_swap.
Qed.

Lemma sort_perm (l : list A) : Permutation (Js.sort cmp l) l.
Proof.
  induction l as [| x l IH]; simpl; [reflexivity |].
  rewrite sort_insert_perm. apply perm_skip, IH.
Qed.

End SortProps.

Lemma filter_perm {A} (p : A -> bool) (l l' : list A) :
  Permutation l l' -> Permutation (List.filter p l) (List.filter p l').
Proof.
  induction 1 as [| x l l' _ IH | x y l | l1 l2 l3 _ IH1 _ IH2]; simpl.
  - reflexivity.
  - destruct (p x); [apply perm_skip |]; exact IH.
  - destruct (p x), (p y); try reflexivity. apply perm_swap.
  - etransitivity; eassumption.
Qed.

(** ** Rounding to three decimals *)

(** Division by a literal, put in the form linear arithmetic accepts. *)
Ltac by_constant :=
  unfold Qdiv in *;
  repeat match goal with
         | |- context [Qinv (Qmake ?n ?d)] =>
             let c := eval vm_compute in (Qinv (Qmake n d)) in
             change (Qinv (Qmake n d)) with c in *
         | H : context [Qinv (Qmake ?n ?d)] |- _ =>
             let c := eval vm_compute in (Qinv (Qmake n d)) in
             change (Qinv (Qmake n d)) with c in *
         end.

Lemma round_half_up (x : Q) :
  0 <= x ->
  let n := Qfloor (x * 1000 + 0.5) in
  (0 <= n)%Z /\ - (1 # 2000) <= inject_Z n / 1000 - x <= 1 # 2000.
Proof.
  intros Hx n. subst n.
  pose proof (Qfloor_le (x * 1000 + 0.5)) as Hlo.
  pose proof (Qlt_floor (x * 1000 + 0.5)) as Hhi.
  rewrite inject_Z_plus in Hhi.
  split.
  - apply (Qfloor_resp_le 0). lra.
  - set (n := inject_Z (Qfloor (x * 1000 + 0.5))) in *.
    change (inject_Z 1) with 1 in Hhi. by_constant. split; lra.
Qed.

Lemma toFixed3_upper (x : Q) : x <= 0.95 -> Js.toFixed3 x <= 0.95.
Proof.
  intros Hx. unfold Js.toFixed3. destruct (Qlt_le_dec x 0) as [Hneg | Hpos].
  - destruct (round_half_up (- x)) as [Hn _]; [lra |]. cbv zeta in Hn.
    rewrite Zle_Qle in Hn. change (inject_Z 0) with 0 in Hn.
    set (n := inject_Z (Qfloor (- x * 1000 + 0.5))) in *.
    by_constant. lra.
  - assert (H : (Qfloor (x * 1000 + 0.5) <= 950)%Z).
    { apply (Qfloor_resp_le _ 950.5). lra. }
    rewrite Zle_Qle in H. change (inject_Z 950) with 950 in H.
    set (n := inject_Z (Qfloor (x * 1000 + 0.5))) in *.
    by_constant. lra.
Qed.

(** ** Explanation Generator *)

Section ExplainProps.
Import Explain.

Lemma normalizeScore_unit (v : Q) : normalizeScore v 0 1 == v.
Proof. unfold normalizeScore. field. Qed.

Lemma fold_left_total (l : list FeatureImportance) (acc : Q) :
  fold_left (fun sum f => sum + importance f) l acc
  == acc + total_importance l.
Proof.
  revert acc. induction l as [| f l IH]; intros acc; simpl; [lra |].
  rewrite IH. lra.
Qed.

Lemma deviation_nonneg (a : Q) : 0 <= calculateAmountDeviation a.
Proof.
  unfold calculateAmountDeviation, Js.min, Js.abs.
  apply Q.min_glb; [| lra].
  pose proof (Qabs_nonneg (a - 500)). by_constant. lra.
Qed.

(** C4, as stated, fails above 10000: at 20000 the amount entry has
    importance 0.30, not [min(2, 1) * 0.15 = 0.15]. *)
Lemma amount_importance_above_cap :
  exists f,
    In f (featureImportance (explainPrediction large_purchase 0.5)) /\
    feature f = "Transaction Amount" /\
    ~ importance f == Qmin (20000 / 10000) 1 * 0.15 /\
    0.15 < importance f.
Proof.
  eexists. split; [left; reflexivity |]. vm_compute.
  split; [reflexivity |]. split; [discriminate | reflexivity].
Qed.

Lemma amount_entry (tx : Transaction) (fraudScore : Q) :
  exists f,
    List.filter is_amount_feature (pushed tx fraudScore) = [f] /\
    importance f
    = normalizeScore (Js.or_zero (amount tx) / 10000) 0 1 * 0.15.
Proof. eexists. split; reflexivity. Qed.

(** C4, amended: the amount entry of an explanation has importance
    [(amount / 10000) * 0.15], the amount taken as 0 when it does not
    parse, with no cap on the sub-score: the importance is at most 0.15
    exactly when the amount is at most 10000, and there it is
    [min(amount / 10000, 1) * 0.15]. *)
Theorem amount_importance_linear (tx : Transaction) (fraudScore : Q) :
  let a := Js.or_zero (amount tx) in
  let r := explainPrediction tx fraudScore in
  exists f,
    List.filter is_amount_feature (featureImportance r) = [f] /\
    importance f == a / 10000 * 0.15 /\
    (importance f <= 0.15 <-> a <= 10000) /\
    (a <= 10000 -> importance f == Qmin (a / 10000) 1 * 0.15).
Proof.
  intros a r. subst r. cbn [explainPrediction featureImportance].
  destruct (amount_entry tx fraudScore) as (f & Hf & Hi).
  exists f. split.
  - unfold calculateFeatureImportance.
    apply Permutation_length_1_inv. rewrite <- Hf. symmetry.
    apply filter_perm, (sort_perm importance).
  - rewrite Hi, normalizeScore_unit. fold a.
    split; [reflexivity |]. split.
    + by_constant. split; intros; lra.
    + intros Hle. rewrite Q.min_l; [reflexivity |]. by_constant. lra.
Qed.

End ExplainProps.

(** ** Threshold Store: recalibration *)

Section RecalibrateProps.
Import Thresholds.

(** The false-negative branch moves the threshold up, not down: what it
    calls [decrease] is negative once the rate exceeds 0.10, and it is
    subtracted. *)
Lemma false_negative_branch (metrics : Metrics) (config : ThresholdConfig) :
  falsePositiveRate metrics <= 0.15 ->
  0.10 < falseNegativeRate metrics ->
  let up := adaptationRate config * (falseNegativeRate metrics - 0.10) in
  fst (proposed metrics config) == fraudThreshold config + up /\
  snd (proposed metrics config) == up.
Proof.
  intros Hp Hn. unfold proposed.
  apply gt_false in Hp. apply gt_true in Hn. rewrite Hp, Hn.
  simpl. split; ring.
Qed.

(** C3, on fifty missed money-transfer frauds: the false-positive rate
    is 0, the false-negative rate is 1, the sample meets the minimum of
    50, and the recalibration moves the seeded threshold 0.65 up to
    0.785 while the reason it reports says the threshold decreases. *)
Theorem false_negatives_raise_threshold :
  let e := constructor in
  let out := adjustThresholdsBasedOnPerformance missed_frauds
               (fun _ => 0%Z) e in
  exists metrics old new adjustment,
    calculateCategoryMetrics e missed_frauds "money_transfer"
      = Some metrics /\
    falsePositiveRate metrics <= 0.15 /\
    0.10 < falseNegativeRate metrics /\
    JsMap.get "money_transfer" (thresholdCache e) = Some old /\
    sampleSizeMinimum old <= Qnat (sampleCount metrics) /\
    fraudThreshold old == 0.65 /\
    JsMap.get "money_transfer" (thresholdCache (fst out)) = Some new /\
    fraudThreshold new == 0.785 /\
    fraudThreshold old < fraudThreshold new /\
    snd out = Some [adjustment] /\
    List.last (reason adjustment) (Js.Lit "")
      = Js.Lit "%) - decreasing threshold".
Proof.
  do 4 eexists. vm_compute.
  repeat (split; [first [reflexivity | discriminate] |]). reflexivity.
Qed.

End RecalibrateProps.

(** ** Threshold Store: the record of an adjustment *)

Section RecalibrateRecord.
Import Thresholds.

Lemma calculateOptimalThreshold_gate (now : Z) (metrics : Metrics)
      (config : ThresholdConfig) :
  calculateOptimalThreshold now metrics config
  = if Js.gt (Qabs (snd (proposed metrics config))) 0.001
    then Some (adjustment_of now metrics config) else None.
Proof.
  unfold calculateOptimalThreshold, adjustment_of.
  destruct (proposed metrics config) as [raw delta]. reflexivity.
Qed.

Lemma constructor_ok : store_ok constructor.
Proof.
  split; [apply run_wf with (ops := []) |].
  intros k config. unfold JsMap.get. intros H.
  assert (Hall : map_Forall canonical
                   (JsMap.entries (thresholdCache constructor))).
  { unfold constructor, initializeDefaultThresholds, defaultThresholds.
    cbn [fold_left with_cache JsMap.set JsMap.entries JsMap.empty
         thresholdCache merchantCategory mkConfig].
    repeat (apply map_Forall_insert_2;
            [repeat split; discriminate || reflexivity |]).
    apply map_Forall_empty. }
  exact (Hall _ _ H).
Qed.

End RecalibrateRecord.

(** ** Binary64 numbers: order and rounding *)

Section SpecFloatFacts.
Local Open Scope Z_scope.

Lemma digits2_size (m : positive) : digits2_pos m = Pos.size m.
Proof. induction m; simpl; congruence. Qed.

Lemma digits2_upper (m : positive) : Zpos m < 2 ^ Zpos (digits2_pos m).
Proof.
  rewrite digits2_size. pose proof (Pos.size_gt m) as H.
  apply Pos2Z.pos_lt_pos in H. rewrite Pos2Z.inj_pow in H. exact H.
Qed.

Lemma digits2_lower (m : positive) : 2 ^ Zpos (digits2_pos m) <= 2 * Zpos m.
Proof.
  rewrite digits2_size. pose proof (Pos.size_le m) as H.
  apply Pos2Z.pos_le_pos in H. rewrite Pos2Z.inj_pow in H. exact H.
Qed.

(** One step of the right shift halves a mantissa that is not negative. *)
Lemma shr_1_div2 (mrs : shr_record) :
  0 <= shr_m mrs -> shr_m (shr_1 mrs) = shr_m mrs / 2.
Proof.
  destruct mrs as [m r s]. cbn [shr_m]. intros H.
  destruct m as [| p | p]; [reflexivity | | lia].
  destruct p as [p | p |]; cbn [shr_1 shr_m].
  - rewrite Pos2Z.inj_xI. apply Z.div_unique with 1; lia.
  - rewrite Pos2Z.inj_xO. apply Z.div_unique with 0; lia.
  - reflexivity.
Qed.

Lemma iter_shr (p : positive) :
  forall mrs, 0 <= shr_m mrs ->
    shr_m (SpecFloat.iter_pos shr_1 p mrs) = shr_m mrs / 2 ^ Zpos p.
Proof.
  assert (N : forall q mrs, 0 <= shr_m mrs ->
                shr_m (SpecFloat.iter_pos shr_1 q mrs)
                = shr_m mrs / 2 ^ Zpos q ->
                0 <= shr_m (SpecFloat.iter_pos shr_1 q mrs)).
  { intros q mrs H ->.
    apply Z.div_pos; [exact H | apply Z.pow_pos_nonneg; lia]. }
  induction p as [p IH | p IH |]; intros mrs H; cbn [SpecFloat.iter_pos].
  - assert (H1 : 0 <= shr_m (shr_1 mrs)).
    { rewrite shr_1_div2 by exact H. apply Z.div_pos; lia. }
    pose proof (IH _ H1) as E1. pose proof (N _ _ H1 E1) as H2.
    rewrite (IH _ H2), E1, shr_1_div2 by exact H.
    assert (P : 0 < 2 ^ Zpos p) by (apply Z.pow_pos_nonneg; lia).
    assert (E : 2 ^ Zpos p~1 = 2 * 2 ^ Zpos p * 2 ^ Zpos p).
    { rewrite Pos2Z.inj_xI.
      replace (2 * Zpos p + 1) with (1 + Zpos p + Zpos p) by lia.
      rewrite !Z.pow_add_r by lia. reflexivity. }
    rewrite E, !Z.div_div by lia. f_equal; ring.
  - pose proof (IH _ H) as E1. pose proof (N _ _ H E1) as H2.
    rewrite (IH _ H2), E1.
    assert (P : 0 < 2 ^ Zpos p) by (apply Z.pow_pos_nonneg; lia).
    assert (E : 2 ^ Zpos p~0 = 2 ^ Zpos p * 2 ^ Zpos p).
    { rewrite <- Z.pow_add_r by lia. f_equal; lia. }
    rewrite E, !Z.div_div by lia. f_equal; ring.
  - apply shr_1_div2. exact H.
Qed.

Lemma shr_nonneg (mrs : shr_record) (e n : Z) :
  0 <= shr_m mrs -> 0 <= shr_m (fst (shr mrs e n)).
Proof.
  intros H. destruct n as [| p | p]; cbn [shr fst]; try exact H.
  rewrite iter_shr by exact H.
  apply Z.div_pos; [exact H | apply Z.pow_pos_nonneg; lia].
Qed.

Lemma shr_record_of_loc_m (m : Z) (l : SpecFloat.location) :
  shr_m (shr_record_of_loc m l) = m.
Proof. destruct l as [| []]; reflexivity. Qed.

Lemma round_nearest_even_ge (m : Z) (l : SpecFloat.location) :
  m <= round_nearest_even m l.
Proof.
  destruct l as [| []]; cbn [round_nearest_even]; try lia.
  destruct (Z.even m); lia.
Qed.

(** A rounding never turns a mantissa that is not negative into [NaN],
    nor changes the sign asked for. *)
Lemma binary_round_aux_signed (sx : bool) (mx ex : Z) (lx : SpecFloat.location) :
  0 <= mx -> signed sx (binary_round_aux prec emax sx mx ex lx).
Proof.
  intros H. unfold binary_round_aux, shr_fexp.
  destruct (shr (shr_record_of_loc mx lx) ex _) as [mrs' e'] eqn:E1.
  assert (H1 : 0 <= shr_m mrs').
  { change mrs' with (fst (mrs', e')). rewrite <- E1. apply shr_nonneg.
    rewrite shr_record_of_loc_m. exact H. }
  set (m1 := round_nearest_even (shr_m mrs') (loc_of_shr_record mrs')).
  assert (H2 : 0 <= m1)
    by (pose proof (round_nearest_even_ge (shr_m mrs')
                      (loc_of_shr_record mrs')); unfold m1; lia).
  destruct (shr (shr_record_of_loc m1 loc_Exact) e' _) as [mrs'' e''] eqn:E2.
  assert (H3 : 0 <= shr_m mrs'').
  { change mrs'' with (fst (mrs'', e'')). rewrite <- E2. apply shr_nonneg.
    exact H2. }
  destruct (shr_m mrs'') as [| m | m]; [reflexivity | | lia].
  destruct (_ <=? _); reflexivity.
Qed.

Lemma binary_round_signed (sx : bool) (m : positive) (e : Z) :
  signed sx (binary_round prec emax sx m e).
Proof.
  unfold binary_round. destruct (shl_align m e _) as [mz ez].
  apply binary_round_aux_signed. lia.
Qed.

Lemma binary_normalize_not_nan (m e : Z) (s : bool) :
  binary_normalize prec emax m e s <> S754_nan.
Proof.
  destruct m as [| p | p]; cbn [binary_normalize]; [discriminate | |].
  - pose proof (binary_round_signed false p e) as H.
    intros E. rewrite E in H. exact H.
  - pose proof (binary_round_signed true p e) as H.
    intros E. rewrite E in H. exact H.
Qed.

(** A shift to the format of a positive mantissa whose exponent is not
    below the least one leaves a positive mantissa. *)
Lemma shr_fexp_pos (m : positive) (e : Z) (l : SpecFloat.location) :
  emin <= e ->
  0 < shr_m (fst (shr_fexp prec emax (Zpos m) e l))
  /\ emin <= snd (shr_fexp prec emax (Zpos m) e l).
Proof.
  intros He. unfold shr_fexp, fexp. cbn [Zdigits2].
  set (d := Zpos (digits2_pos m)).
  destruct (Z.max (d + e - prec) emin - e) as [| p | p] eqn:En;
    cbn [shr fst snd]; rewrite ?shr_record_of_loc_m; try (split; lia).
  assert (Hp : Zpos p = d - prec) by lia.
  rewrite iter_shr by (rewrite shr_record_of_loc_m; lia).
  rewrite shr_record_of_loc_m. split; [| lia].
  apply Z.div_str_pos. split; [apply Z.pow_pos_nonneg; lia |].
  pose proof (digits2_lower m) as L. fold d in L.
  assert (P : 2 ^ Zpos p * 2 <= 2 ^ d).
  { rewrite Hp. replace (2 ^ (d - prec) * 2) with (2 ^ (d - prec + 1)).
    - apply Z.pow_le_mono_r; [lia |]. change prec with 53. lia.
    - rewrite Z.pow_add_r; [lia | | lia]. change prec with 53 in *. lia. }
  lia.
Qed.

Lemma binary_round_aux_nonzero (sx : bool) (m : positive) (e : Z) :
  emin <= e ->
  positive_of sx (binary_round_aux prec emax sx (Zpos m) e loc_Exact).
Proof.
  intros He. unfold binary_round_aux.
  pose proof (shr_fexp_pos m e loc_Exact He) as [H1 H1e].
  destruct (shr_fexp prec emax (Zpos m) e loc_Exact) as [mrs' e'].
  cbn [fst snd] in H1, H1e.
  pose proof (round_nearest_even_ge (shr_m mrs') (loc_of_shr_record mrs')) as G.
  destruct (round_nearest_even (shr_m mrs') (loc_of_shr_record mrs'))
    as [| m1 | m1]; try lia.
  pose proof (shr_fexp_pos m1 e' loc_Exact H1e) as [H2 _].
  destruct (shr_fexp prec emax (Zpos m1) e' loc_Exact) as [mrs'' e''].
  cbn [fst] in H2.
  destruct (shr_m mrs'') as [| m2 | m2]; try lia.
  destruct (_ <=? _); reflexivity.
Qed.

Lemma iter_xO (m d : positive) :
  Zpos (Pos.iter xO m d) = Zpos m * 2 ^ Zpos d.
Proof.
  induction d as [| d IH] using Pos.peano_ind.
  - cbn [Pos.iter]. lia.
  - rewrite Pos.iter_succ, Pos2Z.inj_xO, IH, Pos2Z.inj_succ, Z.pow_succ_r; lia.
Qed.

Lemma shl_align_value (m : positive) (e e' : Z) :
  e' <= e ->
  Zpos (fst (shl_align m e e')) = Zpos m * 2 ^ (e - e')
  /\ snd (shl_align m e e') = e'.
Proof.
  intros H. unfold shl_align.
  destruct (e' - e) as [| d | d] eqn:E; cbn [fst snd].
  - replace (e - e') with 0 by lia. split; lia.
  - lia.
  - rewrite iter_xO. replace (e - e') with (Zpos d) by lia. auto.
Qed.

Lemma binary_round_nonzero (sx : bool) (m : positive) (e : Z) :
  emin <= e -> positive_of sx (binary_round prec emax sx m e).
Proof.
  intros He. unfold binary_round.
  destruct (shl_align m e _) as [mz ez] eqn:E.
  apply binary_round_aux_nonzero.
  unfold shl_align in E.
  destruct (fexp prec emax (Zpos (digits2_pos m) + e) - e) as [| d | d] eqn:D;
    injection E as <- <-; try exact He.
  unfold fexp. lia.
Qed.

(** Validity of a finite value, spelled out. *)
Lemma bounded_spec (m : positive) (e : Z) :
  SpecFloat.bounded prec emax m e = true ->
  emin <= e /\ e <= 971 /\ Zpos m < 2 ^ 53
  /\ (emin < e -> 2 ^ 52 <= Zpos m).
Proof.
  unfold SpecFloat.bounded, canonical_mantissa, fexp.
  intros H. apply andb_prop in H as [H Hmax].
  apply Z.eqb_eq in H. apply Z.leb_le in Hmax.
  pose proof (digits2_upper m) as U. pose proof (digits2_lower m) as L.
  set (d := Zpos (digits2_pos m)) in *.
  change prec with 53 in *. change emax with 1024 in *.
  assert (Hd : d <= 53) by lia.
  split; [lia |]. split; [lia |]. split.
  - apply Z.lt_le_trans with (2 ^ d); [exact U |].
    apply Z.pow_le_mono_r; lia.
  - intros He. assert (d = 53) by lia.
    replace d with 53 in L by lia.
    change (2 ^ 53) with (2 * 2 ^ 52) in L. lia.
Qed.

(** The comparison of two finite values is that of their mantissas once
    aligned on the lesser exponent. *)
Lemma SFcompare_aligned (s1 s2 : bool) (m1 m2 : positive) (e1 e2 : Z) :
  SpecFloat.bounded prec emax m1 e1 = true -> SpecFloat.bounded prec emax m2 e2 = true ->
  let ez := Z.min e1 e2 in
  SFcompare (S754_finite s1 m1 e1) (S754_finite s2 m2 e2)
  = Some (cond_Zopp s1 (Zpos m1 * 2 ^ (e1 - ez))
          ?= cond_Zopp s2 (Zpos m2 * 2 ^ (e2 - ez))).
Proof.
  intros B1 B2 ez.
  apply bounded_spec in B1 as (L1 & _ & U1 & N1).
  apply bounded_spec in B2 as (L2 & _ & U2 & N2).
  assert (K : forall a b : positive, forall x y : Z,
             x < y -> Zpos a < 2 ^ 53 -> 2 ^ 52 <= Zpos b ->
             Zpos a * 2 ^ (x - x) < Zpos b * 2 ^ (y - x)).
  { intros a b x y Hxy Ha Hb. rewrite Z.sub_diag, Z.pow_0_r, Z.mul_1_r.
    assert (2 ^ 1 <= 2 ^ (y - x)) by (apply Z.pow_le_mono_r; lia).
    change (2 ^ 1) with 2 in *. change (2 ^ 53) with (2 * 2 ^ 52) in Ha.
    nia. }
  cbn [SFcompare].
  destruct (Z.compare_spec e1 e2) as [E | E | E].
  - subst e2. subst ez. rewrite Z.min_id, Z.sub_diag, Z.pow_0_r, !Z.mul_1_r.
    destruct s1, s2; reflexivity.
  - assert (Hz : ez = e1) by (subst ez; lia). rewrite Hz.
    pose proof (K m1 m2 e1 e2 E U1 (N2 ltac:(lia))) as H.
    destruct s1, s2; cbn [cond_Zopp]; f_equal; symmetry.
    + apply Z.compare_gt_iff. lia.
    + apply Z.compare_lt_iff. lia.
    + apply Z.compare_gt_iff. lia.
    + apply Z.compare_lt_iff. lia.
  - assert (Hz : ez = e2) by (subst ez; lia). rewrite Hz.
    pose proof (K m2 m1 e2 e1 E U2 (N1 ltac:(lia))) as H.
    destruct s1, s2; cbn [cond_Zopp]; f_equal; symmetry.
    + apply Z.compare_lt_iff. lia.
    + apply Z.compare_lt_iff. lia.
    + apply Z.compare_gt_iff. lia.
    + apply Z.compare_gt_iff. lia.
Qed.

Lemma binary_normalize_sign (m e : Z) :
  emin <= e ->
  SFcompare (S754_zero false) (binary_normalize prec emax m e false)
  = Some (0 ?= m).
Proof.
  intros He. destruct m as [| p | p]; cbn [binary_normalize].
  - reflexivity.
  - pose proof (binary_round_nonzero false p e He) as H.
    destruct (binary_round prec emax false p e) as [| s | | s ? ?];
      cbn [positive_of] in H; try contradiction; subst; reflexivity.
  - pose proof (binary_round_nonzero true p e He) as H.
    destruct (binary_round prec emax true p e) as [| s | | s ? ?];
      cbn [positive_of] in H; try contradiction; subst; reflexivity.
Qed.

(** The sign of a difference is the order of its terms. *)
Lemma SFsub_sign (x y : spec_float) :
  valid_binary x = true -> valid_binary y = true ->
  SFltb (S754_zero false) (SFsub prec emax x y) = SFltb y x.
Proof.
  intros Vx Vy. unfold SFltb.
  destruct x as [sx | sx | | sx mx ex], y as [sy | sy | | sy my ey];
    try reflexivity;
    try (destruct sx; try destruct sy; reflexivity);
    try (destruct sy; reflexivity).
  cbn [SpecFloat.valid_binary] in Vx, Vy. cbn [SFsub].
  pose proof (bounded_spec _ _ Vx) as (Lx & _).
  pose proof (bounded_spec _ _ Vy) as (Ly & _).
  rewrite binary_normalize_sign by lia.
  rewrite (SFcompare_aligned sy sx my mx ey ex Vy Vx).
  destruct (shl_align_value mx ex (Z.min ex ey)) as [-> _]; [lia |].
  destruct (shl_align_value my ey (Z.min ex ey)) as [-> _]; [lia |].
  rewrite (Z.min_comm ey ex).
  set (a := cond_Zopp sx _). set (b := cond_Zopp sy _).
  destruct (Z.compare_spec 0 (a - b)), (Z.compare_spec b a);
    reflexivity || lia.
Qed.

Lemma cond_Zopp_mul (s : bool) (a c : Z) :
  cond_Zopp s (a * c) = cond_Zopp s a * c.
Proof. destruct s; cbn [cond_Zopp]; lia. Qed.

Lemma finite_rank_bounds (s : bool) (m : positive) (e : Z) :
  SpecFloat.bounded prec emax m e = true ->
  0 < Zpos m * 2 ^ (e + 1074) < 2 ^ 2100.
Proof.
  intros B. apply bounded_spec in B as (L & U & M & _).
  change emin with (-1074) in L.
  assert (P : 0 < 2 ^ (e + 1074)) by (apply Z.pow_pos_nonneg; lia).
  split; [lia |].
  assert (Q : 2 ^ (e + 1074) <= 2 ^ 2045) by (apply Z.pow_le_mono_r; lia).
  change (2 ^ 2100) with (2 ^ 53 * (2 ^ 2045 * 4)). nia.
Qed.

(** The order of the values is the order of their ranks. *)
Lemma SFcompare_rank (x y : spec_float) :
  valid_binary x = true -> valid_binary y = true ->
  x <> S754_nan -> y <> S754_nan ->
  SFcompare x y = Some (rankSF x ?= rankSF y).
Proof.
  intros Vx Vy Nx Ny.
  destruct x as [sx | sx | | sx mx ex], y as [sy | sy | | sy my ey];
    try congruence; cbn [SpecFloat.valid_binary] in Vx, Vy;
    try (pose proof (finite_rank_bounds sx mx ex Vx) as Bx);
    try (pose proof (finite_rank_bounds sy my ey Vy) as By);
    cbn [SFcompare rankSF].
  - reflexivity.
  - destruct sy; reflexivity.
  - destruct sy; cbn [cond_Zopp]; f_equal; symmetry;
      [apply Z.compare_gt_iff | apply Z.compare_lt_iff]; lia.
  - destruct sx; reflexivity.
  - destruct sx, sy; reflexivity.
  - destruct sx, sy; cbn [cond_Zopp]; f_equal; symmetry;
      try (apply Z.compare_lt_iff; lia); apply Z.compare_gt_iff; lia.
  - destruct sx; cbn [cond_Zopp]; f_equal; symmetry;
      [apply Z.compare_lt_iff | apply Z.compare_gt_iff]; lia.
  - destruct sx, sy; cbn [cond_Zopp]; f_equal; symmetry;
      try (apply Z.compare_lt_iff; lia); apply Z.compare_gt_iff; lia.
  - change (SFcompare (S754_finite sx mx ex) (S754_finite sy my ey)
            = Some (cond_Zopp sx (Zpos mx * 2 ^ (ex + 1074))
                    ?= cond_Zopp sy (Zpos my * 2 ^ (ey + 1074)))).
    rewrite (SFcompare_aligned sx sy mx my ex ey Vx Vy).
    apply bounded_spec in Vx as (Lx & _). apply bounded_spec in Vy as (Ly & _).
    change emin with (-1074) in *.
    set (ez := Z.min ex ey).
    assert (Ex : 2 ^ (ex + 1074) = 2 ^ (ex - ez) * 2 ^ (ez + 1074)).
    { rewrite <- Z.pow_add_r by lia. f_equal; lia. }
    assert (Ey : 2 ^ (ey + 1074) = 2 ^ (ey - ez) * 2 ^ (ez + 1074)).
    { rewrite <- Z.pow_add_r by lia. f_equal; lia. }
    rewrite Ex, Ey, !Z.mul_assoc, !cond_Zopp_mul.
    rewrite <- Zmult_compare_compat_r; [reflexivity |].
    apply Z.lt_gt, Z.pow_pos_nonneg; lia.
Qed.

End SpecFloatFacts.

Section FloatOrder.
Local Open Scope float_scope.

Lemma isNaN_spec (x : float) :
  F64.isNaN x = true <-> Prim2SF x = S754_nan.
Proof.
  unfold F64.isNaN. rewrite FloatAxioms.eqb_spec. unfold SFeqb.
  pose proof (Prim2SF_valid x) as V.
  destruct (Prim2SF x) as [s | s | | s m e] eqn:E.
  - cbn. split; [discriminate | discriminate].
  - destruct s; cbn; split; discriminate.
  - cbn. split; reflexivity.
  - rewrite SFcompare_rank by (assumption || discriminate).
    rewrite Z.compare_refl. cbn. split; discriminate.
Qed.

Lemma not_NaN_spec (x : float) :
  F64.isNaN x = false <-> Prim2SF x <> S754_nan.
Proof.
  rewrite <- isNaN_spec. destruct (F64.isNaN x); split; congruence.
Qed.

Lemma compare_rank (x y : float) :
  F64.isNaN x = false -> F64.isNaN y = false ->
  SFcompare (Prim2SF x) (Prim2SF y) = Some (rank x ?= rank y)%Z.
Proof.
  intros Nx Ny. apply SFcompare_rank;
    try apply Prim2SF_valid; apply not_NaN_spec; assumption.
Qed.

Lemma compare_NaN (x y : float) :
  F64.isNaN x = true \/ F64.isNaN y = true ->
  SFcompare (Prim2SF x) (Prim2SF y) = None.
Proof.
  intros [H | H]; apply isNaN_spec in H; rewrite H;
    [| destruct (Prim2SF x)]; reflexivity.
Qed.

Lemma ltb_rank (x y : float) :
  F64.isNaN x = false -> F64.isNaN y = false ->
  (x <? y) = (rank x <? rank y)%Z.
Proof.
  intros Nx Ny. rewrite ltb_spec. unfold SFltb.
  rewrite (compare_rank x y Nx Ny). unfold Z.ltb.
  destruct (rank x ?= rank y)%Z; reflexivity.
Qed.

Lemma leb_rank (x y : float) :
  F64.isNaN x = false -> F64.isNaN y = false ->
  (x <=? y) = (rank x <=? rank y)%Z.
Proof.
  intros Nx Ny. rewrite leb_spec. unfold SFleb.
  rewrite (compare_rank x y Nx Ny). unfold Z.leb.
  destruct (rank x ?= rank y)%Z; reflexivity.
Qed.

Lemma eqb_rank (x y : float) :
  F64.isNaN x = false -> F64.isNaN y = false ->
  (x =? y) = (rank x =? rank y)%Z.
Proof.
  intros Nx Ny. rewrite FloatAxioms.eqb_spec. unfold SFeqb.
  rewrite (compare_rank x y Nx Ny).
  destruct (Z.compare_spec (rank x) (rank y)),
           (Z.eqb_spec (rank x) (rank y)); try reflexivity; lia.
Qed.

Lemma ltb_NaN (x y : float) :
  F64.isNaN x = true \/ F64.isNaN y = true -> (x <? y) = false.
Proof.
  intros H. rewrite ltb_spec. unfold SFltb.
  rewrite (compare_NaN x y H). reflexivity.
Qed.

Lemma leb_NaN (x y : float) :
  F64.isNaN x = true \/ F64.isNaN y = true -> (x <=? y) = false.
Proof.
  intros H. rewrite leb_spec. unfold SFleb.
  rewrite (compare_NaN x y H). reflexivity.
Qed.

Lemma ltb_true_rank (x y : float) :
  (x <? y) = true ->
  F64.isNaN x = false /\ F64.isNaN y = false /\ (rank x < rank y)%Z.
Proof.
  intros H.
  destruct (F64.isNaN x) eqn:Nx;
    [rewrite ltb_NaN in H by (left; assumption); discriminate |].
  destruct (F64.isNaN y) eqn:Ny;
    [rewrite ltb_NaN in H by (right; assumption); discriminate |].
  rewrite ltb_rank in H by assumption. apply Z.ltb_lt in H. auto.
Qed.

Lemma leb_true_rank (x y : float) :
  (x <=? y) = true ->
  F64.isNaN x = false /\ F64.isNaN y = false /\ (rank x <= rank y)%Z.
Proof.
  intros H.
  destruct (F64.isNaN x) eqn:Nx;
    [rewrite leb_NaN in H by (left; assumption); discriminate |].
  destruct (F64.isNaN y) eqn:Ny;
    [rewrite leb_NaN in H by (right; assumption); discriminate |].
  rewrite leb_rank in H by assumption. apply Z.leb_le in H. auto.
Qed.

Lemma ltb_of_rank (x y : float) :
  F64.isNaN x = false -> F64.isNaN y = false ->
  (rank x < rank y)%Z -> (x <? y) = true.
Proof.
  intros Nx Ny H. rewrite ltb_rank by assumption. apply Z.ltb_lt, H.
Qed.

Lemma leb_of_rank (x y : float) :
  F64.isNaN x = false -> F64.isNaN y = false ->
  (rank x <= rank y)%Z -> (x <=? y) = true.
Proof.
  intros Nx Ny H. rewrite leb_rank by assumption. apply Z.leb_le, H.
Qed.

Lemma ltb_false_rank (x y : float) :
  (x <? y) = false -> F64.isNaN x = false -> F64.isNaN y = false ->
  (rank y <= rank x)%Z.
Proof.
  intros H Nx Ny. rewrite ltb_rank in H by assumption.
  apply Z.ltb_ge in H. exact H.
Qed.

Lemma leb_false_rank (x y : float) :
  (x <=? y) = false -> F64.isNaN x = false -> F64.isNaN y = false ->
  (rank y < rank x)%Z.
Proof.
  intros H Nx Ny. rewrite leb_rank in H by assumption.
  apply Z.leb_gt in H. exact H.
Qed.

(** [0 < x - y] is [y < x], for all values, [NaN] and the infinities
    included. *)
Lemma sub_sign (x y : float) : (0 <? x - y) = (y <? x).
Proof.
  rewrite !ltb_spec, sub_spec.
  apply SFsub_sign; apply Prim2SF_valid.
Qed.

Lemma sub_NaN (x y : float) :
  F64.isNaN x = true \/ F64.isNaN y = true -> F64.isNaN (x - y) = true.
Proof.
  intros H. apply isNaN_spec. rewrite sub_spec.
  destruct H as [H | H]; apply isNaN_spec in H; rewrite H;
    [| destruct (Prim2SF x)]; reflexivity.
Qed.

End FloatOrder.

(** Comparisons of numbers, as comparisons of their ranks. *)
Ltac by_rank :=
  repeat match goal with
         | H : (_ <? _)%float = true |- _ =>
             apply ltb_true_rank in H; destruct H as (? & ? & ?)
         | H : (_ <=? _)%float = true |- _ =>
             apply leb_true_rank in H; destruct H as (? & ? & ?)
         | H : (?x <? ?y)%float = false,
           Nx : F64.isNaN ?x = false, Ny : F64.isNaN ?y = false |- _ =>
             apply (fun H => ltb_false_rank x y H Nx Ny) in H
         | H : (?x <=? ?y)%float = false,
           Nx : F64.isNaN ?x = false, Ny : F64.isNaN ?y = false |- _ =>
             apply (fun H => leb_false_rank x y H Nx Ny) in H
         end.

(** ** Binary64 numbers: what the operations keep *)

Section SpecFloatOps.
Local Open Scope Z_scope.

Lemma signed_not_nan (s : bool) (x : spec_float) :
  signed s x -> x <> S754_nan.
Proof. intros H ->. exact H. Qed.

Lemma signed_nonneg (x : spec_float) : signed false x -> SFnonneg x.
Proof. destruct x as [s | s | | s m e]; cbn; try intros ->; auto. Qed.

Lemma SFnonneg_not_nan (x : spec_float) : SFnonneg x -> x <> S754_nan.
Proof. intros H ->. exact H. Qed.

Lemma SFmul_finite_signed (sx sy : bool) (mx my : positive) (ex ey : Z) :
  signed (xorb sx sy)
    (SFmul prec emax (S754_finite sx mx ex) (S754_finite sy my ey)).
Proof. cbn [SFmul]. apply binary_round_aux_signed. lia. Qed.

Lemma SFdiv_core_nonneg (m1 m2 : positive) (e1 e2 : Z) :
  0 <= fst (fst (SFdiv_core_binary prec emax (Zpos m1) e1 (Zpos m2) e2)).
Proof.
  unfold SFdiv_core_binary.
  set (s := _ - _ - _).
  set (m' := match s with
             | 0 => Zpos m1
             | Zpos _ => Z.shiftl (Zpos m1) s
             | Zneg _ => 0
             end).
  assert (H : 0 <= m').
  { subst m'. destruct s; try lia. apply Z.shiftl_nonneg. lia. }
  pose proof (Z.div_pos m' (Zpos m2) H ltac:(lia)) as Q.
  unfold Z.div in Q. destruct (Z.div_eucl m' (Zpos m2)) as [q r].
  exact Q.
Qed.

Lemma SFdiv_finite_signed (sx sy : bool) (mx my : positive) (ex ey : Z) :
  signed (xorb sx sy)
    (SFdiv prec emax (S754_finite sx mx ex) (S754_finite sy my ey)).
Proof.
  cbn [SFdiv]. pose proof (SFdiv_core_nonneg mx my ex ey) as H.
  destruct (SFdiv_core_binary prec emax (Zpos mx) ex (Zpos my) ey)
    as [[mz ez] lz].
  apply binary_round_aux_signed. exact H.
Qed.

Lemma SFsub_not_nan (x y : spec_float) :
  x <> S754_nan ->
  match y with S754_zero _ | S754_finite _ _ _ => True | _ => False end ->
  SFsub prec emax x y <> S754_nan.
Proof.
  intros Nx Fy.
  destruct x as [sx | sx | | sx mx ex], y as [sy | sy | | sy my ey];
    try contradiction; cbn [SFsub]; try discriminate.
  - destruct sx, sy; discriminate.
  - apply binary_normalize_not_nan.
Qed.

Lemma SFadd_nonneg (x y : spec_float) :
  SFnonneg x -> SFnonneg y -> SFnonneg (SFadd prec emax x y).
Proof.
  intros Hx Hy.
  destruct x as [sx | [] | | [] mx ex], y as [sy | [] | | [] my ey];
    try contradiction; cbn [SFadd SFnonneg]; auto.
  - destruct sx, sy; exact I.
  - cbn [cond_Zopp].
    set (a := Zpos (fst (shl_align mx ex (Z.min ex ey)))).
    set (b := Zpos (fst (shl_align my ey (Z.min ex ey)))).
    assert (H : 0 < a + b) by (subst a b; lia).
    destruct (a + b) as [| p | p]; try lia. cbn [binary_normalize].
    apply signed_nonneg, binary_round_signed.
Qed.

End SpecFloatOps.

Section FloatOps.
Local Open Scope float_scope.

Lemma nonneg_spec (x : float) : nonneg x <-> SFnonneg (Prim2SF x).
Proof.
  unfold nonneg. rewrite leb_spec. unfold SFleb.
  change (Prim2SF 0) with (S754_zero false).
  destruct (Prim2SF x) as [s | [] | | [] m e]; cbn;
    split; auto; discriminate.
Qed.

Lemma nonneg_not_NaN (x : float) : nonneg x -> F64.isNaN x = false.
Proof.
  intros H. apply not_NaN_spec. apply nonneg_spec in H.
  apply SFnonneg_not_nan, H.
Qed.

Lemma or_zero_not_NaN (x : float) : F64.isNaN (F64.or_zero x) = false.
Proof.
  unfold F64.or_zero. destruct (F64.isNaN x) eqn:N; [reflexivity |].
  cbn [orb]. destruct (x =? 0); [reflexivity | exact N].
Qed.

Lemma sub_not_NaN (x c : float) :
  F64.isNaN x = false -> is_finite c -> F64.isNaN (x - c) = false.
Proof.
  intros Nx Fc. apply not_NaN_spec. rewrite sub_spec.
  apply SFsub_not_nan; [apply not_NaN_spec, Nx |].
  unfold is_finite in Fc. destruct (Prim2SF c); auto.
Qed.

Lemma sub_zero_nonneg (x : float) : nonneg x -> nonneg (x - 0).
Proof.
  rewrite !nonneg_spec, sub_spec.
  change (Prim2SF 0) with (S754_zero false).
  destruct (Prim2SF x) as [[] | [] | | [] m e]; cbn; auto.
Qed.

Lemma abs_nonneg (x : float) : F64.isNaN x = false -> nonneg (abs x).
Proof.
  intros Nx. apply not_NaN_spec in Nx.
  rewrite nonneg_spec, abs_spec.
  destruct (Prim2SF x) as [s | s | | s m e]; cbn; auto.
Qed.

Lemma div_not_NaN (x c : float) :
  F64.isNaN x = false -> is_number c -> F64.isNaN (x / c) = false.
Proof.
  intros Nx Fc. apply not_NaN_spec in Nx. apply not_NaN_spec.
  rewrite div_spec. unfold is_number in Fc.
  destruct (Prim2SF c) as [| | | sc mc ec]; try contradiction.
  destruct (Prim2SF x) as [s | s | | s m e]; try congruence;
    try discriminate.
  apply (signed_not_nan (xorb s sc)), SFdiv_finite_signed.
Qed.

Lemma div_nonneg (x c : float) :
  nonneg x -> is_positive c -> nonneg (x / c).
Proof.
  rewrite !nonneg_spec, div_spec. unfold is_positive.
  destruct (Prim2SF c) as [| | | [] mc ec]; try contradiction.
  intros Hx _.
  destruct (Prim2SF x) as [s | [] | | [] m e]; try contradiction;
    try exact I.
  apply signed_nonneg. apply (SFdiv_finite_signed false false).
Qed.

Lemma mul_not_NaN (x c : float) :
  F64.isNaN x = false -> is_number c -> F64.isNaN (x * c) = false.
Proof.
  intros Nx Fc. apply not_NaN_spec in Nx. apply not_NaN_spec.
  rewrite mul_spec. unfold is_number in Fc.
  destruct (Prim2SF c) as [| | | sc mc ec]; try contradiction.
  destruct (Prim2SF x) as [s | s | | s m e]; try congruence;
    try discriminate.
  apply (signed_not_nan (xorb s sc)), SFmul_finite_signed.
Qed.

Lemma mul_nonneg (x c : float) :
  nonneg x -> is_positive c -> nonneg (x * c).
Proof.
  rewrite !nonneg_spec, mul_spec. unfold is_positive.
  destruct (Prim2SF c) as [| | | [] mc ec]; try contradiction.
  intros Hx _.
  destruct (Prim2SF x) as [s | [] | | [] m e]; try contradiction;
    try exact I.
  apply signed_nonneg. apply (SFmul_finite_signed false false).
Qed.

Lemma add_nonneg (x y : float) : nonneg x -> nonneg y -> nonneg (x + y).
Proof. rewrite !nonneg_spec, add_spec. apply SFadd_nonneg. Qed.

Lemma min_cases (x y : float) :
  F64.isNaN x = false -> F64.isNaN y = false ->
  (F64.min x y = x \/ F64.min x y = y) /\ (F64.min x y <=? y) = true.
Proof.
  intros Nx Ny. unfold F64.min. rewrite Nx, Ny. cbn [orb].
  destruct (x <? y) eqn:L1.
  - split; [left; reflexivity |].
    by_rank. apply leb_of_rank; auto; lia.
  - destruct (y <? x) eqn:L2.
    + split; [right; reflexivity |]. apply leb_of_rank; auto; lia.
    + by_rank. destruct (get_sign x).
      * split; [left; reflexivity |]. apply leb_of_rank; auto.
      * split; [right; reflexivity |]. apply leb_of_rank; auto; lia.
Qed.

Lemma min_not_NaN (x y : float) :
  F64.isNaN x = false -> F64.isNaN y = false ->
  F64.isNaN (F64.min x y) = false.
Proof.
  intros Nx Ny. destruct (min_cases x y Nx Ny) as [[-> | ->] _]; assumption.
Qed.

Lemma min_nonneg (x y : float) :
  nonneg x -> nonneg y -> nonneg (F64.min x y).
Proof.
  intros Hx Hy.
  destruct (min_cases x y (nonneg_not_NaN x Hx) (nonneg_not_NaN y Hy))
    as [[-> | ->] _]; assumption.
Qed.

Lemma min_NaN (x y : float) :
  F64.isNaN x = true -> F64.min x y = nan.
Proof. intros N. unfold F64.min. rewrite N. reflexivity. Qed.

Lemma of_uint63_nonneg (n : PrimInt63.int) : nonneg (of_uint63 n).
Proof.
  rewrite nonneg_spec, of_uint63_spec.
  pose proof (Uint63.to_Z_bounded n) as [H _].
  destruct (Uint63.to_Z n) as [| p | p]; try lia; cbn [binary_normalize].
  - exact I.
  - apply signed_nonneg, binary_round_signed.
Qed.

Lemma opp_nonneg_below (q c : float) :
  nonneg q -> is_positive c -> (- q <=? c) = true.
Proof.
  rewrite nonneg_spec, leb_spec, opp_spec. unfold is_positive, SFleb.
  destruct (Prim2SF c) as [| | | [] mc ec]; try contradiction.
  intros Hq _.
  destruct (Prim2SF q) as [s | [] | | [] m e]; try contradiction;
    reflexivity.
Qed.

End FloatOps.

(** ** Rounding to three decimals *)

Section ToFixed.
Local Open Scope float_scope.

Lemma thousandth_quotients :
  forallb (fun k => of_uint63 (Uint63.of_Z (Z.of_nat k)) / 1000 <=? 0.95)
          (seq 0 951) = true.
Proof. vm_compute. reflexivity. Qed.

Lemma thousandth_below (n : Z) :
  (0 <= n <= 950)%Z ->
  (of_uint63 (Uint63.of_Z n) / 1000 <=? 0.95) = true.
Proof.
  intros H. pose proof thousandth_quotients as Q.
  rewrite forallb_forall in Q.
  specialize (Q (Z.to_nat n)). rewrite Z2Nat.id in Q by lia.
  apply Q. apply in_seq. lia.
Qed.

(** The thousandths of a positive number that is at most 0.95. *)
Lemma thousandths_below (m : positive) (e : Z) :
  SpecFloat.bounded prec emax m e = true ->
  SFleb (S754_finite false m e) (Prim2SF 0.95) = true ->
  (0 <= F64.thousandths m e <= 950)%Z.
Proof.
  intros B L. apply bounded_spec in B as (_ & _ & U & _).
  change (Prim2SF 0.95) with (S754_finite false 8556839292003942 (-53)) in L.
  unfold SFleb in L. cbn [SFcompare] in L.
  destruct (Z.compare_spec e (-53)) as [E | E | E]; try discriminate.
  - subst e. unfold F64.thousandths.
    assert (M : (Zpos m <= 8556839292003942)%Z).
    { destruct (Pos.compare_cont Eq m 8556839292003942) eqn:C;
        try discriminate.
      - apply (Pos.compare_eq m) in C. subst. apply Z.le_refl.
      - apply Z.lt_le_incl. exact C. }
    split.
    + apply Z.div_pos; lia.
    + apply Z.lt_succ_r, Z.div_lt_upper_bound; lia.
  - destruct e as [| p | p]; try lia. unfold F64.thousandths.
    assert (P : (2 ^ 54 <= 2 ^ Zpos p)%Z) by (apply Z.pow_le_mono_r; lia).
    assert (P2 : (2 ^ (Zpos p + 1) = 2 * 2 ^ Zpos p)%Z)
      by (rewrite Z.pow_add_r by lia; lia).
    change (2 ^ 53)%Z with 9007199254740992%Z in U.
    change (2 ^ 54)%Z with 18014398509481984%Z in P.
    split.
    + apply Z.div_pos; lia.
    + apply Z.lt_succ_r, Z.div_lt_upper_bound; lia.
Qed.

Lemma toFixed3_NaN (x : float) :
  F64.isNaN x = true -> F64.toFixed3 x = x.
Proof.
  intros N. apply isNaN_spec in N. unfold F64.toFixed3. rewrite N.
  reflexivity.
Qed.

Lemma toFixed3_nonneg (x : float) : nonneg x -> nonneg (F64.toFixed3 x).
Proof.
  intros H. pose proof H as H'. rewrite nonneg_spec in H'.
  unfold F64.toFixed3.
  destruct (Prim2SF x) as [s | [] | | [] m e]; try contradiction;
    try exact H; try reflexivity.
  destruct (abs x <? _); [| exact H].
  apply div_nonneg; [apply of_uint63_nonneg | exact I].
Qed.

Lemma toFixed3_below (x : float) :
  (x <=? 0.95) = true -> (F64.toFixed3 x <=? 0.95) = true.
Proof.
  intros H. pose proof H as L. rewrite leb_spec in L.
  pose proof (Prim2SF_valid x) as V.
  unfold F64.toFixed3.
  destruct (Prim2SF x) as [s | s | | s m e] eqn:E; try exact H;
    try reflexivity.
  destruct (abs x <? _); [| exact H]. cbn zeta.
  destruct s.
  - apply opp_nonneg_below; [| exact I].
    apply div_nonneg; [apply of_uint63_nonneg | exact I].
  - apply thousandth_below, thousandths_below; assumption.
Qed.

End ToFixed.

(** ** [Array.prototype.sort] with a descending key comparator,
    on binary64 keys *)

Section Sort64.
Local Open Scope float_scope.
Context {A : Type} (key : A -> float).

Let cmp (a b : A) : float := key b - key a.
Let desc (a b : A) : Prop := (key b <=? key a) = true.

Lemma sort64_insert_perm (x : A) (l : list A) :
  Permutation (F64.sort_insert cmp x l) (x :: l).
Proof.
  induction l as [| y l IH]; simpl; [reflexivity |].
  destruct (0 <? cmp x y); [| reflexivity].
  rewrite IH. apply perm_swap.
Qed.

Lemma sort64_perm (l : list A) : Permutation (F64.sort cmp l) l.
Proof.
  induction l as [| x l IH]; simpl; [reflexivity |].
  rewrite sort64_insert_perm. apply perm_skip, IH.
Qed.

Lemma sort64_insert_sorted (x : A) (l : list A) :
  F64.isNaN (key x) = false ->
  List.Forall (fun a => F64.isNaN (key a) = false) l ->
  StronglySorted desc l -> StronglySorted desc (F64.sort_insert cmp x l).
Proof.
  intros Nx Nl Hs. induction Hs as [| y l Hl IH Hy]; simpl.
  - constructor; constructor.
  - inversion Nl as [| ? ? Ny Nl']; subst.
    unfold cmp at 1. rewrite sub_sign.
    destruct (key x <? key y) eqn:Hc.
    + constructor; [apply IH, Nl' |].
      apply List.Forall_forall. intros z Hz.
      apply (Permutation_in _ (sort64_insert_perm x l)) in Hz.
      destruct Hz as [<- | Hz].
      * unfold desc. by_rank. apply leb_of_rank; auto; lia.
      * rewrite List.Forall_forall in Hy. apply Hy, Hz.
    + constructor; [constructor; assumption |].
      by_rank. constructor; [unfold desc; apply leb_of_rank; auto |].
      rewrite List.Forall_forall in Hy, Nl' |- *. intros z Hz.
      pose proof (Hy z Hz) as Hzy. unfold desc in Hzy |- *.
      by_rank. apply leb_of_rank; auto; lia.
Qed.

Lemma sort64_sorted (l : list A) :
  List.Forall (fun a => F64.isNaN (key a) = false) l ->
  StronglySorted desc (F64.sort cmp l).
Proof.
  induction 1 as [| x l Nx Nl IH]; simpl; [constructor |].
  apply sort64_insert_sorted; [exact Nx | | exact IH].
  apply List.Forall_forall. intros z Hz.
  apply (Permutation_in _ (sort64_perm l)) in Hz.
  rewrite List.Forall_forall in Nl. apply Nl, Hz.
Qed.

End Sort64.

(** ** Threshold Store: classification *)

Section Classify64.
Import Thresholds64.
Local Open Scope float_scope.

Lemma rank_marks :
  rank 0 = 0%Z /\ (0 < rank 0.10 < rank 0.25)%Z
  /\ F64.isNaN 0 = false /\ F64.isNaN 0.10 = false
  /\ F64.isNaN 0.25 = false.
Proof. vm_compute. repeat split; reflexivity. Qed.

(** C5, amended: against the threshold [t] that [getThreshold] returns
    for the category, the fraud decision is [s > t] and the risk level
    is low exactly when [s <= t]; with [d] the difference [s - t] as the
    code computes it, rounded, the level is medium exactly when
    [0 < d < 0.10], high exactly when [0.10 <= d < 0.25], and critical
    exactly when [d >= 0.25] or the score or the threshold is [NaN]. *)
Theorem classify_against_threshold (e : Engine) (s : float)
        (c : option string) (t : float) :
  getThreshold e c = Some t ->
  let d := s - t in
  isTransactionFraudulent e s c = Some (t <? s) /\
  exists lvl,
    calculateRiskLevel e s c = Some lvl /\
    (lvl = low <-> (s <=? t) = true) /\
    (lvl = medium <-> (0 <? d) = true /\ (d <? 0.10) = true) /\
    (lvl = high <-> (0.10 <=? d) = true /\ (d <? 0.25) = true) /\
    (lvl = critical <->
     (0.25 <=? d) = true \/ F64.isNaN s = true \/ F64.isNaN t = true).
Proof.
  intros Ht d. unfold isTransactionFraudulent, calculateRiskLevel.
  rewrite Ht. cbn [mbind option_bind]. split; [reflexivity |]. fold d.
  destruct rank_marks as (R0 & R1 & N0 & N1 & N25).
  pose proof (sub_sign s t) as Hs. fold d in Hs.
  destruct (F64.isNaN s) eqn:Ns, (F64.isNaN t) eqn:Nt;
    try (assert (Nd : F64.isNaN d = true)
           by (apply sub_NaN; auto);
         rewrite (leb_NaN s t), (ltb_NaN d 0.10), (ltb_NaN d 0.25),
           (ltb_NaN 0 d), (leb_NaN 0.10 d), (leb_NaN 0.25 d) by auto;
         eexists; split; [reflexivity |];
         repeat split; intros; try discriminate; try tauto;
         repeat match goal with H : _ /\ _ |- _ => destruct H end;
         discriminate).
  rewrite (leb_rank s t), (ltb_rank t s) in * by assumption.
  destruct (F64.isNaN d) eqn:Nd.
  - rewrite (ltb_NaN d 0.10), (ltb_NaN d 0.25), (leb_NaN 0.10 d),
      (leb_NaN 0.25 d) by auto.
    rewrite (ltb_NaN 0 d) in Hs |- * by auto. symmetry in Hs.
    apply Z.ltb_ge in Hs.
    destruct (Z.leb_spec (rank s) (rank t)); [| lia].
    eexists; split; [reflexivity |].
    repeat split; intros; try discriminate; try tauto;
      repeat match goal with
             | H : _ /\ _ |- _ => destruct H
             | H : _ \/ _ |- _ => destruct H
             end; discriminate.
  - rewrite (ltb_rank d 0.10), (ltb_rank d 0.25), (leb_rank 0.10 d),
      (leb_rank 0.25 d) by assumption.
    rewrite (ltb_rank 0 d) in Hs |- * by assumption. rewrite R0 in *.
    destruct (Z.leb_spec (rank s) (rank t)),
             (Z.ltb_spec (rank d) (rank 0.10)),
             (Z.ltb_spec (rank d) (rank 0.25)),
             (Z.leb_spec (rank 0.10) (rank d)),
             (Z.leb_spec (rank 0.25) (rank d)),
             (Z.ltb_spec 0 (rank d)),
             (Z.ltb_spec (rank t) (rank s));
      try discriminate; try lia;
      eexists; (split; [reflexivity |]);
      repeat split; intros; try discriminate; try reflexivity;
      repeat match goal with
             | H : _ /\ _ |- _ => destruct H
             | H : _ \/ _ |- _ => destruct H
             end; try discriminate; try lia; auto.
Qed.

Lemma classify_against_threshold_witness :
  getThreshold constructor (Some "Grocery") = Some 0.45 /\
  isTransactionFraudulent constructor 0.62 (Some "Grocery") = Some true /\
  calculateRiskLevel constructor 0.62 (Some "Grocery") = Some high.
Proof.
  assert (Ht : getThreshold constructor (Some "Grocery") = Some 0.45)
    by (vm_compute; reflexivity).
  split; [exact Ht |].
  destruct (classify_against_threshold constructor 0.62 (Some "Grocery")
              0.45 Ht) as [Hb (lvl & Hl & _ & _ & Hh & _)].
  split.
  - rewrite Hb. reflexivity.
  - rewrite Hl. f_equal. apply Hh. split; reflexivity.
Defined.

(** The rounding at work: [0.6 - 0.5] and [0.75 - 0.65] are rounded to
    0.09999999999999998, below the first mark, and [0.7 - 0.45] to
    0.24999999999999994, below the second. *)
Example graded_by_rounded_difference :
  calculateRiskLevel constructor 0.6 None = Some medium
  /\ calculateRiskLevel constructor 0.75 (Some "money_transfer")
     = Some medium
  /\ calculateRiskLevel constructor 0.7 (Some "grocery") = Some high.
Proof. vm_compute. repeat split; reflexivity. Qed.

(** C5, as stated, fails in two ways.  A score that is [NaN] is graded
    critical, though no difference is then at least 0.25.  And the bands
    are those of the rounded difference, not of the exact one: against a
    threshold of 0.010000000000000002 the score 0.11 is graded high,
    while the exact difference of the two numbers is below one tenth. *)
Lemma risk_level_off_the_bands :
  (getThreshold constructor None = Some 0.5 /\
   calculateRiskLevel constructor nan None = Some critical /\
   (0.25 <=? nan - 0.5) = false) /\
  (let e := createThresholdConfig
              (mkConfig "kiosk" 0.010000000000000002 0 1 0.1 10)
              constructor in
   getThreshold e (Some "kiosk") = Some 0.010000000000000002 /\
   calculateRiskLevel e 0.11 (Some "kiosk") = Some high /\
   (F64.exact 0.11 - F64.exact 0.010000000000000002 < 1 # 10)%Q).
Proof. vm_compute. repeat split; reflexivity. Qed.

End Classify64.

(** ** Explanation Generator: ranking and confidence *)

Section Explain64Props.
Import Explain64.
Local Open Scope float_scope.

Ltac closed_number := vm_compute; first [exact I | reflexivity].

Lemma amount_importance_not_NaN (x : float) :
  F64.isNaN x = false ->
  F64.isNaN (normalizeScore (x / 10000) 0 1 * 0.15) = false.
Proof.
  intros Nx. unfold normalizeScore.
  apply mul_not_NaN; [| closed_number].
  apply div_not_NaN; [| closed_number].
  apply sub_not_NaN; [| closed_number].
  apply div_not_NaN; [exact Nx | closed_number].
Qed.

Lemma amount_importance_nonneg (x : float) :
  nonneg x -> nonneg (normalizeScore (x / 10000) 0 1 * 0.15).
Proof.
  intros Hx. unfold normalizeScore.
  apply mul_nonneg; [| closed_number].
  apply div_nonneg; [| closed_number].
  apply sub_zero_nonneg.
  apply div_nonneg; [exact Hx | closed_number].
Qed.

Lemma deviation_importance_nonneg (x : float) :
  F64.isNaN x = false -> nonneg (calculateAmountDeviation x * 0.10).
Proof.
  intros Nx. unfold calculateAmountDeviation.
  apply mul_nonneg; [| closed_number].
  apply min_nonneg; [| closed_number].
  apply div_nonneg; [| closed_number].
  apply abs_nonneg, sub_not_NaN; [exact Nx | closed_number].
Qed.

(** The six entries that do not depend on the amount. *)
Lemma fixed_importances_nonneg (tx : Transaction) :
  nonneg ((if Js.truthy (location tx) then 0.3 else 0.7) * 0.12)
  /\ nonneg (calculateMerchantRiskScore (merchant_category tx) * 0.18)
  /\ nonneg ((if Js.truthy (device_info tx) then 0.2 else 0.8) * 0.10)
  /\ nonneg (calculateIpRiskScore (ip_address tx) * 0.15)
  /\ nonneg (calculateTimeScore (hour tx) * 0.08)
  /\ nonneg (0.5 * 0.12).
Proof.
  unfold calculateMerchantRiskScore, calculateIpRiskScore,
    calculateTimeScore, nonneg.
  repeat split.
  - destruct (Js.truthy _); reflexivity.
  - destruct (merchant_category tx) as [[| ? ?] |]; try reflexivity.
    destruct (Js.some _ _); reflexivity.
  - destruct (Js.truthy _); reflexivity.
  - destruct (ip_address tx) as [[| ? ?] |]; try reflexivity.
    destruct (_ || _); reflexivity.
  - destruct (hour tx) as [h |]; [| reflexivity].
    destruct (_ && _); [reflexivity |]. destruct (_ && _); reflexivity.
Qed.

Lemma pushed_nonneg (tx : Transaction) (fraudScore : float) :
  nonneg (F64.or_zero (amount tx)) ->
  List.Forall (fun f => nonneg (importance f)) (pushed tx fraudScore).
Proof.
  intros Ha. destruct (fixed_importances_nonneg tx) as (? & ? & ? & ? & ? & ?).
  unfold pushed. repeat constructor; cbn [importance]; try assumption.
  - apply amount_importance_nonneg, Ha.
  - apply deviation_importance_nonneg, or_zero_not_NaN.
Qed.

Lemma pushed_not_NaN (tx : Transaction) (fraudScore : float) :
  List.Forall (fun f => F64.isNaN (importance f) = false)
              (pushed tx fraudScore).
Proof.
  destruct (fixed_importances_nonneg tx) as (? & ? & ? & ? & ? & ?).
  unfold pushed. repeat constructor; cbn [importance];
    try (apply nonneg_not_NaN; assumption).
  - apply amount_importance_not_NaN, or_zero_not_NaN.
  - apply nonneg_not_NaN, deviation_importance_nonneg, or_zero_not_NaN.
Qed.

Lemma running_total_nonneg (l : list FeatureImportance) :
  List.Forall (fun f => nonneg (importance f)) l ->
  nonneg (running_total l).
Proof.
  unfold running_total.
  assert (G : forall acc, nonneg acc ->
              List.Forall (fun f => nonneg (importance f)) l ->
              nonneg (fold_left (fun sum f => sum + importance f) l acc)).
  { induction l as [| f l IH]; intros acc Ha Hl; cbn [fold_left];
      [exact Ha |].
    inversion Hl; subst. apply IH; [apply add_nonneg |]; assumption. }
  apply G. reflexivity.
Qed.

(** C8, amended: the feature list of an explanation is the eight entries
    pushed, in descending order of importance; its confidence is
    [min(sum + 0.3, 0.95)] put through [toFixed(3)] and parsed back, the
    sum being the one [reduce] runs over the ranked list, each addition
    rounded; it is never above 0.95, and it lies in [0, 0.95] when the
    amount is not negative, an amount that does not parse counting
    as 0. *)
Theorem explanation_ranked_and_confident (tx : Transaction)
        (fraudScore : float) :
  let r := explainPrediction tx fraudScore in
  Permutation (featureImportance r) (pushed tx fraudScore) /\
  descending (featureImportance r) /\
  confidence r
  = F64.toFixed3
      (F64.min (running_total (featureImportance r) + 0.3) 0.95) /\
  (0.95 <? confidence r) = false /\
  (nonneg (F64.or_zero (amount tx)) ->
   (0 <=? confidence r) = true /\ (confidence r <=? 0.95) = true).
Proof.
  intros r. subst r.
  cbn [explainPrediction featureImportance confidence].
  unfold calculateConfidence. fold (running_total
    (calculateFeatureImportance tx fraudScore)).
  set (l := calculateFeatureImportance tx fraudScore).
  set (v := running_total l + 0.3).
  assert (Hp : Permutation l (pushed tx fraudScore))
    by apply (sort64_perm importance).
  assert (Below : forall y, F64.isNaN y = false ->
             (F64.toFixed3 (F64.min y 0.95) <=? 0.95) = true).
  { intros y Ny. apply toFixed3_below.
    apply (min_cases y 0.95 Ny). reflexivity. }
  split; [exact Hp |]. split; [| split; [reflexivity | split]].
  - apply (sort64_sorted importance), pushed_not_NaN.
  - destruct (F64.isNaN v) eqn:Nv.
    + rewrite (min_NaN v 0.95 Nv). reflexivity.
    + specialize (Below v Nv). by_rank.
      rewrite ltb_rank by assumption. apply Z.ltb_ge. assumption.
  - intros Ha.
    assert (Hv : nonneg v).
    { apply add_nonneg; [| reflexivity]. apply running_total_nonneg.
      apply List.Forall_forall. intros f Hf.
      apply (Permutation_in _ Hp) in Hf.
      pose proof (pushed_nonneg tx fraudScore Ha) as Hall.
      rewrite List.Forall_forall in Hall. apply Hall, Hf. }
    split.
    + apply toFixed3_nonneg, min_nonneg; [exact Hv | reflexivity].
    + apply Below, nonneg_not_NaN, Hv.
Qed.

(** The rounding at work: at 300 the sum with 0.3 added is
    0.50950000000000006 and the confidence 0.51; at 3200 the deviation
    entry, 0.054000000000000006, is ranked before the merchant entry,
    0.054. *)
Example rounded_sums_decide :
  F64.min (running_total
             (featureImportance (explainPrediction (purchase_of 300) 0.15))
           + 0.3) 0.95 = 0.50950000000000006
  /\ confidence (explainPrediction (purchase_of 300) 0.15) = 0.51
  /\ map feature
         (firstn 3 (featureImportance
                      (explainPrediction (purchase_of 3200) 0.15)))
     = ["Frequency"; "Amount Deviation"; "Merchant Category"].
Proof. vm_compute. repeat split; reflexivity. Qed.

(** C8, as stated, fails below zero: the code takes a negative amount
    as it comes, and a refund of a million drags the sum, and with it the
    confidence, far below 0. *)
Lemma negative_amount_confidence :
  confidence (explainPrediction refund 0.5) = -14.18
  /\ (confidence (explainPrediction refund 0.5) <? 0) = true.
Proof. vm_compute. split; reflexivity. Qed.

End Explain64Props.

(** ** Threshold Store: the two gates of a recalibration *)

Section Sound64.
Import Thresholds64.
Local Open Scope float_scope.

Lemma get_set64 {V} (k k' : string) (v : V) (m : JsMap.t V) :
  JsMap.get k' (JsMap.set k v m)
  = if decide (k = k') then Some v else JsMap.get k' m.
Proof.
  unfold JsMap.get, JsMap.set. simpl.
  destruct (decide (k = k')) as [<- | Hne].
  - apply lookup_insert_eq.
  - apply lookup_insert_ne, Hne.
Qed.

Lemma keys_set64 {V} (k : string) (v : V) (m : JsMap.t V) :
  is_Some (JsMap.get k m) -> JsMap.keys (JsMap.set k v m) = JsMap.keys m.
Proof.
  intros [v0 H]. unfold JsMap.get in H. unfold JsMap.keys, JsMap.set. simpl.
  rewrite H. reflexivity.
Qed.

(** The part of [sound_store] that the empty store has too. *)
Lemma keyed_set (k : string) (config : ThresholdConfig)
      (m : JsMap.t ThresholdConfig) :
  merchantCategory config = k ->
  JsMap.wf m /\ (forall k' c, JsMap.get k' m = Some c ->
                              merchantCategory c = k') ->
  JsMap.wf (JsMap.set k config m) /\
  (forall k' c, JsMap.get k' (JsMap.set k config m) = Some c ->
                merchantCategory c = k').
Proof.
  intros Hk [Hwf Hc]. split; [apply wf_set, Hwf |].
  intros k' c. rewrite get_set64.
  destruct (decide (k = k')) as [<- | _]; [| apply Hc].
  intros [= <-]. exact Hk.
Qed.

Lemma sound_set (k : string) (config : ThresholdConfig) (e : Engine) :
  merchantCategory config = k ->
  sound_store e ->
  sound_store (with_cache (JsMap.set k config (thresholdCache e)) e).
Proof.
  intros Hk (Hwf & Hd & Hc).
  destruct (keyed_set k config (thresholdCache e) Hk (conj Hwf Hc))
    as [Hwf' Hc'].
  split; [exact Hwf' |]. split; [| exact Hc'].
  cbn [with_cache thresholdCache]. rewrite get_set64.
  destruct (decide _); [eexists; reflexivity | exact Hd].
Qed.

Lemma sound_updateThreshold (k : string) (x : float) (e : Engine) :
  sound_store e -> sound_store (updateThreshold k x e).
Proof.
  intros H. unfold updateThreshold.
  destruct (JsMap.get k (thresholdCache e)) as [config |] eqn:Hget;
    [| exact H].
  apply (sound_set k (set_fraudThreshold x config) e); [| exact H].
  destruct H as (_ & _ & Hc). exact (Hc _ _ Hget).
Qed.

Lemma sound_constructor : sound_store constructor.
Proof.
  assert (H : JsMap.wf (thresholdCache constructor) /\
              forall k c, JsMap.get k (thresholdCache constructor) = Some c ->
                          merchantCategory c = k).
  { unfold constructor, initializeDefaultThresholds, defaultThresholds.
    cbn [fold_left with_cache thresholdCache merchantCategory mkConfig].
    repeat (apply keyed_set; [reflexivity |]).
    split; [apply wf_empty |]. intros k c. unfold JsMap.get. simpl.
    rewrite lookup_empty. discriminate. }
  destruct H as [Hwf Hc]. split; [exact Hwf |]. split; [| exact Hc].
  vm_compute. eexists. reflexivity.
Qed.

Lemma sound_fold_set {A} (key : A -> string) (value : A -> ThresholdConfig)
      (l : list A) (e : Engine) :
  (forall a, merchantCategory (value a) = key a) ->
  sound_store e ->
  sound_store
    (fold_left
       (fun e a =>
          with_cache (JsMap.set (key a) (value a) (thresholdCache e)) e)
       l e).
Proof.
  intros Hk. revert e.
  induction l as [| a l IH]; intros e H; simpl; [exact H |].
  apply IH, sound_set; [apply Hk | exact H].
Qed.

Lemma getThreshold_total (e : Engine) (c : option string) :
  is_Some (JsMap.get "default" (thresholdCache e)) ->
  is_Some (getThreshold e c).
Proof.
  intros [d Hd]. unfold getThreshold, lookupConfig.
  destruct c as [c |]; [destruct (Js.truthy (Some c)) |].
  - destruct (JsMap.get (Js.toLowerCase c) (thresholdCache e));
      [| rewrite Hd]; eexists; reflexivity.
  - rewrite Hd. eexists. reflexivity.
  - rewrite Hd. eexists. reflexivity.
Qed.

Lemma calculateCategoryMetrics_total (e : Engine) (db : TxQuery)
      (k : string) :
  is_Some (JsMap.get "default" (thresholdCache e)) ->
  is_Some (calculateCategoryMetrics e db k).
Proof.
  intros Hd. unfold calculateCategoryMetrics.
  destruct (db k); [| eexists; reflexivity].
  destruct (getThreshold_total e (Some k) Hd) as [t ->].
  eexists. reflexivity.
Qed.

Section Turns.
Variables (db : TxQuery) (clock : string -> Z).

(** On a sound store no turn throws. *)
Lemma adjust_segment_turn (e : Engine) (adjs : list ThresholdAdjustment)
      (k : string) :
  sound_store e ->
  adjust_segment db clock k (e, adjs) = Some (turn db clock (e, adjs) k).
Proof.
  intros (_ & Hd & _). unfold adjust_segment, turn, turn_decision.
  cbn [fst snd].
  destruct (JsMap.get k (thresholdCache e)) as [config |]; [| reflexivity].
  cbn [mbind option_bind].
  destruct (calculateCategoryMetrics_total e db k Hd) as [metrics ->].
  cbn [mbind option_bind].
  destruct (_ <? sampleSizeMinimum config); [reflexivity |].
  destruct (calculateOptimalThreshold _ _ _) as [adjustment |];
    [| reflexivity].
  cbn [mbind option_bind]. destruct (0.02 <? _); reflexivity.
Qed.

Lemma sound_turn (st : Engine * list ThresholdAdjustment) (k : string) :
  sound_store (fst st) -> sound_store (fst (turn db clock st k)).
Proof.
  intros H. unfold turn. destruct (turn_decision _ _ _ _); [| exact H].
  apply sound_updateThreshold, H.
Qed.

Lemma sound_turns (ks : list string)
      (st : Engine * list ThresholdAdjustment) :
  sound_store (fst st) ->
  sound_store (fst (fold_left (turn db clock) ks st)).
Proof.
  revert st. induction ks as [| k ks IH]; intros st H; [exact H |].
  apply IH, sound_turn, H.
Qed.

Lemma adjust_loop_turns (ks : list string)
      (st : Engine * list ThresholdAdjustment) :
  sound_store (fst st) ->
  adjust_loop db clock ks st = (fold_left (turn db clock) ks st, true).
Proof.
  revert st. induction ks as [| k ks IH]; intros [e adjs] H; [reflexivity |].
  cbn [adjust_loop fold_left]. rewrite (adjust_segment_turn e adjs k H).
  apply IH, sound_turn, H.
Qed.

(** A recalibration of a sound store runs to its end. *)
Lemma adjustThresholds_turns (e : Engine) :
  sound_store e ->
  adjustThresholdsBasedOnPerformance db clock e
  = (fst (fold_left (turn db clock) (JsMap.keys (thresholdCache e)) (e, [])),
     Some (snd (fold_left (turn db clock) (JsMap.keys (thresholdCache e))
                  (e, [])))).
Proof.
  intros H. unfold adjustThresholdsBasedOnPerformance.
  rewrite adjust_loop_turns by exact H.
  destruct (fold_left _ _ _). reflexivity.
Qed.

Lemma sound_recalibration (e : Engine) :
  sound_store e ->
  sound_store (fst (adjustThresholdsBasedOnPerformance db clock e)).
Proof.
  intros H. rewrite adjustThresholds_turns by exact H.
  apply sound_turns, H.
Qed.

End Turns.

Lemma sound_op (op : StoreOp) (e : Engine) :
  sound_store e -> sound_store (apply_op e op).
Proof.
  intros H. destruct op as [[rows |] | config | db clock]; simpl.
  - apply (sound_fold_set merchant_category config_of_row);
      [reflexivity | exact H].
  - exact H.
  - apply (sound_set (merchantCategory config) config e); [reflexivity | exact H].
  - apply sound_recalibration, H.
Qed.

(** Every store that the operations reach is sound. *)
Lemma sound_run (ops : list StoreOp) : sound_store (run ops).
Proof.
  unfold run. generalize sound_constructor. generalize constructor as e.
  induction ops as [| op ops IH]; intros e H; simpl; [exact H |].
  apply IH, sound_op, H.
Qed.

End Sound64.

Section Frame64.
Import Thresholds64.
Local Open Scope float_scope.
Variables (db : TxQuery) (clock : string -> Z).

Lemma get_updateThreshold64 (k k' : string) (x : float) (e : Engine) :
  JsMap.get k' (thresholdCache (updateThreshold k x e))
  = match JsMap.get k (thresholdCache e) with
    | Some config =>
        if decide (k = k') then Some (set_fraudThreshold x config)
        else JsMap.get k' (thresholdCache e)
    | None => JsMap.get k' (thresholdCache e)
    end.
Proof.
  unfold updateThreshold.
  destruct (JsMap.get k (thresholdCache e)) as [config |]; [| reflexivity].
  cbn [log with_cache thresholdCache]. apply get_set64.
Qed.

Lemma turn_decision_category (e : Engine) (k : string)
      (adjustment : ThresholdAdjustment) :
  sound_store e ->
  turn_decision db clock e k = Some adjustment ->
  is_Some (JsMap.get k (thresholdCache e)) /\
  adj_merchantCategory adjustment = k.
Proof.
  intros (_ & _ & Hc). unfold turn_decision.
  destruct (JsMap.get k (thresholdCache e)) as [config |] eqn:Hget;
    [| discriminate].
  cbn [mbind option_bind].
  destruct (calculateCategoryMetrics e db k) as [metrics |];
    [| discriminate].
  cbn [mbind option_bind]. destruct (_ <? sampleSizeMinimum config);
    [discriminate |].
  unfold calculateOptimalThreshold.
  destruct (proposed metrics config) as [raw delta].
  destruct (0.001 <? _); [| discriminate]. cbn [mbind option_bind].
  destruct (0.02 <? _); [| discriminate].
  intros [= <-]. split; [eexists; reflexivity |]. exact (Hc _ _ Hget).
Qed.

(** The turns of other keys leave the entry of [k] alone, return no
    record of it and write nothing for it. *)
Lemma turns_frame (k : string) (ks : list string) :
  k ∉ ks ->
  forall st, sound_store (fst st) ->
  exists adjs writes,
    snd (fold_left (turn db clock) ks st) = snd st ++ adjs /\
    dbLog (fst (fold_left (turn db clock) ks st))
    = dbLog (fst st) ++ writes /\
    JsMap.get k (thresholdCache (fst (fold_left (turn db clock) ks st)))
    = JsMap.get k (thresholdCache (fst st)) /\
    (forall a, a ∈ adjs -> adj_merchantCategory a <> k) /\
    (forall x, DbUpdate k x ∉ writes).
Proof.
  induction ks as [| k0 ks IH]; intros Hout [e adjs0] Hs.
  - exists [], []. cbn [fold_left fst snd]. rewrite !app_nil_r.
    repeat split; try reflexivity.
    + intros a Ha. inversion Ha.
    + intros x Hx. inversion Hx.
  - apply not_elem_of_cons in Hout as [Hne Hout].
    cbn [fold_left].
    pose proof (sound_turn db clock (e, adjs0) k0 Hs) as Hs'.
    destruct (IH Hout _ Hs') as (adjs & writes & Ha & Hw & Hg & Hna & Hnw).
    rewrite Ha, Hw, Hg. unfold turn in *. cbn [fst snd] in *.
    destruct (turn_decision db clock e k0) as [adjustment |] eqn:Hd.
    + destruct (turn_decision_category e k0 adjustment Hs Hd)
        as [[config Hget] Hcat].
      exists (adjustment :: adjs).
      exists (DbUpdate k0 (newThreshold adjustment) :: writes).
      cbn [fst snd]. rewrite <- !app_assoc.
      split; [reflexivity |]. split.
      { unfold updateThreshold. rewrite Hget.
        cbn [log with_cache dbLog]. rewrite <- app_assoc. reflexivity. }
      split.
      { rewrite get_updateThreshold64, Hget.
        destruct (decide (k0 = k)) as [E | _]; [| reflexivity].
        exfalso. apply Hne. symmetry. exact E. }
      split.
      { intros a Hin. apply elem_of_cons in Hin as [-> | Hin];
          [| apply Hna, Hin].
        rewrite Hcat. intros E. apply Hne. symmetry. exact E. }
      intros x Hin. apply elem_of_cons in Hin as [E | Hin];
        [| exact (Hnw _ Hin)].
      injection E as E _. apply Hne. exact E.
    + exists adjs, writes. cbn [fst snd].
      repeat split; try reflexivity; assumption.
Qed.

Lemma keys_split (k : string) (ks : list string) :
  NoDup ks -> k ∈ ks ->
  exists after,
    ks = keys_before k ks ++ k :: after /\
    (k ∉ keys_before k ks) /\ (k ∉ after).
Proof.
  induction ks as [| k0 ks IH]; intros Hnd Hin; [inversion Hin |].
  apply NoDup_cons in Hnd as [Hk0 Hnd]. cbn [keys_before].
  destruct (String.eqb_spec k0 k) as [-> | Hne].
  - exists ks. split; [reflexivity |]. split; [| exact Hk0].
    intros H. inversion H.
  - apply elem_of_cons in Hin as [E | Hin];
      [exfalso; apply Hne; symmetry; exact E |].
    destruct (IH Hnd Hin) as (after & E & Hb & Ha).
    exists after. split; [cbn [app]; f_equal; exact E |].
    split; [| exact Ha].
    intros H. apply elem_of_cons in H as [E' | H];
      [apply Hne; symmetry; exact E' | exact (Hb H)].
Qed.

Lemma calculateOptimalThreshold_gate64 (now : Z) (metrics : Metrics)
      (config : ThresholdConfig) :
  calculateOptimalThreshold now metrics config
  = if 0.001 <? abs (snd (proposed metrics config))
    then Some (built_record now metrics config) else None.
Proof.
  unfold calculateOptimalThreshold, built_record.
  destruct (proposed metrics config) as [raw delta]. reflexivity.
Qed.

(** What exceeds 0.02 exceeds 0.001. *)
Lemma above_both_gates (a : float) :
  (0.02 <? a) = true -> (0.001 <? a) = true.
Proof.
  intros H. by_rank.
  apply ltb_of_rank; [reflexivity | assumption |].
  assert (R : (rank 0.001 < rank 0.02)%Z) by (vm_compute; reflexivity).
  lia.
Qed.

Lemma turn_decision_gate (e : Engine) (k : string)
      (config : ThresholdConfig) (metrics : Metrics) :
  JsMap.get k (thresholdCache e) = Some config ->
  calculateCategoryMetrics e db k = Some metrics ->
  (F64.of_nat (sampleCount metrics) <? sampleSizeMinimum config) = false ->
  turn_decision db clock e k
  = if 0.02 <? abs (snd (proposed metrics config))
    then Some (built_record (clock k) metrics config) else None.
Proof.
  intros Hget Hm Hn. unfold turn_decision. rewrite Hget, Hm.
  cbn [mbind option_bind]. rewrite Hn.
  rewrite calculateOptimalThreshold_gate64.
  destruct (0.02 <? _) eqn:H2.
  - rewrite (above_both_gates _ H2). cbn [mbind option_bind].
    cbn [built_record adjustmentFactor]. rewrite H2. reflexivity.
  - destruct (0.001 <? _); [| reflexivity]. cbn [mbind option_bind].
    cbn [built_record adjustmentFactor]. rewrite H2. reflexivity.
Qed.

(** C2, amended: in a recalibration of a store that the operations have
    reached, for a segment that meets its minimum sample size, the
    metrics being those its turn of the loop computes,
    [calculateOptimalThreshold] builds an adjustment record exactly when
    the magnitude of the delta before clamping exceeds 0.001; the list
    that the recalibration returns holds a record of the segment exactly
    when that magnitude exceeds 0.02, which is also exactly when the
    clamped threshold is stored in the cache and written to the record
    store.  The two constants are distinct. *)
Theorem recalibrate_two_gates (ops : list StoreOp) (k : string)
        (config : ThresholdConfig) (metrics : Metrics) :
  let e := run ops in
  JsMap.get k (thresholdCache e) = Some config ->
  calculateCategoryMetrics (engine_at db clock e k) db k = Some metrics ->
  (F64.of_nat (sampleCount metrics) <? sampleSizeMinimum config) = false ->
  let delta := snd (proposed metrics config) in
  let clamped :=
    F64.max (minThreshold config)
            (F64.min (fst (proposed metrics config)) (maxThreshold config)) in
  let out := adjustThresholdsBasedOnPerformance db clock e in
  (is_Some (calculateOptimalThreshold (clock k) metrics config)
   <-> (0.001 <? abs delta) = true) /\
  exists adjustments writes,
    snd out = Some adjustments /\
    dbLog (fst out) = dbLog e ++ writes /\
    ((exists a, a ∈ adjustments /\ adj_merchantCategory a = k)
     <-> (0.02 <? abs delta) = true) /\
    ((exists x, DbUpdate k x ∈ writes) <-> (0.02 <? abs delta) = true) /\
    ((0.02 <? abs delta) = true ->
     built_record (clock k) metrics config ∈ adjustments /\
     DbUpdate k clamped ∈ writes) /\
    JsMap.get k (thresholdCache (fst out))
    = Some (if 0.02 <? abs delta
            then set_fraudThreshold clamped config else config).
Proof.
  intros e Hget Hm Hn delta clamped out.
  pose proof (sound_run ops) as Hs. fold e in Hs.
  split.
  { rewrite calculateOptimalThreshold_gate64. fold delta.
    destruct (0.001 <? abs delta).
    - split; [reflexivity | eexists; reflexivity].
    - split; [intros [? [=]] | discriminate]. }
  assert (Hin : k ∈ JsMap.keys (thresholdCache e)).
  { destruct Hs as ((_ & Hkeys) & _). apply Hkeys. exists config. exact Hget. }
  destruct (keys_split k (JsMap.keys (thresholdCache e)))
    as (after & Eks & Hb & Ha); [apply Hs | exact Hin |].
  set (before := keys_before k (JsMap.keys (thresholdCache e))) in *.
  assert (E1 : engine_at db clock e k
               = fst (fold_left (turn db clock) before (e, []))).
  { unfold engine_at. fold before.
    rewrite adjust_loop_turns by exact Hs. reflexivity. }
  assert (Hout : out = (fst (fold_left (turn db clock)
                               (before ++ k :: after) (e, [])),
                        Some (snd (fold_left (turn db clock)
                                     (before ++ k :: after) (e, []))))).
  { subst out. rewrite (adjustThresholds_turns db clock e Hs), Eks.
    reflexivity. }
  rewrite Hout. cbn [fst snd]. rewrite fold_left_app. cbn [fold_left].
  set (st1 := fold_left (turn db clock) before (e, [])) in *.
  assert (Hs1 : sound_store (fst st1)) by (apply sound_turns, Hs).
  destruct (turns_frame k before Hb (e, []) Hs)
    as (adjs1 & writes1 & Ea1 & Ew1 & Eg1 & Hna1 & Hnw1).
  fold st1 in Ea1, Ew1, Eg1. cbn [fst snd app] in Ea1, Ew1, Eg1.
  rewrite Hget in Eg1. rewrite E1 in Hm.
  pose proof (turn_decision_gate (fst st1) k config metrics Eg1 Hm Hn)
    as Hd. fold delta in Hd.
  assert (Hs2 : sound_store (fst (turn db clock st1 k)))
    by (apply sound_turn, Hs1).
  destruct (turns_frame k after Ha (turn db clock st1 k) Hs2)
    as (adjs2 & writes2 & Ea2 & Ew2 & Eg2 & Hna2 & Hnw2).
  rewrite Ea2, Ew2, Eg2. unfold turn. rewrite Hd.
  destruct (0.02 <? abs delta) eqn:H2; cbn [fst snd].
  - exists (adjs1 ++ [built_record (clock k) metrics config] ++ adjs2),
           (writes1 ++ [DbUpdate k clamped] ++ writes2).
    split; [rewrite Ea1, <- !app_assoc; reflexivity |].
    split.
    { unfold updateThreshold. rewrite Eg1.
      cbn [log with_cache dbLog built_record newThreshold].
      rewrite Ew1, <- !app_assoc. reflexivity. }
    assert (Hrec : built_record (clock k) metrics config
                   ∈ adjs1 ++ [built_record (clock k) metrics config]
                       ++ adjs2).
    { apply elem_of_app. right. left. }
    assert (Hwr : DbUpdate k clamped
                  ∈ writes1 ++ [DbUpdate k clamped] ++ writes2).
    { apply elem_of_app. right. left. }
    split; [split; [reflexivity | intros _] |].
    { eexists. split; [exact Hrec |].
      destruct Hs as (_ & _ & Hc). exact (Hc _ _ Hget). }
    split; [split; [reflexivity | intros _; eexists; exact Hwr] |].
    split; [intros _; split; assumption |].
    rewrite get_updateThreshold64, Eg1.
    destruct (decide (k = k)) as [_ | []]; reflexivity.
  - exists (adjs1 ++ adjs2), (writes1 ++ writes2).
    split; [rewrite Ea1; reflexivity |].
    split; [rewrite Ew1, <- app_assoc; reflexivity |].
    split; [split; [| discriminate] |].
    { intros (a & Hain & Hk).
      apply elem_of_app in Hain as [Hain | Hain];
        [destruct (Hna1 _ Hain Hk) | destruct (Hna2 _ Hain Hk)]. }
    split; [split; [| discriminate] |].
    { intros (x & Hx).
      apply elem_of_app in Hx as [Hx | Hx];
        [destruct (Hnw1 _ Hx) | destruct (Hnw2 _ Hx)]. }
    split; [discriminate | exact Eg1].
Qed.

End Frame64.

Section TwoGatesAtSeed64.
Import Thresholds64.
Local Open Scope float_scope.

(** C2, as stated, fails between the two constants: the grocery segment
    meets its minimum of 100 samples and its delta before clamping,
    0.08 * (0.2 - 0.10), is above 0.001 and not above 0.02; a record is
    built, yet the returned list holds none. *)
Lemma small_adjustment_not_returned :
  let e := constructor in
  exists config metrics,
    JsMap.get "grocery" (thresholdCache e) = Some config /\
    calculateCategoryMetrics e false_alarms "grocery" = Some metrics /\
    (F64.of_nat (sampleCount metrics) <? sampleSizeMinimum config) = false /\
    snd (proposed metrics config) = 0.08 * (0.2 - 0.10) /\
    (0.001 <? abs (snd (proposed metrics config))) = true /\
    (0.02 <? abs (snd (proposed metrics config))) = false /\
    is_Some (calculateOptimalThreshold 0 metrics config) /\
    snd (adjustThresholdsBasedOnPerformance false_alarms
           (fun _ => 0%Z) e) = Some [].
Proof.
  do 2 eexists. vm_compute.
  repeat (split; [first [reflexivity | eexists; reflexivity] |]).
  reflexivity.
Qed.

Lemma recalibrate_two_gates_witness :
  exists adjustments a,
    snd (adjustThresholdsBasedOnPerformance overlooked_frauds
           (fun _ => 0%Z) (run [])) = Some adjustments /\
    a ∈ adjustments /\ adj_merchantCategory a = "money_transfer".
Proof.
  edestruct (recalibrate_two_gates overlooked_frauds (fun _ => 0%Z)
               [] "money_transfer")
    as (_ & adjustments & writes & Hret & _ & Hlist & _).
  - vm_compute. reflexivity.
  - vm_compute. reflexivity.
  - vm_compute. reflexivity.
  - destruct (proj2 Hlist) as (a & Ha & Hk); [vm_compute; reflexivity |].
    exists adjustments, a. split; [exact Hret | split; assumption].
Defined.

End TwoGatesAtSeed64.

(** * Further properties of the code *)

(** ** Threshold Store: metrics, lookup and the frame of a recalibration *)

Section MetricsProps.
Import Thresholds.

Lemma count_tx_total (threshold : Q) (c : Counts) (tx : TxRow) :
  let c' := count_tx threshold c tx in
  (falsePositives c' + falseNegatives c' + truePositives c'
   + trueNegatives c'
   = S (falsePositives c + falseNegatives c + truePositives c
        + trueNegatives c))%nat.
Proof.
  unfold count_tx.
  destruct (Js.gt _ _), (tx_is_fraudulent tx); simpl; lia.
Qed.

Lemma counts_total (threshold : Q) (data : list TxRow) (c : Counts) :
  let c' := fold_left (count_tx threshold) data c in
  (falsePositives c' + falseNegatives c' + truePositives c'
   + trueNegatives c'
   = length data + (falsePositives c + falseNegatives c + truePositives c
                    + trueNegatives c))%nat.
Proof.
  revert c. induction data as [| tx data IH]; intros c; simpl; [lia |].
  specialize (IH (count_tx threshold c tx)). cbv zeta in IH.
  pose proof (count_tx_total threshold c tx) as H. cbv zeta in H.
  rewrite IH, H. lia.
Qed.

Lemma Qnat_le (a b : nat) : (a <= b)%nat -> Qnat a <= Qnat b.
Proof. intros H. unfold Qnat. rewrite <- Zle_Qle. lia. Qed.

Lemma Qnat_pos (n : nat) : (0 < n)%nat -> 0 < Qnat n.
Proof.
  intros H. unfold Qnat. change 0 with (inject_Z 0). rewrite <- Zlt_Qlt. lia.
Qed.

Lemma quotient_in_unit (a n : nat) :
  (a <= n)%nat -> (0 < n)%nat -> 0 <= Qnat a / Qnat n <= 1.
Proof.
  intros Han Hn. pose proof (Qnat_pos n Hn) as Hpos.
  pose proof (Qnat_le 0 a ltac:(lia)) as Ha0. change (Qnat 0) with 0 in Ha0.
  pose proof (Qnat_le a n Han) as Hle. split.
  - apply Qle_shift_div_l; [exact Hpos | lra].
  - apply Qle_shift_div_r; [exact Hpos | lra].
Qed.

Lemma ratio_in_unit (a n : nat) : (a <= n)%nat -> 0 <= ratio a n <= 1.
Proof.
  intros H. unfold ratio. destruct (0 <? n)%nat eqn:Hn; [| lra].
  apply Nat.ltb_lt in Hn. apply quotient_in_unit; assumption.
Qed.

(** X1: whatever the transactions and the threshold, the metrics of a
    segment are rates: the false-positive rate, the false-negative rate
    and the accuracy lie in [0,1], and the sample count is the number of
    rows that the query returned, 0 when it failed. *)
Theorem metrics_are_rates (e : Engine) (db : TxQuery) (k : string)
        (metrics : Metrics) :
  calculateCategoryMetrics e db k = Some metrics ->
  0 <= falsePositiveRate metrics <= 1 /\
  0 <= falseNegativeRate metrics <= 1 /\
  0 <= detectionAccuracy metrics <= 1 /\
  sampleCount metrics = match db k with
                        | Some data => length data
                        | None => 0%nat
                        end.
Proof.
  unfold calculateCategoryMetrics. destruct (db k) as [data |].
  - destruct (getThreshold e (Some k)) as [threshold |]; [| discriminate].
    cbn [mbind option_bind]. intros [= <-].
    cbn [falsePositiveRate falseNegativeRate detectionAccuracy sampleCount].
    pose proof (counts_total threshold data
                  {| falsePositives := 0; falseNegatives := 0;
                     truePositives := 0; trueNegatives := 0 |}) as Ht.
    cbv zeta in Ht. cbn [falsePositives falseNegatives truePositives
                         trueNegatives] in Ht.
    set (c := fold_left (count_tx threshold) data _) in *.
    split; [apply ratio_in_unit; lia |].
    split; [apply ratio_in_unit; lia |].
    split; [apply quotient_in_unit; lia | reflexivity].
  - intros [= <-]. simpl. repeat split; lra.
Qed.

Lemma metrics_are_rates_witness :
  exists metrics,
    calculateCategoryMetrics constructor missed_frauds "money_transfer"
    = Some metrics /\
    0 <= falseNegativeRate metrics <= 1 /\ sampleCount metrics = 50%nat.
Proof.
  eexists. split; [vm_compute; reflexivity |].
  edestruct (metrics_are_rates constructor missed_frauds "money_transfer")
    as (_ & Hn & _ & Hc); [vm_compute; reflexivity |].
  split; [exact Hn | exact Hc].
Defined.

End MetricsProps.

Section LookupProps.
Import Thresholds.

Lemma lower_ascii_idempotent (c : ascii) :
  Js.lower_ascii (Js.lower_ascii c) = Js.lower_ascii c.
Proof.
  destruct c as [[] [] [] [] [] [] [] []]; vm_compute; reflexivity.
Qed.

Lemma toLowerCase_idempotent (s : string) :
  Js.toLowerCase (Js.toLowerCase s) = Js.toLowerCase s.
Proof.
  induction s as [| c s IH]; simpl; [reflexivity |].
  rewrite lower_ascii_idempotent, IH. reflexivity.
Qed.

Lemma toLowerCase_empty (s : string) : Js.toLowerCase s = "" <-> s = "".
Proof. destruct s; simpl; split; (reflexivity || discriminate). Qed.

Lemma truthy_nonempty (s : string) :
  Js.truthy (Some s) = true <-> s <> "".
Proof. destruct s; simpl; split; (congruence || discriminate || auto). Qed.

(** The lookup of a non-empty category: the entry under its lower-cased
    form, else the default one. *)
Lemma lookupConfig_nonempty (e : Engine) (c : string) :
  c <> "" ->
  lookupConfig e (Some c)
  = match JsMap.get (Js.toLowerCase c) (thresholdCache e) with
    | Some config => Some config
    | None => JsMap.get "default" (thresholdCache e)
    end.
Proof.
  intros Hc. unfold lookupConfig.
  rewrite (proj2 (truthy_nonempty c) Hc). reflexivity.
Qed.

Lemma lookupConfig_empty (e : Engine) :
  lookupConfig e (Some "") = JsMap.get "default" (thresholdCache e).
Proof. reflexivity. Qed.

(** X2: the lookup ignores the case of the category: two categories with
    the same lower-cased form get the same configuration and the same
    threshold. *)
Theorem lookup_ignores_case (e : Engine) (c1 c2 : string) :
  Js.toLowerCase c1 = Js.toLowerCase c2 ->
  getFullConfig e (Some c1) = getFullConfig e (Some c2) /\
  getThreshold e (Some c1) = getThreshold e (Some c2).
Proof.
  intros H.
  assert (Hl : lookupConfig e (Some c1) = lookupConfig e (Some c2)).
  { destruct (decide (c1 = "")) as [-> | H1].
    - symmetry in H. apply toLowerCase_empty in H as ->. reflexivity.
    - assert (H2 : c2 <> "").
      { intros ->. apply H1, toLowerCase_empty. exact H. }
      rewrite !lookupConfig_nonempty, H by assumption. reflexivity. }
  unfold getFullConfig, getThreshold. rewrite Hl. split; reflexivity.
Qed.

Lemma lookup_ignores_case_witness :
  getThreshold constructor (Some "Money_Transfer")
  = getThreshold constructor (Some "MONEY_TRANSFER").
Proof.
  apply (lookup_ignores_case constructor "Money_Transfer" "MONEY_TRANSFER").
  reflexivity.
Defined.

(** X3: a configuration created under a lower-case, non-empty category is
    what every spelling of that category in ASCII characters then looks
    up. *)
Theorem created_config_found (e : Engine) (config : ThresholdConfig)
        (c : string) :
  ascii_only c = true ->
  Js.toLowerCase c = merchantCategory config ->
  c <> "" ->
  getFullConfig (createThresholdConfig config e) (Some c) = Some config /\
  getThreshold (createThresholdConfig config e) (Some c)
  = Some (fraudThreshold config).
Proof.
  intros _ Hk Hc.
  assert (Hl : lookupConfig (createThresholdConfig config e) (Some c)
               = Some config).
  { rewrite lookupConfig_nonempty by exact Hc.
    unfold createThresholdConfig. cbn [thresholdCache log with_cache].
    rewrite get_set, Hk. destruct (decide _) as [_ | []]; reflexivity. }
  unfold getFullConfig, getThreshold. rewrite Hl. split; reflexivity.
Qed.

Lemma created_config_found_witness :
  let config := mkConfig "pharmacy" 0.42 0.30 0.60 0.10 40 in
  getThreshold (createThresholdConfig config constructor) (Some "Pharmacy")
  = Some 0.42.
Proof.
  intros config.
  apply (created_config_found constructor config "Pharmacy");
    [reflexivity | reflexivity | discriminate].
Defined.

(** X4: a configuration created under a category that has an upper-case
    letter, or under the empty category, is never looked up: every lookup
    answers as before the creation. *)
Theorem created_config_hidden (e : Engine) (config : ThresholdConfig)
        (query : option string) :
  Js.toLowerCase (merchantCategory config) <> merchantCategory config
  \/ merchantCategory config = "" ->
  getFullConfig (createThresholdConfig config e) query
  = getFullConfig e query /\
  getThreshold (createThresholdConfig config e) query
  = getThreshold e query.
Proof.
  intros Hk. set (k := merchantCategory config) in *.
  assert (Hget : forall k', Js.toLowerCase k' = k' -> k' <> "" ->
             JsMap.get k' (thresholdCache (createThresholdConfig config e))
             = JsMap.get k' (thresholdCache e)).
  { intros k' Hlow Hne. unfold createThresholdConfig.
    cbn [thresholdCache log with_cache]. rewrite get_set. fold k.
    destruct (decide (k = k')) as [<- | _]; [| reflexivity].
    destruct Hk; contradiction. }
  assert (Hl : lookupConfig (createThresholdConfig config e) query
               = lookupConfig e query).
  { destruct query as [c |];
      [| apply (Hget "default"); [reflexivity | discriminate]].
    destruct (decide (c = "")) as [-> | Hc].
    - apply (Hget "default"); [reflexivity | discriminate].
    - rewrite !lookupConfig_nonempty by exact Hc.
      rewrite (Hget (Js.toLowerCase c));
        [| apply toLowerCase_idempotent
         | intros H; apply Hc, toLowerCase_empty, H].
      rewrite (Hget "default"); [reflexivity | reflexivity | discriminate]. }
  unfold getFullConfig, getThreshold. rewrite Hl. split; reflexivity.
Qed.

Lemma created_config_hidden_witness :
  let config := mkConfig "Pharmacy" 0.42 0.30 0.60 0.10 40 in
  getThreshold (createThresholdConfig config constructor) (Some "Pharmacy")
  = getThreshold constructor None.
Proof.
  intros config.
  destruct (created_config_hidden constructor config (Some "Pharmacy"))
    as [_ H]; [left; discriminate |].
  rewrite H. vm_compute. reflexivity.
Defined.

End LookupProps.

Section FrameProps.
Import Thresholds.
Variables (db : TxQuery) (clock : string -> Z).

(** A property of the engine that every applied adjustment keeps is kept
    by the loop, wherever it stops. *)
Lemma adjust_loop_invariant (P : Engine -> Prop) :
  (forall e k config metrics adjustment,
      P e ->
      JsMap.get k (thresholdCache e) = Some config ->
      calculateCategoryMetrics e db k = Some metrics ->
      calculateOptimalThreshold (clock k) metrics config = Some adjustment ->
      P (updateThreshold k (newThreshold adjustment) e)) ->
  forall ks e adjs,
    P e -> P (fst (fst (adjust_loop db clock ks (e, adjs)))).
Proof.
  intros Hstep ks.
  induction ks as [| k ks IH]; intros e adjs HP; cbn [adjust_loop];
    [exact HP |].
  destruct (adjust_segment db clock k (e, adjs)) as [[e' adjs'] |] eqn:H;
    [| exact HP].
  apply IH.
  apply adjust_segment_cases in H
      as [[-> _] | (config & metrics & adj & Hc & Hm & _ & Ha & _ & -> & _)];
    [exact HP |].
  exact (Hstep _ _ _ _ _ HP Hc Hm Ha).
Qed.

Lemma threshold_frame_refl (e : Engine) : threshold_frame e e.
Proof.
  split; [reflexivity |]. intros k.
  destruct (JsMap.get k (thresholdCache e)) as [[] |]; [| exact I].
  reflexivity.
Qed.

Lemma threshold_frame_update (e0 e : Engine) (k : string) (x : Q) :
  threshold_frame e0 e -> threshold_frame e0 (updateThreshold k x e).
Proof.
  intros [Hkeys Hget]. split.
  - rewrite <- Hkeys. unfold updateThreshold.
    destruct (JsMap.get k (thresholdCache e)) as [config |] eqn:Hk;
      [| reflexivity].
    unfold JsMap.get in Hk. unfold JsMap.keys. simpl. rewrite Hk. reflexivity.
  - intros k'. specialize (Hget k'). rewrite get_updateThreshold.
    destruct (JsMap.get k (thresholdCache e)) as [config |] eqn:Hk;
      [| exact Hget].
    destruct (decide (k = k')) as [<- | _]; [| exact Hget].
    rewrite Hk in Hget.
    destruct (JsMap.get k (thresholdCache e0)) as [c0 |]; [| exact Hget].
    unfold same_but_threshold in *. rewrite Hget. destruct c0. reflexivity.
Qed.

(** X5: a recalibration, whether it runs to its end or is cut short by an
    exception, adds no key, removes none, keeps their order and changes
    nothing of an entry but its threshold. *)
Theorem recalibration_frame (e : Engine) :
  threshold_frame e (fst (adjustThresholdsBasedOnPerformance db clock e)).
Proof.
  rewrite adjustThresholds_engine.
  apply (adjust_loop_invariant (threshold_frame e)).
  - intros e1 k config metrics adj H _ _ _.
    apply threshold_frame_update, H.
  - apply threshold_frame_refl.
Qed.

(** The loop appends one update to the log for each adjustment it appends
    to its list, with the same threshold. *)
Lemma adjust_loop_log (ks : list string) (e : Engine)
      (adjs : list ThresholdAdjustment) :
  let out := adjust_loop db clock ks (e, adjs) in
  exists new_adjs writes,
    snd (fst out) = adjs ++ new_adjs /\
    dbLog (fst (fst out)) = dbLog e ++ writes /\
    map written_threshold writes = map newThreshold new_adjs /\
    forallb is_update writes = true /\
    List.Forall (fun a => 0.02 < Qabs (adjustmentFactor a)) new_adjs.
Proof.
  revert e adjs.
  induction ks as [| k ks IH]; intros e adjs; cbn [adjust_loop].
  - exists [], []. rewrite !app_nil_r. repeat split; constructor.
  - destruct (adjust_segment db clock k (e, adjs)) as [[e' adjs'] |] eqn:H.
    + specialize (IH e' adjs'). cbv zeta in IH.
      destruct IH as (new_adjs & writes & Ha & Hl & Hm & Hu & Hg).
      apply adjust_segment_cases in H
          as [[-> ->] | (config & metrics & adj & Hc & _ & _ & _ & Hgate
                         & -> & ->)].
      * exists new_adjs, writes. repeat split; assumption.
      * exists (adj :: new_adjs), (DbUpdate k (newThreshold adj) :: writes).
        rewrite Ha, Hl, <- app_assoc. unfold updateThreshold. rewrite Hc.
        cbn [log dbLog with_cache]. rewrite <- app_assoc.
        split; [reflexivity |]. split; [reflexivity |].
        split; [simpl; rewrite Hm; reflexivity |].
        split; [exact Hu |].
        constructor; [apply gt_true in Hgate; exact Hgate | exact Hg].
    + exists [], []. rewrite !app_nil_r. repeat split; constructor.
Qed.

(** X6: the adjustments that a recalibration returns and the updates it
    sends to the record store correspond one to one, in order and with
    the same thresholds, and each returned adjustment has a factor of
    magnitude above 0.02. *)
Theorem returned_adjustments_are_written (e : Engine)
        (adjustments : list ThresholdAdjustment) :
  snd (adjustThresholdsBasedOnPerformance db clock e) = Some adjustments ->
  exists writes,
    dbLog (fst (adjustThresholdsBasedOnPerformance db clock e))
    = dbLog e ++ writes /\
    map written_threshold writes = map newThreshold adjustments /\
    forallb is_update writes = true /\
    List.Forall (fun a => 0.02 < Qabs (adjustmentFactor a)) adjustments.
Proof.
  unfold adjustThresholdsBasedOnPerformance.
  pose proof (adjust_loop_log (JsMap.keys (thresholdCache e)) e []) as H.
  cbv zeta in H.
  destruct (adjust_loop _ _ _ _) as [[e' adjs] finished].
  destruct H as (new_adjs & writes & Ha & Hl & Hm & Hu & Hg).
  cbn [fst snd] in *. destruct finished; [| discriminate].
  intros [= <-]. subst adjs. exists writes. repeat split; assumption.
Qed.

End FrameProps.

Section FrameWitness.
Import Thresholds.

Lemma returned_adjustments_are_written_witness :
  exists adjustments writes,
    snd (adjustThresholdsBasedOnPerformance missed_frauds (fun _ => 0%Z)
           constructor) = Some adjustments /\
    dbLog (fst (adjustThresholdsBasedOnPerformance missed_frauds
                  (fun _ => 0%Z) constructor)) = writes /\
    map written_threshold writes = map newThreshold adjustments /\
    length adjustments = 1%nat.
Proof.
  eexists.
  edestruct (returned_adjustments_are_written missed_frauds (fun _ => 0%Z)
               constructor) as (writes & Hl & Hm & _);
    [vm_compute; reflexivity |].
  exists writes. split; [reflexivity |].
  split; [exact Hl |]. split; [exact Hm | reflexivity].
Defined.

(** X7: when the transactions query fails for every category, a
    recalibration changes nothing and returns the empty list, whatever
    the store holds. *)
Theorem failed_query_changes_nothing (clock : string -> Z) (e : Engine) :
  adjustThresholdsBasedOnPerformance (fun _ => None) clock e = (e, Some []).
Proof.
  unfold adjustThresholdsBasedOnPerformance.
  assert (H : forall ks, adjust_loop (fun _ => None) clock ks (e, [])
                         = (e, [], true)).
  { induction ks as [| k ks IH]; cbn [adjust_loop]; [reflexivity |].
    assert (Hs : adjust_segment (fun _ => None) clock k (e, [])
                 = Some (e, [])).
    { unfold adjust_segment.
      destruct (JsMap.get k (thresholdCache e)) as [config |];
        [| reflexivity].
      cbn [calculateCategoryMetrics mbind option_bind sampleCount].
      destruct (Js.lt _ _); [reflexivity |].
      unfold calculateOptimalThreshold, proposed. reflexivity. }
    rewrite Hs. exact IH. }
  rewrite H. reflexivity.
Qed.

End FrameWitness.

Section DirectionProps.
Import Thresholds.

(** Both branches of [calculateOptimalThreshold] move the threshold up
    when the adaptation rate is not negative. *)
Lemma proposed_not_below (metrics : Metrics) (config : ThresholdConfig) :
  0 <= adaptationRate config ->
  fraudThreshold config <= fst (proposed metrics config) /\
  0 <= snd (proposed metrics config).
Proof.
  intros Hr. unfold proposed.
  destruct (Js.gt (falsePositiveRate metrics) 0.15) eqn:Hp.
  - apply gt_true in Hp. cbn [fst snd].
    assert (0 <= adaptationRate config * (falsePositiveRate metrics - 0.10))
      by (apply Qmult_le_0_compat; lra).
    split; lra.
  - destruct (Js.gt (falseNegativeRate metrics) 0.10) eqn:Hn.
    + apply gt_true in Hn. cbn [fst snd].
      assert (0 <= adaptationRate config * (falseNegativeRate metrics - 0.10))
        by (apply Qmult_le_0_compat; lra).
      split; [| lra].
      assert (E : adaptationRate config * (0.10 - falseNegativeRate metrics)
                  == - (adaptationRate config
                        * (falseNegativeRate metrics - 0.10))) by ring.
      rewrite E. lra.
    + cbn [fst snd]. split; lra.
Qed.

Lemma adjustment_not_below (now : Z) (metrics : Metrics)
      (config : ThresholdConfig) (adjustment : ThresholdAdjustment) :
  calculateOptimalThreshold now metrics config = Some adjustment ->
  0 <= adaptationRate config ->
  fraudThreshold config <= maxThreshold config ->
  fraudThreshold config <= newThreshold adjustment.
Proof.
  rewrite calculateOptimalThreshold_gate.
  destruct (Js.gt _ _); [| discriminate]. intros [= <-] Hr Hmax.
  cbn [adjustment_of newThreshold].
  destruct (proposed_not_below metrics config Hr) as [Hup _].
  eapply Qle_trans; [| apply Q.le_max_r].
  apply Q.min_glb; assumption.
Qed.

Lemma constructor_rates :
  forall k config,
    JsMap.get k (thresholdCache constructor) = Some config ->
    0 <= adaptationRate config /\
    minThreshold config <= fraudThreshold config <= maxThreshold config.
Proof.
  intros k config. unfold JsMap.get. intros H.
  assert (Hall : map_Forall
                   (fun _ c => 0 <= adaptationRate c /\
                               minThreshold c <= fraudThreshold c
                               <= maxThreshold c)
                   (JsMap.entries (thresholdCache constructor))).
  { unfold constructor, initializeDefaultThresholds, defaultThresholds.
    cbn [fold_left with_cache JsMap.set JsMap.entries JsMap.empty
         thresholdCache merchantCategory mkConfig].
    repeat (apply map_Forall_insert_2; [simpl; lra |]).
    apply map_Forall_empty. }
  exact (Hall _ _ H).
Qed.

Lemma raised_from_seed_update (e : Engine) (k : string)
      (config : ThresholdConfig) (metrics : Metrics) (now : Z)
      (adjustment : ThresholdAdjustment) :
  raised_from_seed e ->
  JsMap.get k (thresholdCache e) = Some config ->
  calculateOptimalThreshold now metrics config = Some adjustment ->
  raised_from_seed (updateThreshold k (newThreshold adjustment) e).
Proof.
  intros Hinv Hc Ha k' config'. rewrite get_updateThreshold, Hc.
  destruct (decide (k = k')) as [<- | _]; [| apply Hinv].
  intros [= <-]. destruct (Hinv _ _ Hc) as (seeded & Hs & Hsame & Hle).
  destruct (constructor_rates _ _ Hs) as [Hrate Hb].
  exists seeded. split; [exact Hs |].
  assert (Hfields : adaptationRate config = adaptationRate seeded /\
                    minThreshold config = minThreshold seeded /\
                    maxThreshold config = maxThreshold seeded).
  { unfold same_but_threshold in Hsame. rewrite Hsame. repeat split. }
  destruct Hfields as (Hr & Hmin & Hmax).
  split.
  - unfold same_but_threshold in *. rewrite Hsame. destruct seeded.
    reflexivity.
  - cbn [set_fraudThreshold fraudThreshold].
    pose proof (adjustment_not_below _ _ _ _ Ha) as Hup.
    rewrite Hr, Hmax in Hup.
    pose proof (calculateOptimalThreshold_clamped _ _ _ _ Ha) as Hcl.
    rewrite Hmin, Hmax in Hcl. split; [| apply Hcl; lra].
    eapply Qle_trans; [apply Hle |]. apply Hup; [exact Hrate | apply Hle].
Qed.

(** X8: from the seeded store, no sequence of recalibrations ever lowers
    a threshold: every segment keeps its seeded configuration but for a
    threshold that is at least the seeded one. *)
Theorem thresholds_never_decrease (calls : list (TxQuery * (string -> Z)))
        (k : string) (config : ThresholdConfig) :
  JsMap.get k (thresholdCache (recalibrated calls)) = Some config ->
  exists seeded,
    In seeded defaultThresholds /\
    merchantCategory seeded = k /\
    config = set_fraudThreshold (fraudThreshold config) seeded /\
    fraudThreshold seeded <= fraudThreshold config.
Proof.
  assert (Hinv : raised_from_seed (recalibrated calls)).
  { unfold recalibrated.
    assert (H0 : raised_from_seed constructor).
    { intros k' c' Hc'. exists c'. split; [exact Hc' |].
      destruct (constructor_rates _ _ Hc') as [_ Hb].
      split; [destruct c'; reflexivity | lra]. }
    revert H0. generalize constructor as e.
    induction calls as [| [db clock] calls IH]; intros e H0; simpl;
      [exact H0 |].
    apply IH. rewrite adjustThresholds_engine.
    apply (adjust_loop_invariant db clock raised_from_seed); [| exact H0].
    intros e1 k1 c1 m1 a1 H1 Hc1 _ Ha1.
    exact (raised_from_seed_update _ _ _ _ _ _ H1 Hc1 Ha1). }
  intros Hget. destruct (Hinv _ _ Hget) as (seeded & Hs & Hsame & Hle & _).
  exists seeded. split; [| split; [| split; [exact Hsame | exact Hle]]].
  - revert Hs. clear. unfold JsMap.get.
    unfold constructor, initializeDefaultThresholds, defaultThresholds.
    cbn [fold_left with_cache JsMap.set JsMap.entries JsMap.empty
         thresholdCache merchantCategory mkConfig].
    repeat (rewrite lookup_insert;
            destruct (decide _) as [_ | _];
            [intros [= <-]; simpl; tauto |]).
    rewrite lookup_empty. discriminate.
  - destruct (proj2 constructor_ok _ _ Hs) as (_ & _ & Hcat). exact Hcat.
Qed.

Lemma thresholds_never_decrease_witness :
  exists config seeded,
    JsMap.get "money_transfer"
      (thresholdCache (recalibrated [(missed_frauds, fun _ => 0%Z)]))
    = Some config /\
    In seeded defaultThresholds /\
    fraudThreshold seeded <= fraudThreshold config.
Proof.
  eexists.
  edestruct (thresholds_never_decrease [(missed_frauds, fun _ => 0%Z)]
               "money_transfer") as (seeded & Hin & _ & _ & Hle);
    [vm_compute; reflexivity |].
  exists seeded. split; [vm_compute; reflexivity |].
  split; [exact Hin | exact Hle].
Defined.

End DirectionProps.

Section LoadProps.
Import Thresholds.

Lemma load_other_keys (rows : list ConfigRow) (e : Engine) (k : string) :
  (forall r, In r rows -> merchant_category r <> k) ->
  JsMap.get k (thresholdCache (loadThresholdsFromDatabase (Some rows) e))
  = JsMap.get k (thresholdCache e).
Proof.
  cbn [loadThresholdsFromDatabase]. revert e.
  induction rows as [| r rows IH]; intros e Hk; simpl; [reflexivity |].
  rewrite IH by (intros r' Hr'; apply Hk; right; exact Hr').
  cbn [thresholdCache with_cache]. rewrite get_set.
  destruct (decide _) as [Heq | _]; [| reflexivity].
  exfalso. apply (Hk r); [left; reflexivity | exact Heq].
Qed.

Lemma load_app (rows1 rows2 : list ConfigRow) (e : Engine) :
  loadThresholdsFromDatabase (Some (rows1 ++ rows2)) e
  = loadThresholdsFromDatabase (Some rows2)
      (loadThresholdsFromDatabase (Some rows1) e).
Proof. cbn [loadThresholdsFromDatabase]. apply fold_left_app. Qed.

(** X9: after a load, the entry of a category is the last row that the
    record store returned for it, whatever the cache held before and
    whatever rows came earlier; categories with no row are untouched. *)
Theorem load_last_row_wins (e : Engine) (before after : list ConfigRow)
        (row : ConfigRow) (k : string) :
  (forall r, In r after -> merchant_category r <> merchant_category row) ->
  (forall r, In r (before ++ row :: after) -> merchant_category r <> k) ->
  let e' := loadThresholdsFromDatabase (Some (before ++ row :: after)) e in
  JsMap.get (merchant_category row) (thresholdCache e')
  = Some (config_of_row row) /\
  JsMap.get k (thresholdCache e') = JsMap.get k (thresholdCache e).
Proof.
  intros Hafter Hk e'. subst e'. split; [| apply load_other_keys, Hk].
  rewrite load_app.
  change (row :: after) with ([row] ++ after). rewrite load_app.
  rewrite load_other_keys by exact Hafter.
  cbn [loadThresholdsFromDatabase fold_left thresholdCache with_cache].
  rewrite get_set. destruct (decide _) as [_ | []]; reflexivity.
Qed.

Lemma load_last_row_wins_witness :
  let row thr :=
    {| merchant_category := "grocery"; fraud_threshold := thr;
       dynamic_adjustment := true; min_threshold := 0.3;
       max_threshold := 0.8; adaptation_rate := 0.1;
       sample_size_minimum := 100 |} in
  let e' := loadThresholdsFromDatabase (Some ([row 0.4] ++ [row 0.6]))
                                       constructor in
  JsMap.get "grocery" (thresholdCache e') = Some (config_of_row (row 0.6)) /\
  JsMap.get "crypto" (thresholdCache e')
  = JsMap.get "crypto" (thresholdCache constructor).
Proof.
  intros row e'.
  apply (load_last_row_wins constructor [row 0.4] [] (row 0.6) "crypto").
  - intros r [].
  - intros r [<- | [<- | []]]; discriminate.
Defined.

End LoadProps.

(** ** Explanation Generator: the other outputs *)

Section ExplainMoreProps.
Import Explain.

(** X10: the ranked feature list is a rearrangement of the eight entries
    pushed: it always has eight entries and names each of the eight
    features once. *)
Theorem feature_list_complete (tx : Transaction) (fraudScore : Q) :
  let l := calculateFeatureImportance tx fraudScore in
  Permutation l (pushed tx fraudScore) /\
  length l = 8%nat /\
  Permutation (map feature l) feature_names.
Proof.
  intros l. subst l. unfold calculateFeatureImportance.
  pose proof (sort_perm importance (pushed tx fraudScore)) as H.
  split; [exact H |]. split.
  - rewrite (Permutation_length H). reflexivity.
  - rewrite (Permutation_map feature H). reflexivity.
Qed.

Lemma deviation_range (a : Q) : 0 <= calculateAmountDeviation a <= 1.
Proof.
  split; [apply deviation_nonneg |].
  unfold calculateAmountDeviation, Js.min. apply Q.le_min_r.
Qed.

Lemma deviation_saturated (a : Q) :
  5500 <= a -> calculateAmountDeviation a == 1.
Proof.
  intros Ha. unfold calculateAmountDeviation, Js.min, Js.abs.
  rewrite Qabs_pos by lra. apply Q.min_r. by_constant. lra.
Qed.

(** X11: the amount-deviation sub-score lies in [0,1]; it is 0 exactly at
    the amount 500 and 1 exactly when the amount is 5000 or more away
    from 500. *)
Theorem deviation_in_unit (a : Q) :
  0 <= calculateAmountDeviation a <= 1 /\
  (calculateAmountDeviation a == 0 <-> a == 500) /\
  (calculateAmountDeviation a == 1 <-> 5000 <= Qabs (a - 500)).
Proof.
  unfold calculateAmountDeviation, Js.min, Js.abs.
  assert (Hd : Qabs (a - 500) / 5000 == Qabs (a - 500) * (1 # 5000))
    by (unfold Qdiv; reflexivity).
  rewrite Hd.
  assert (Habs : (a < 500 /\ Qabs (a - 500) == 500 - a) \/
                 (500 <= a /\ Qabs (a - 500) == a - 500)).
  { destruct (Qlt_le_dec a 500) as [Hlt | Hge].
    - left. split; [exact Hlt |]. rewrite Qabs_neg by lra. ring.
    - right. split; [exact Hge |]. rewrite Qabs_pos by lra. reflexivity. }
  set (d := Qabs (a - 500)) in *.
  destruct (Q.min_spec (d * (1 # 5000)) 1) as [[Hlt ->] | [Hge ->]];
    destruct Habs as [[Ha Habs] | [Ha Habs]];
    repeat split; intros; lra.
Qed.

Lemma ip_score_not_above (ip : option string) :
  Js.gt (calculateIpRiskScore ip) 0.6 = false.
Proof.
  unfold calculateIpRiskScore.
  destruct ip as [[| c r] |]; try reflexivity.
  destruct (_ || _); reflexivity.
Qed.

Lemma last_char_append (s t : string) :
  t <> "" -> last_char (s +:+ t) = last_char t.
Proof.
  intros Ht. induction s as [| c s IH]; [reflexivity |].
  simpl. rewrite IH.
  destruct (s +:+ t) eqn:E; [| reflexivity].
  destruct s; [simpl in E; contradiction | discriminate].
Qed.

Lemma high_risk_label (c t : string) :
  last_char t <> Some "y"%char -> c +:+ " is high-risk category" <> t.
Proof.
  intros Ht H. apply Ht. rewrite <- H.
  rewrite last_char_append by discriminate. reflexivity.
Qed.

Lemma merchant_label (c t : string) :
  last_char t <> Some "t"%char -> c +:+ " is established merchant" <> t.
Proof.
  intros Ht H. apply Ht. rewrite <- H.
  rewrite last_char_append by discriminate. reflexivity.
Qed.

(** Which of its first four rules a transaction triggers decides where
    the location and device entries stand: never beyond the fourth
    place. *)
Lemma risks_found_shape (tx : Transaction) (fraudScore : Q) :
  exists early late,
    risks_found tx fraudScore = early ++ late /\
    (length early <= 4)%nat /\
    (In "Transaction location not verified" early
     <-> Js.truthy (location tx) = false) /\
    (In "Device not recognized or trusted" early
     <-> Js.truthy (device_info tx) = false) /\
    ~ In "IP address has poor reputation" early /\
    (forall t, In t late ->
               t = Js.template (merchant_category tx)
                   +:+ " is high-risk category"
               \/ t = "Transaction during unusual hours").
Proof.
  unfold risks_found. rewrite ip_score_not_above.
  set (lbl := Js.template (merchant_category tx) +:+ " is high-risk category").
  set (late1 := if Js.gt (calculateMerchantRiskScore (merchant_category tx))
                         0.6 then [lbl] else []).
  set (late2 := match hour tx with
                | Some h => if (h <? 6)%Z || (23 <? h)%Z
                            then ["Transaction during unusual hours"]
                            else []
                | None => []
                end).
  set (early :=
         (if Js.gt fraudScore 0.7 then ["High fraud score detected"] else [])
         ++ (if Js.num_gt (amount tx) 5000
             then ["Unusually high transaction amount"] else [])
         ++ (if negb (Js.truthy (location tx))
             then ["Transaction location not verified"] else [])
         ++ (if negb (Js.truthy (device_info tx))
             then ["Device not recognized or trusted"] else [])).
  exists early, (late1 ++ late2). split.
  - subst early late1 late2.
    destruct (Js.gt fraudScore 0.7), (Js.num_gt (amount tx) 5000),
      (Js.truthy (location tx)), (Js.truthy (device_info tx)),
      (Js.gt (calculateMerchantRiskScore (merchant_category tx)) 0.6),
      (hour tx) as [h |]; try destruct ((h <? 6)%Z || (23 <? h)%Z);
      reflexivity.
  - subst early.
    split; [| split; [| split; [| split]]].
    + destruct (Js.gt fraudScore 0.7), (Js.num_gt (amount tx) 5000),
        (Js.truthy (location tx)), (Js.truthy (device_info tx)); simpl; lia.
    + destruct (Js.gt fraudScore 0.7), (Js.num_gt (amount tx) 5000),
        (Js.truthy (location tx)), (Js.truthy (device_info tx)); simpl;
        intuition discriminate.
    + destruct (Js.gt fraudScore 0.7), (Js.num_gt (amount tx) 5000),
        (Js.truthy (location tx)), (Js.truthy (device_info tx)); simpl;
        intuition discriminate.
    + destruct (Js.gt fraudScore 0.7), (Js.num_gt (amount tx) 5000),
        (Js.truthy (location tx)), (Js.truthy (device_info tx)); simpl;
        intuition discriminate.
    + intros t Ht. apply in_app_or in Ht as [Ht | Ht].
      * subst late1. destruct (Js.gt _ 0.6); [| destruct Ht].
        destruct Ht as [<- | []]. left. reflexivity.
      * subst late2. destruct (hour tx) as [h |]; [| destruct Ht].
        destruct (_ || _); [| destruct Ht].
        destruct Ht as [<- | []]. right. reflexivity.
Qed.

Lemma risk_factor_members (tx : Transaction) (fraudScore : Q) :
  let risks := identifyRiskFactors tx fraudScore in
  (length risks <= 5)%nat /\
  (In "Transaction location not verified" risks
   <-> Js.truthy (location tx) = false) /\
  (In "Device not recognized or trusted" risks
   <-> Js.truthy (device_info tx) = false) /\
  ~ In "IP address has poor reputation" risks.
Proof.
  intros risks. subst risks. unfold identifyRiskFactors, Js.slice0.
  destruct (risks_found_shape tx fraudScore)
    as (early & late & -> & Hlen & Hloc & Hdev & Hip & Hlate).
  assert (Hcut : forall t,
             In t (firstn 5 (early ++ late)) ->
             In t early \/ In t late).
  { intros t Ht. apply in_app_or.
    rewrite <- (firstn_skipn 5 (early ++ late)).
    apply in_or_app. left. exact Ht. }
  assert (Hkeep : forall t, In t early -> In t (firstn 5 (early ++ late))).
  { intros t Ht. rewrite List.firstn_app.
    apply in_or_app. left. rewrite List.firstn_all2 by lia. exact Ht. }
  assert (Hno : forall t,
             last_char t <> Some "y"%char ->
             t <> "Transaction during unusual hours" ->
             ~ In t late).
  { intros t Hy Hu Ht. destruct (Hlate t Ht) as [-> | ->].
    - eapply high_risk_label; [exact Hy | reflexivity].
    - apply Hu. reflexivity. }
  split; [rewrite List.length_firstn; lia |].
  split; [| split].
  - rewrite <- Hloc. split; [| apply Hkeep].
    intros H. destruct (Hcut _ H) as [He | Hl]; [exact He |].
    exfalso. revert Hl. apply Hno; discriminate.
  - rewrite <- Hdev. split; [| apply Hkeep].
    intros H. destruct (Hcut _ H) as [He | Hl]; [exact He |].
    exfalso. revert Hl. apply Hno; discriminate.
  - intros H. destruct (Hcut _ H) as [He | Hl]; [exact (Hip He) |].
    revert Hl. apply Hno; discriminate.
Qed.

(** X12: at most five risk factors are reported; a missing location and
    a missing device are always among them, whatever else applies; the
    poor-reputation factor for the IP address is never reported. *)
Theorem risk_factors_cut (tx : Transaction) (fraudScore : Q) :
  let risks := identifyRiskFactors tx fraudScore in
  (length risks <= 5)%nat /\
  (In "Transaction location not verified" risks
   <-> Js.truthy (location tx) = false) /\
  (In "Device not recognized or trusted" risks
   <-> Js.truthy (device_info tx) = false) /\
  ~ In "IP address has poor reputation" risks.
Proof.
  intros risks. split.
  - subst risks. unfold identifyRiskFactors, Js.slice0.
    rewrite List.length_firstn. lia.
  - apply (risk_factor_members tx fraudScore).
Qed.

Lemma safe_factor_location (tx : Transaction) :
  In "Transaction location verified" (identifySafeFactors tx)
  <-> Js.truthy (location tx) = true.
Proof.
  unfold identifySafeFactors.
  pose proof (merchant_label (Js.template (merchant tx))
                "Transaction location verified") as Hm.
  set (lbl := Js.template (merchant tx) +:+ " is established merchant") in *.
  assert (Hl : "Transaction location verified" <> lbl)
    by (intros H; apply Hm; [discriminate | symmetry; exact H]).
  destruct (Js.truthy (location tx)), (Js.truthy (device_info tx)),
    (Js.num_lt (amount tx) 1000), (Js.truthy (merchant tx)),
    (hour tx) as [h |]; try destruct ((8 <=? h)%Z && (h <=? 20)%Z);
    simpl; split; intros H; try reflexivity; try discriminate;
    try tauto;
    repeat (destruct H as [H | H]; try discriminate; try (symmetry in H;
            contradiction)); try contradiction.
Qed.

Lemma safe_factor_device (tx : Transaction) :
  In "Device is recognized and trusted" (identifySafeFactors tx)
  <-> Js.truthy (device_info tx) = true.
Proof.
  unfold identifySafeFactors.
  pose proof (merchant_label (Js.template (merchant tx))
                "Device is recognized and trusted") as Hm.
  set (lbl := Js.template (merchant tx) +:+ " is established merchant") in *.
  assert (Hl : "Device is recognized and trusted" <> lbl)
    by (intros H; apply Hm; [discriminate | symmetry; exact H]).
  destruct (Js.truthy (location tx)), (Js.truthy (device_info tx)),
    (Js.num_lt (amount tx) 1000), (Js.truthy (merchant tx)),
    (hour tx) as [h |]; try destruct ((8 <=? h)%Z && (h <=? 20)%Z);
    simpl; split; intros H; try reflexivity; try discriminate;
    try tauto;
    repeat (destruct H as [H | H]; try discriminate; try (symmetry in H;
            contradiction)); try contradiction.
Qed.

(** For the location, and for the device, an explanation carries
    exactly one of the two statements: the risk factor that it is
    missing, or the safe factor that it is verified. *)
Theorem location_and_device_factors (tx : Transaction) (fraudScore : Q) :
  let risks := identifyRiskFactors tx fraudScore in
  let safe := identifySafeFactors tx in
  (In "Transaction location not verified" risks
   <-> ~ In "Transaction location verified" safe) /\
  (In "Device not recognized or trusted" risks
   <-> ~ In "Device is recognized and trusted" safe).
Proof.
  intros risks safe. subst risks safe.
  destruct (risk_factor_members tx fraudScore) as (_ & Hl & Hd & _).
  rewrite Hl, Hd, safe_factor_location, safe_factor_device.
  destruct (Js.truthy (location tx)), (Js.truthy (device_info tx));
    intuition congruence.
Qed.

(** The sort of the weighted-factor list never reorders it: the five
    factors come out in the order they are pushed, with the weights 0.3,
    0.25, 0.2, 0.15 and 0.1, which add up to 1. *)
Theorem lime_order_fixed (tx : Transaction) (fraudScore : Q) :
  let l := generateLimeExplanations tx fraudScore in
  l = lime_pushed tx fraudScore /\
  map lime_feature l
  = ["High Amount Transaction"; "Merchant Category Risk";
     "Location Verification"; "Device Recognition"; "IP Reputation"] /\
  fold_right Qplus 0 (map lime_weight l) == 1.
Proof.
  intros l.
  assert (H : l = lime_pushed tx fraudScore) by reflexivity.
  split; [exact H |]. rewrite H. split; reflexivity.
Qed.

(** X13: the attribution vector takes the amount as parsed: when the
    amount does not parse, its amount and amount-deviation entries are
    [NaN], where the feature list counts such an amount as 0; when it
    parses, the amount entry is [amount / 10000 * 0.3], uncapped, and the
    deviation entry lies in [0, 0.1]. *)
Theorem shap_amount_entries (tx : Transaction) (fraudScore : Q) :
  let s := calculateShapValues tx fraudScore in
  match amount tx with
  | None =>
      shap_amount s = None /\ shap_amount_deviation s = None /\
      exists f, In f (calculateFeatureImportance tx fraudScore) /\
                feature f = "Transaction Amount" /\ importance f == 0
  | Some a =>
      exists v d,
        shap_amount s = Some v /\ v == a / 10000 * 0.3 /\
        shap_amount_deviation s = Some d /\ 0 <= d <= 0.1
  end.
Proof.
  intros s. subst s. unfold calculateShapValues. cbn [shap_amount
    shap_amount_deviation].
  destruct (amount tx) as [a |] eqn:Ha; cbn [option_map].
  - eexists _, _. split; [reflexivity |]. split.
    + rewrite normalizeScore_unit. reflexivity.
    + split; [reflexivity |].
      pose proof (deviation_range a) as Hd. lra.
  - split; [reflexivity |]. split; [reflexivity |].
    destruct (amount_entry tx fraudScore) as (f & Hf & Hi).
    exists f. split; [| split].
    + apply (Permutation_in _
               (Permutation_sym (sort_perm importance _))).
      assert (Hin : In f (List.filter is_amount_feature
                                      (pushed tx fraudScore)))
        by (rewrite Hf; left; reflexivity).
      apply filter_In in Hin. apply Hin.
    + assert (Hin : In f (List.filter is_amount_feature
                                      (pushed tx fraudScore)))
        by (rewrite Hf; left; reflexivity).
      apply filter_In in Hin as [_ Hn]. apply String.eqb_eq, Hn.
    + rewrite Hi, Ha, normalizeScore_unit. reflexivity.
Qed.

Lemma toFixed3_at_least (x : Q) (k : Z) :
  (0 <= k)%Z -> inject_Z k / 1000 <= x -> inject_Z k / 1000 <= Js.toFixed3 x.
Proof.
  intros Hk Hx.
  assert (H0 : 0 <= inject_Z k) by (rewrite Zle_Qle in Hk; exact Hk).
  unfold Js.toFixed3. destruct (Qlt_le_dec x 0) as [Hneg | Hpos].
  - exfalso. revert Hx. by_constant. lra.
  - assert (H : (k <= Qfloor (x * 1000 + 0.5))%Z).
    { rewrite <- (Qfloor_Z k). apply Qfloor_resp_le.
      revert Hx. by_constant. lra. }
    rewrite Zle_Qle in H.
    set (n := inject_Z (Qfloor (x * 1000 + 0.5))) in *.
    by_constant. lra.
Qed.

Lemma pushed_total_at_least (tx : Transaction) (fraudScore : Q) :
  let a := Js.or_zero (amount tx) in
  0 <= a ->
  0.201 + a * (15 # 1000000) + calculateAmountDeviation a * 0.1
  <= total_importance (pushed tx fraudScore).
Proof.
  intros a Ha. subst a. unfold pushed, total_importance.
  cbn [fold_right importance].
  pose proof (normalizeScore_unit (Js.or_zero (amount tx) / 10000)) as Hn.
  set (n := normalizeScore _ 0 1) in *.
  assert (Hn' : n == Js.or_zero (amount tx) * (1 # 10000))
    by (rewrite Hn; unfold Qdiv; reflexivity).
  assert (Hm : 0.3 <= calculateMerchantRiskScore (merchant_category tx)).
  { unfold calculateMerchantRiskScore.
    destruct (merchant_category tx) as [[| ? ?] |]; try lra.
    destruct (Js.some _ _); lra. }
  assert (Hi : 0.1 <= calculateIpRiskScore (ip_address tx)).
  { unfold calculateIpRiskScore.
    destruct (ip_address tx) as [[| ? ?] |]; try lra.
    destruct (_ || _); lra. }
  assert (Ht : 0.2 <= calculateTimeScore (hour tx)).
  { unfold calculateTimeScore. destruct (hour tx) as [h |]; [| lra].
    destruct (_ && _); [lra |]. destruct (_ && _); lra. }
  destruct (Js.truthy (location tx)), (Js.truthy (device_info tx)); lra.
Qed.

Lemma permutation_total (l l' : list FeatureImportance) :
  Permutation l l' -> total_importance l == total_importance l'.
Proof.
  induction 1 as [| x l l' _ IH | x y l | l1 l2 l3 _ IH1 _ IH2]; simpl.
  - reflexivity.
  - rewrite IH. reflexivity.
  - ring.
  - rewrite IH1. exact IH2.
Qed.

(** X14: for a non-negative amount the confidence of an explanation is at
    least 0.501, and from an amount of 23300 on it is exactly 0.95,
    whatever the other fields and the fraud score are. *)
Theorem confidence_floor_and_saturation (tx : Transaction)
        (fraudScore : Q) :
  let a := Js.or_zero (amount tx) in
  0 <= a ->
  0.501 <= confidence (explainPrediction tx fraudScore) /\
  (23300 <= a -> confidence (explainPrediction tx fraudScore) == 0.95).
Proof.
  intros a Ha. cbn [explainPrediction confidence].
  unfold calculateConfidence, Js.min.
  set (l := calculateFeatureImportance tx fraudScore).
  pose proof (fold_left_total l 0) as Hsum.
  assert (Hp : total_importance l
               == total_importance (pushed tx fraudScore))
    by (apply permutation_total, (sort_perm importance)).
  pose proof (pushed_total_at_least tx fraudScore Ha) as Hlow. fold a in Hlow.
  pose proof (deviation_range a) as [Hd0 Hd1].
  set (sum := fold_left _ l 0) in *.
  split.
  - apply (toFixed3_at_least _ 501); [lia |].
    assert (E : inject_Z 501 / 1000 == 0.501) by reflexivity. rewrite E.
    apply Q.min_glb; lra.
  - intros Hbig.
    assert (Hone : calculateAmountDeviation a == 1)
      by (apply deviation_saturated; lra).
    assert (Hmin : Qmin (sum + 0.3) 0.95 == 0.95).
    { apply Q.min_r. lra. }
    apply Qle_antisym.
    + apply toFixed3_upper. apply Q.le_min_r.
    + assert (E : inject_Z 950 / 1000 == 0.95) by reflexivity.
      rewrite <- E at 1. apply toFixed3_at_least; [lia |].
      rewrite E, Hmin. lra.
Qed.

Lemma confidence_floor_and_saturation_witness :
  0.501 <= confidence (explainPrediction purchase 0.15).
Proof.
  apply (confidence_floor_and_saturation purchase 0.15).
  vm_compute. discriminate.
Defined.

End ExplainMoreProps.

(** ** Compliance Classifier and Aggregator: the other rules *)

Section ComplianceMoreProps.
Import Compliance.

Ltac by_rules tx fraudScore riskLevel :=
  unfold identifyCompllianceViolations;
  destruct (Js.gt fraudScore 0.7), (Js.gt (Js.or_zero (amount tx)) 10000),
    (negb (Js.truthy (location tx)) || negb (Js.truthy (device_info tx))),
    (String.eqb riskLevel "critical" || String.eqb riskLevel "high"),
    (hour tx) as [h |]; try destruct ((h <? 6)%Z || (23 <? h)%Z).

(** X15: the events of a transaction come in the order of the rules, at
    most one per event type, hence at most five, and every one of them is
    pending. *)
Theorem events_follow_the_rules (tx : Transaction) (fraudScore : Q)
        (riskLevel : string) :
  let events := identifyCompllianceViolations tx fraudScore riskLevel in
  sublist (map eventType events) event_types /\
  (length events <= 5)%nat /\
  List.Forall (fun ev => resolutionStatus ev = "pending") events.
Proof.
  intros events. subst events. unfold event_types.
  by_rules tx fraudScore riskLevel; cbn [app map length];
    (split; [| split; [lia | repeat constructor]]);
    repeat first [apply sublist_nil | apply sublist_skip | apply sublist_cons].
Qed.

Lemma if_nil {A} (c : bool) (x : A) :
  (if c then [x] else []) = [] <-> c = false.
Proof. destruct c; split; (discriminate || reflexivity). Qed.

(** The events as the concatenation of what each rule contributes. *)
Lemma events_by_rule (tx : Transaction) (fraudScore : Q)
      (riskLevel : string) :
  exists e1 e2 e3 e4 e5,
    identifyCompllianceViolations tx fraudScore riskLevel
    = (if Js.gt fraudScore 0.7 then [e1] else [])
      ++ (if Js.gt (Js.or_zero (amount tx)) 10000 then [e2] else [])
      ++ (if negb (Js.truthy (location tx))
             || negb (Js.truthy (device_info tx)) then [e3] else [])
      ++ (if String.eqb riskLevel "critical" || String.eqb riskLevel "high"
          then [e4] else [])
      ++ match hour tx with
         | Some h => if (h <? 6)%Z || (23 <? h)%Z then [e5 h] else []
         | None => []
         end.
Proof.
  do 4 eexists.
  exists (fun h =>
            {| eventType := "unusual_transaction_time";
               severity := sev_low;
               complianceStandard := "AML-KYC";
               violationDetails :=
                 TimeDetails h "6-23"
                   "Transaction outside normal business hours";
               resolutionStatus := "pending" |}).
  by_rules tx fraudScore riskLevel; reflexivity.
Qed.

(** X16: a transaction raises no compliance event exactly when the score
    is at most 0.7, the amount at most 10000, location and device are
    both present, the risk level is neither ["high"] nor ["critical"],
    and the hour, if the timestamp has one, is from 6 to 23. *)
Theorem no_event_iff_all_clear (tx : Transaction) (fraudScore : Q)
        (riskLevel : string) :
  identifyCompllianceViolations tx fraudScore riskLevel = [] <->
  fraudScore <= 0.7 /\
  Js.or_zero (amount tx) <= 10000 /\
  Js.truthy (location tx) = true /\
  Js.truthy (device_info tx) = true /\
  riskLevel <> "critical" /\ riskLevel <> "high" /\
  match hour tx with
  | Some h => (6 <= h <= 23)%Z
  | None => True
  end.
Proof.
  destruct (events_by_rule tx fraudScore riskLevel)
    as (e1 & e2 & e3 & e4 & e5 & ->).
  rewrite !app_nil, !if_nil, !gt_false, !orb_false_iff, !negb_false_iff,
    !String.eqb_neq.
  assert (Hh : match hour tx with
               | Some h => if (h <? 6)%Z || (23 <? h)%Z then [e5 h] else []
               | None => []
               end = []
               <-> match hour tx with
                   | Some h => (6 <= h <= 23)%Z
                   | None => True
                   end).
  { destruct (hour tx) as [h |]; [| tauto].
    rewrite if_nil, orb_false_iff, !Z.ltb_ge. tauto. }
  rewrite Hh. tauto.
Qed.

Lemma incomplete_data_events (tx : Transaction) (fraudScore : Q)
      (riskLevel : string) :
  List.filter is_incomplete_data
              (identifyCompllianceViolations tx fraudScore riskLevel) =
  if negb (Js.truthy (location tx)) || negb (Js.truthy (device_info tx))
  then
    [ {| eventType := "incomplete_transaction_data";
         severity := sev_medium;
         complianceStandard := "PCI-DSS";
         violationDetails :=
           MissingDetails (missingFields tx)
             "Required transaction data is incomplete";
         resolutionStatus := "pending" |} ]
  else [].
Proof. by_rules tx fraudScore riskLevel; reflexivity. Qed.

(** An ["incomplete_transaction_data"] event is raised exactly when
    the location or the device is missing; there is then one such event,
    of severity medium under PCI-DSS, and its list of missing fields
    names exactly the fields that are missing. *)
Theorem incomplete_data_reported (tx : Transaction) (fraudScore : Q)
        (riskLevel : string) :
  let events := identifyCompllianceViolations tx fraudScore riskLevel in
  let missing :=
    (if Js.truthy (location tx) then [] else ["location"])
    ++ (if Js.truthy (device_info tx) then [] else ["device_info"]) in
  ((exists ev, In ev events /\
               eventType ev = "incomplete_transaction_data")
   <-> missing <> []) /\
  forall ev, In ev events ->
             eventType ev = "incomplete_transaction_data" ->
             severity ev = sev_medium /\
             complianceStandard ev = "PCI-DSS" /\
             exists text, violationDetails ev = MissingDetails missing text.
Proof.
  intros events missing.
  assert (Hin : forall ev,
             In ev events /\ eventType ev = "incomplete_transaction_data"
             <-> In ev (List.filter is_incomplete_data events)).
  { intros ev. rewrite filter_In. unfold is_incomplete_data.
    rewrite String.eqb_eq. tauto. }
  subst events. rewrite incomplete_data_events in Hin.
  assert (Hm : missing = missingFields tx) by reflexivity.
  assert (Hcond : negb (Js.truthy (location tx))
                  || negb (Js.truthy (device_info tx)) = true
                  <-> missing <> []).
  { subst missing.
    destruct (Js.truthy (location tx)), (Js.truthy (device_info tx));
      simpl; split; intros; congruence. }
  split.
  - rewrite <- Hcond. split.
    + intros (ev & H). apply Hin in H.
      destruct (_ || _); [reflexivity | destruct H].
    + intros Hc. rewrite Hc in Hin. eexists. apply Hin. left. reflexivity.
  - intros ev Hev Hty. pose proof (proj1 (Hin ev) (conj Hev Hty)) as H.
    destruct (_ || _); [| destruct H]. destruct H as [<- | []].
    cbn [severity complianceStandard violationDetails]. rewrite Hm.
    split; [reflexivity |]. split; [reflexivity |]. eexists. reflexivity.
Qed.

Lemma filter_length_le {A} (p : A -> bool) (l : list A) :
  (length (List.filter p l) <= length l)%nat.
Proof.
  induction l as [| x l IH]; simpl; [lia |]. destruct (p x); simpl; lia.
Qed.

Lemma sum_of_positive (l : list Z) (acc : Z) :
  (0 <= acc)%Z -> List.Forall (fun t => (0 < t)%Z) l ->
  (0 <= fold_left Z.add l acc)%Z.
Proof.
  revert acc. induction l as [| t l IH]; intros acc Hacc Hl; simpl;
    [exact Hacc |].
  inversion Hl as [| ? ? Ht Hl']; subst. apply IH; [lia | exact Hl'].
Qed.

Lemma status_counts (events : list EventRow) :
  (length (List.filter
             (fun e => String.eqb (resolution_status e) "pending") events)
   + length (List.filter
               (fun e => String.eqb (resolution_status e) "resolved") events)
   <= length events)%nat.
Proof.
  induction events as [| e events IH]; simpl; [lia |].
  destruct (String.eqb_spec (resolution_status e) "pending") as [-> | _];
    simpl; [| destruct (String.eqb _ _); simpl]; lia.
Qed.

(** X17: whatever the record store returns, rows or nothing, the metrics
    are coherent: the resolution rate lies in [0,1], the average
    resolution time is not negative, and neither the critical events nor
    the unresolved and resolved ones together outnumber the events. *)
Theorem compliance_metrics_coherent (allEvents : option (list EventRow)) :
  let m := getComplianceMetrics allEvents in
  0 <= resolutionRate m <= 1 /\
  0 <= avgResolutionTime m /\
  (criticalEvents m <= totalEvents m)%nat /\
  (unresolvedEvents m <= totalEvents m)%nat /\
  Qnat (unresolvedEvents m) + resolutionRate m * Qnat (totalEvents m)
  <= Qnat (totalEvents m).
Proof.
  destruct allEvents as [events |]; cbn zeta;
    cbn [getComplianceMetrics resolutionRate avgResolutionTime criticalEvents
         unresolvedEvents totalEvents];
    [| change (Qnat 0) with 0; repeat split; lra || lia].
  set (resolved := List.filter
                     (fun e => String.eqb (resolution_status e) "resolved")
                     events).
  pose proof (status_counts events) as Hs. fold resolved in Hs.
  set (pending := List.filter
                    (fun e => String.eqb (resolution_status e) "pending")
                    events) in *.
  assert (Hr : (length resolved <= length events)%nat)
    by apply filter_length_le.
  split; [| split; [| split; [apply filter_length_le
                             | split; [apply filter_length_le |]]]].
  - destruct (0 <? length events)%nat eqn:Hn; [| lra].
    apply Nat.ltb_lt in Hn.
    pose proof (quotient_in_unit (length resolved) (length events) Hr Hn).
    exact H.
  - set (times := List.filter (fun t => (0 <? t)%Z) _).
    destruct (0 <? length times)%nat eqn:Hn; [| lra].
    apply Nat.ltb_lt in Hn.
    assert (Hsum : (0 <= fold_left Z.add times 0)%Z).
    { apply sum_of_positive; [lia |]. subst times.
      apply List.Forall_forall. intros t Ht. apply filter_In in Ht as [_ Ht].
      apply Z.ltb_lt, Ht. }
    rewrite Zle_Qle in Hsum. change (inject_Z 0) with 0 in Hsum.
    assert (Hpos : 0 < Qnat (length times)).
    { unfold Qnat. change 0 with (inject_Z 0). rewrite <- Zlt_Qlt. lia. }
    apply Qle_shift_div_l; [reflexivity |].
    apply Qle_shift_div_l; [exact Hpos |]. lra.
  - assert (Hle : Qnat (length pending) + Qnat (length resolved)
                  <= Qnat (length events)).
    { unfold Qnat. rewrite <- inject_Z_plus, <- Zle_Qle. lia. }
    destruct (0 <? length events)%nat eqn:Hn.
    + apply Nat.ltb_lt in Hn.
      assert (Hpos : 0 < Qnat (length events)).
      { unfold Qnat. change 0 with (inject_Z 0). rewrite <- Zlt_Qlt. lia. }
      assert (E : Qnat (length resolved) / Qnat (length events)
                  * Qnat (length events) == Qnat (length resolved))
        by (field; lra).
      rewrite E. exact Hle.
    + apply Nat.ltb_ge in Hn.
      assert (E : length pending = 0%nat) by lia. rewrite E.
      assert (E' : length events = 0%nat) by lia. rewrite E'.
      change (Qnat 0) with 0. lra.
Qed.

End ComplianceMoreProps.

(** ** Hex codec *)

Section HexProps.
Import EncryptionService.

(** A byte is written as exactly two characters, which read back as the
    byte. *)
Lemma byte_round_trip (b : byte) :
  let c1 := hex_digit (Byte.to_N b / 16) in
  let c2 := hex_digit (Byte.to_N b mod 16) in
  padStart 2 "0" (toString16 b) = String c1 (String c2 "") /\
  to_uint8 (parseInt16 (String c1 (String c2 ""))) = b.
Proof. destruct b; split; vm_compute; reflexivity. Qed.

Lemma toHex_cons (b : byte) (array : list byte) :
  toHex (b :: array) = padStart 2 "0" (toString16 b) +:+ toHex array.
Proof.
  unfold toHex, Js.join. cbn [map].
  generalize (padStart 2 "0" (toString16 b)) as h.
  generalize (map (fun b0 => padStart 2 "0" (toString16 b0)) array) as l.
  intros l h. destruct l as [| x l]; simpl.
  - clear. induction h as [| c h IH]; [reflexivity |].
    change (String c h +:+ "") with (String c (h +:+ "")).
    f_equal. exact IH.
  - reflexivity.
Qed.

Lemma half_of_double (n : nat) : (2 * n / 2 = n)%nat.
Proof. replace (2 * n)%nat with (n * 2)%nat by lia. apply Nat.div_mul. lia. Qed.

(** X18: decoding the hex form of a byte array gives the array back, and
    the hex form has two characters per byte. *)
Theorem hex_round_trip (array : list byte) :
  fromHex (toHex array) = array /\
  String.length (toHex array) = (2 * length array)%nat.
Proof.
  induction array as [| b array [IHd IHl]]; [split; reflexivity |].
  rewrite toHex_cons.
  destruct (byte_round_trip b) as [-> Hb].
  match goal with
  | |- context [String ?c1 (String ?c2 "") +:+ ?r] =>
      change (String c1 (String c2 "") +:+ r) with (String c1 (String c2 r))
  end.
  split.
  - unfold fromHex in *. cbn [String.length substrings2 map].
    rewrite Hb, IHl. rewrite IHl, half_of_double in IHd.
    replace (S (S (2 * length array))) with (2 * S (length array))%nat
      by lia.
    rewrite half_of_double. cbn [firstn]. f_equal. exact IHd.
  - cbn [String.length length]. rewrite IHl. lia.
Qed.

Lemma substrings2_length (hex : string) :
  (String.length hex / 2 <= length (substrings2 hex))%nat.
Proof.
  assert (H : (String.length hex / 2 <= length (substrings2 hex))%nat /\
              forall a, (String.length (String a hex) / 2
                         <= length (substrings2 (String a hex)))%nat).
  { induction hex as [| b r [IH1 IH2]].
    - split; [| intros a]; simpl; lia.
    - split; [apply IH2 |]. intros a.
      cbn [substrings2 String.length length].
      replace (S (S (String.length r)))
        with (String.length r + 1 * 2)%nat by lia.
      rewrite Nat.div_add by lia. lia. }
  apply H.
Qed.

(** Decoding never fails and never guesses a length: any string, hex
    or not, decodes to half its length in bytes, rounded down, so a
    trailing odd character is dropped. *)
Theorem fromHex_length (hex : string) :
  length (fromHex hex) = (String.length hex / 2)%nat.
Proof.
  unfold fromHex. rewrite List.length_firstn, List.length_map.
  pose proof (substrings2_length hex). lia.
Qed.

End HexProps.

(** ** Access rules *)

Section RBACProps.
Import RBACEngine.

Lemma includes_In (arr : list string) (x : string) :
  includes arr x = true <-> In x arr.
Proof.
  unfold includes. rewrite existsb_exists. split.
  - intros (y & Hy & E). apply String.eqb_eq in E. subst. exact Hy.
  - intros H. exists x. split; [exact H | apply String.eqb_refl].
Qed.

(** X19: a policy added for a role is what the role then has: its
    permissions are the ones given, [hasPermission] answers by membership
    in them, and the permissions of every other role are as before. *)
Theorem custom_policy_round_trip (e : Engine) (r : string)
        (ps : list string) :
  let e' := addCustomPolicy r ps e in
  getPermissions e' r = ps /\
  (forall p, hasPermission e' r p = true <-> In p ps) /\
  (forall other, other <> r ->
                 getPermissions e' other = getPermissions e other /\
                 forall p, hasPermission e' other p = hasPermission e other p).
Proof.
  intros e'. subst e'.
  unfold getPermissions, hasPermission, addCustomPolicy, set_policy.
  cbn [policies]. split; [| split].
  - rewrite get_set. destruct (decide _) as [_ | []]; reflexivity.
  - intros p. rewrite get_set. destruct (decide _) as [_ | []];
      [| reflexivity]. cbn [permissions]. rewrite orb_false_r.
    apply includes_In.
  - intros other Hne. rewrite get_set.
    destruct (decide _) as [-> | _]; [contradiction |].
    split; [reflexivity | intros p; reflexivity].
Qed.

Lemma default_permissions (r : string) :
  getPermissions constructor r
  = if decide (r = "viewer")
    then ["view_own_transactions"; "view_own_reports"]
    else if decide (r = "analyst")
    then ["view_transactions"; "analyze_patterns"; "view_reports";
          "manage_thresholds"; "export_data"]
    else if decide (r = "admin")
    then ["manage_users"; "manage_models"; "view_all_transactions";
          "manage_thresholds"; "view_compliance_logs"; "configure_system";
          "manage_datasets"]
    else [].
Proof.
  unfold getPermissions, constructor, initializeDefaultPolicies, set_policy.
  cbn [policies]. rewrite !get_set.
  destruct (decide ("viewer" = r)) as [<- | H1]; [reflexivity |].
  destruct (decide (r = "viewer")) as [-> | _]; [contradiction |].
  destruct (decide ("analyst" = r)) as [<- | H2]; [reflexivity |].
  destruct (decide (r = "analyst")) as [-> | _]; [contradiction |].
  destruct (decide ("admin" = r)) as [<- | H3]; [reflexivity |].
  destruct (decide (r = "admin")) as [-> | _]; [contradiction |].
  reflexivity.
Qed.

(** X20: with the default policies, access is granted in these cases and
    no other: a transaction or a report to an admin, to an analyst, and
    to a viewer who owns it; a model to an admin; a threshold to an admin
    or an analyst.  Any other role or resource type is refused. *)
Theorem default_access_matrix (r uid rid type : string) :
  canAccess constructor r uid rid type = true <->
  ((type = "transaction" \/ type = "report") /\
   (r = "admin" \/ r = "analyst" \/ (r = "viewer" /\ uid = rid))) \/
  (type = "model" /\ r = "admin") \/
  (type = "threshold" /\ (r = "admin" \/ r = "analyst")).
Proof.
  unfold canAccess. rewrite default_permissions.
  destruct (String.eqb_spec type "transaction") as [-> | Ht];
    [| destruct (String.eqb_spec type "report") as [-> | Hr];
       [| destruct (String.eqb_spec type "model") as [-> | Hm];
          [| destruct (String.eqb_spec type "threshold") as [-> | Hh]]]];
    destruct (decide (r = "viewer")) as [-> | Hv];
    try (destruct (decide (r = "analyst")) as [-> | Ha]);
    try (destruct (decide (r = "admin")) as [-> | Hd]);
    cbn [String.eqb Ascii.eqb Bool.eqb includes existsb orb andb];
    try (destruct (String.eqb_spec r "admin") as [-> | _];
         [contradiction |]);
    try (destruct (String.eqb_spec r "analyst") as [-> | _];
         [contradiction |]);
    try (destruct (String.eqb_spec uid rid) as [-> | Hu]);
    split; intros H; try discriminate H; try tauto;
    try (intuition (discriminate || congruence)).
Qed.

End RBACProps.
(** ** Report rules *)

Section ReportProps.
Import ComplianceManager.




(** X22: metrics that pass the PCI DSS and the AML check of a report and
    whose false-positive rate is at most 0.2 validate as compliant, with
    no violation listed. *)
Theorem regulatory_pass_validates (m : ComplianceMetrics) :
  pciDssCompliant (performRegulatoryChecks m) = true ->
  amlCompliant (performRegulatoryChecks m) = true ->
  falsePositiveRate m <= 0.2 ->
  validateCompliance m = {| compliant := true; violations := [] |}.
Proof.
  unfold performRegulatoryChecks. cbn [pciDssCompliant amlCompliant].
  rewrite andb_true_iff, !le_true, lt_true. intros [Hu Ht] Hd Hp.
  unfold validateCompliance.
  assert (E1 : Js.lt (detectionRate m) 0.8 = false) by (apply lt_false; lra).
  assert (E2 : Js.gt (falsePositiveRate m) 0.2 = false)
    by (apply gt_false; lra).
  assert (E3 : Js.lt (systemUptime m) 0.99 = false) by (apply lt_false; lra).
  assert (E4 : Js.gt (averageResponseTime m) 5000 = false)
    by (apply gt_false; lra).
  rewrite E1, E2, E3, E4. reflexivity.
Qed.

Lemma regulatory_pass_validates_witness :
  let m := {| totalTransactions := 1000; fraudulentTransactions := 40;
              detectionRate := 0.9; falsePositiveRate := 0.1;
              averageResponseTime := 1500; systemUptime := 0.9995 |} in
  compliant (validateCompliance m) = true.
Proof.
  intros m.
  rewrite (regulatory_pass_validates m); [reflexivity | | |];
    vm_compute; reflexivity || discriminate.
Defined.

(** X23: the recommendations of a report agree with its regulatory
    checks: the PCI DSS recommendation is given exactly when the PCI DSS
    check fails, the AML one exactly when the AML check fails; the list
    always ends with the two standing recommendations and has from two
    to seven entries. *)
Theorem recommendations_follow_checks (id : string) (now : Z)
        (m : ComplianceMetrics) (from to : Z) :
  let report := generateReport id now m from to in
  let recs := recommendations report in
  (In "Implement PCI DSS compliance controls." recs
   <-> pciDssCompliant (regulatoryChecks report) = false) /\
  (In "Enhance AML detection capabilities." recs
   <-> amlCompliant (regulatoryChecks report) = false) /\
  (exists front,
      recs = front ++ ["Conduct monthly compliance reviews.";
                       "Implement continuous model monitoring."]) /\
  (2 <= length recs <= 7)%nat.
Proof.
  intros report recs. subst recs report.
  cbn [generateReport recommendations regulatoryChecks].
  unfold generateRecommendations.
  destruct (ext_gt _ 0.7), (Js.gt (falsePositiveRate m) 0.15),
    (Js.gt (averageResponseTime m) 1000),
    (pciDssCompliant (performRegulatoryChecks m)),
    (amlCompliant (performRegulatoryChecks m));
    cbn [negb app length In];
    (split; [| split; [| split; [| lia]]]);
    try (split; [intros H | intros H; try discriminate H; tauto];
         repeat (destruct H as [H | H]; try discriminate H);
         try reflexivity; try contradiction);
    match goal with
    | |- exists front, ?l = _ =>
        exists (firstn (length l - 2) l); reflexivity
    end.
Qed.

End ReportProps.

(** ** Retention and access rules *)

Section GovernanceProps.
Import DataGovernance.

(** X24: a retention policy reads back as it was set, except that a
    policy of 0 days reads back as no policy; the policies of the other
    data types are as before. *)
Theorem retention_round_trip (e : Engine) (dataType : string) (days : Q) :
  let e' := setRetentionPolicy dataType days e in
  getRetentionPeriod e' dataType
  = (if Qeq_bool days 0 then None else Some days) /\
  forall other, other <> dataType ->
                getRetentionPeriod e' other = getRetentionPeriod e other.
Proof.
  intros e'. subst e'.
  unfold getRetentionPeriod, setRetentionPolicy, set_retention.
  cbn [retentionPolicies]. split.
  - rewrite get_set. destruct (decide _) as [_ | []]; reflexivity.
  - intros other Hne. rewrite get_set.
    destruct (decide _) as [-> | _]; [contradiction | reflexivity].
Qed.

Lemma known_roles (r : string) :
  roleAccessMap r <> None <-> r = "admin" \/ r = "analyst" \/ r = "viewer".
Proof.
  unfold roleAccessMap.
  destruct (String.eqb_spec r "admin") as [-> | H1];
    [split; [auto | discriminate] |].
  destruct (String.eqb_spec r "analyst") as [-> | H2];
    [split; [auto | discriminate] |].
  destruct (String.eqb_spec r "viewer") as [-> | H3];
    [split; [auto | discriminate] |].
  split; [congruence | intros [? | [? | ?]]; contradiction].
Qed.

(** X25: the three roles are ordered: for every data type the check
    answers for each of them, whatever a viewer may read an analyst may
    read, and whatever an analyst may read an admin may read; a role that
    is none of the three, and no inherited member name, is refused
    everything. *)
Theorem access_grows_with_role (dataType : string) :
  (exists v a d,
      validateDataAccess "viewer" dataType = Some v /\
      validateDataAccess "analyst" dataType = Some a /\
      validateDataAccess "admin" dataType = Some d /\
      (v = true -> a = true) /\ (a = true -> d = true)) /\
  forall r, r <> "admin" -> r <> "analyst" -> r <> "viewer" ->
            Js.inherited r = false ->
            validateDataAccess r dataType = Some false.
Proof.
  split.
  - unfold validateDataAccess. cbn [roleAccessMap String.eqb Ascii.eqb
                                    Bool.eqb].
    destruct (getDataClassification dataType) as [[] |];
      do 3 eexists; repeat split; try reflexivity; simpl; auto.
  - intros r H1 H2 H3 Hi. unfold validateDataAccess.
    destruct (roleAccessMap r) eqn:Hr.
    + exfalso. assert (Hk : roleAccessMap r <> None) by congruence.
      apply known_roles in Hk. tauto.
    + rewrite Hi. reflexivity.
Qed.

End GovernanceProps.

(** ** Record intake *)

Section BatchProps.
Import DataIngestor.

Lemma firstn_then_rest {A} (k n : nat) (l : list A) :
  (k <= n)%nat -> firstn (n - k) (skipn k l) ++ skipn n l = skipn k l.
Proof.
  intros H. replace (skipn n l) with (skipn (n - k) (skipn k l)).
  - apply firstn_skipn.
  - rewrite List.skipn_skipn. f_equal. lia.
Qed.

(** A start that is not negative is truncated and cut at the length. *)
Lemma slice_index_nonneg (len : Z) (x : Q) :
  0 <= x -> (0 <= len)%Z -> slice_index len x = Z.min (Qfloor x) len.
Proof.
  intros Hx Hl. unfold slice_index.
  destruct (Qlt_le_dec x 0) as [C|C]; [lra|].
  assert (0 <= Qfloor x)%Z by (apply (Qfloor_resp_le 0); exact Hx).
  destruct (Z.ltb_spec (Qfloor x) 0); [lia|reflexivity].
Qed.

Lemma floor_step (i b : Q) :
  (Qfloor (i + b) <= Qfloor i + Qceiling b)%Z.
Proof.
  assert (A := Qfloor_le (i + b)). assert (B := Qlt_floor i).
  assert (C := Qle_ceiling b).
  assert (D : inject_Z (Qfloor (i + b)) < inject_Z (Qfloor i + Qceiling b + 1)).
  { rewrite !inject_Z_plus. rewrite inject_Z_plus in B. lra. }
  rewrite <- Zlt_Qlt in D. lia.
Qed.

Lemma floor_mono_step (i b : Q) :
  0 < b -> (Qfloor i <= Qfloor (i + b))%Z.
Proof. intros H. apply Qfloor_resp_le. lra. Qed.

Lemma batches_from_total {A} (data : list A) (b : Q) :
  0 < b ->
  forall fuel i acc,
    0 <= i ->
    inject_Z (Z.of_nat (length data)) <= i + inject_Z (Z.of_nat fuel) * b ->
    exists rest,
      batches_from fuel i data b acc = Some (acc ++ rest)
      /\ concat rest
         = skipn (Z.to_nat (Z.min (Qfloor i) (Z.of_nat (length data)))) data
      /\ List.Forall
           (fun batch => (Z.of_nat (length batch) <= Qceiling b)%Z) rest.
Proof.
  intros Hb. induction fuel as [|fuel IH]; intros i acc Hi Hfuel.
  - cbn [batches_from]. unfold Js.lt.
    destruct (Qlt_le_dec i _) as [C|C].
    + exfalso. change (inject_Z (Z.of_nat 0)) with 0 in Hfuel. lra.
    + exists []. rewrite app_nil_r. repeat split; [|constructor].
      cbn [concat]. symmetry. apply List.skipn_all2.
      assert (Z.of_nat (length data) <= Qfloor i)%Z.
      { rewrite <- (Qfloor_Z (Z.of_nat (length data))).
        apply Qfloor_resp_le. exact C. }
      lia.
  - cbn [batches_from]. unfold Js.lt.
    destruct (Qlt_le_dec i _) as [C|C].
    + destruct (IH (i + b) (acc ++ [slice i (i + b) data])) as (rest & E & Hc & Hs).
      * lra.
      * rewrite Nat2Z.inj_succ in Hfuel. unfold Z.succ in Hfuel.
        rewrite inject_Z_plus in Hfuel.
        change (inject_Z 1) with 1 in Hfuel. lra.
      * exists (slice i (i + b) data :: rest).
        rewrite E, <- app_assoc. split; [reflexivity|].
        assert (L : (0 <= Z.of_nat (length data))%Z) by lia.
        assert (F0 : (0 <= Qfloor i)%Z) by (apply (Qfloor_resp_le 0); exact Hi).
        assert (F1 := floor_mono_step i b Hb).
        assert (F2 := floor_step i b).
        unfold slice.
        rewrite (slice_index_nonneg _ i Hi L).
        rewrite (slice_index_nonneg _ (i + b)) by (lra || lia).
        set (len := Z.of_nat (length data)) in *.
        split.
        -- cbn [concat]. rewrite Hc.
           replace (Z.to_nat (Z.max (Z.min (Qfloor (i + b)) len
                                     - Z.min (Qfloor i) len) 0))
             with (Z.to_nat (Z.min (Qfloor (i + b)) len)
                   - Z.to_nat (Z.min (Qfloor i) len))%nat by lia.
           apply firstn_then_rest. lia.
        -- constructor; [|exact Hs].
           rewrite List.length_firstn.
           assert (0 <= Qceiling b)%Z.
           { apply (Qceiling_resp_le 0). lra. }
           lia.
    + exists []. rewrite app_nil_r. repeat split; [|constructor].
      cbn [concat]. symmetry. apply List.skipn_all2.
      assert (Z.of_nat (length data) <= Qfloor i)%Z.
      { rewrite <- (Qfloor_Z (Z.of_nat (length data))).
        apply Qfloor_resp_le. exact C. }
      lia.
Qed.

(** A size that is not positive never moves [i] past the first record. *)
Lemma batches_from_stuck {A} (data : list A) (b : Q) :
  b <= 0 ->
  forall fuel i acc,
    i < inject_Z (Z.of_nat (length data)) ->
    batches_from fuel i data b acc = None.
Proof.
  intros Hb. induction fuel as [|fuel IH]; intros i acc Hi;
    cbn [batches_from]; unfold Js.lt;
    (destruct (Qlt_le_dec i _) as [C|C]; [|lra]).
  - reflexivity.
  - apply IH. lra.
Qed.

Lemma enough_turns_reach {A} (data : list A) (b : Q) (fuel : nat) :
  0 < b ->
  (Z.to_nat (Qceiling (inject_Z (Z.of_nat (length data)) / b)) <= fuel)%nat ->
  inject_Z (Z.of_nat (length data)) <= 0 + inject_Z (Z.of_nat fuel) * b.
Proof.
  intros Hb Hf.
  set (len := inject_Z (Z.of_nat (length data))) in *.
  assert (L : 0 <= len).
  { unfold len. change 0 with (inject_Z 0). rewrite <- Zle_Qle. lia. }
  assert (C := Qle_ceiling (len / b)).
  assert (P : (0 <= Qceiling (len / b))%Z).
  { apply (Qceiling_resp_le 0). apply Qle_shift_div_l; [exact Hb|lra]. }
  assert (D : inject_Z (Qceiling (len / b)) <= inject_Z (Z.of_nat fuel)).
  { rewrite <- Zle_Qle. lia. }
  assert (E : len == len / b * b) by (field; lra).
  rewrite Qplus_0_l. rewrite E at 1.
  apply Qmult_le_compat_r; lra.
Qed.

(** On exact numbers a positive size brings the batching to its end and
    a size that is not positive never does. *)
Lemma batches_exact {A} (data : list A) (b : Q) :
  (0 < b ->
   exists turns, forall fuel, (turns <= fuel)%nat ->
     exists batches,
       createBatches fuel data b = Some batches
       /\ concat batches = data
       /\ List.Forall
            (fun batch => (Z.of_nat (length batch) <= Qceiling b)%Z)
            batches)
  /\ (b <= 0 -> data <> [] ->
      forall fuel, createBatches fuel data b = None).
Proof.
  split.
  - intros Hb. exists (Z.to_nat (Qceiling (inject_Z (Z.of_nat (length data)) / b))).
    intros fuel Hf.
    destruct (batches_from_total data b Hb fuel 0 [])
      as (rest & E & Hc & Hs).
    + lra.
    + apply enough_turns_reach; assumption.
    + exists rest. unfold createBatches. rewrite E. split; [reflexivity|].
      split; [|exact Hs]. rewrite Hc.
      replace (Qfloor 0) with 0%Z by reflexivity.
      replace (Z.to_nat (Z.min 0 (Z.of_nat (length data)))) with 0%nat by lia.
      reflexivity.
  - intros Hb Hd fuel. unfold createBatches.
    apply batches_from_stuck; [exact Hb|].
    destruct data as [|d data]; [congruence|].
    change 0 with (inject_Z 0). rewrite <- Zlt_Qlt. cbn [length]. lia.
Qed.

(** X26: with a batch size that is a positive integer the batching
    ends, and the batches, put end to end, are the data, none of them
    longer than the size; with an integer size of zero or less it never
    ends on data that is not empty. *)
Theorem batches_partition_the_data {A} (data : list A) (n : Z) :
  let b := inject_Z n in
  ((0 < n)%Z ->
   exists turns, forall fuel, (turns <= fuel)%nat ->
     exists batches,
       createBatches fuel data b = Some batches
       /\ concat batches = data
       /\ List.Forall (fun batch => (Z.of_nat (length batch) <= n)%Z)
                      batches)
  /\ ((n <= 0)%Z -> data <> [] ->
      forall fuel, createBatches fuel data b = None).
Proof.
  intros b. destruct (batches_exact data b) as [Hpos Hstuck]. split.
  - intros Hn.
    assert (Hb : 0 < b)
      by (subst b; change 0 with (inject_Z 0); rewrite <- Zlt_Qlt; exact Hn).
    destruct (Hpos Hb) as (turns & Hturns). exists turns.
    intros fuel Hf. destruct (Hturns fuel Hf) as (batches & E & Hc & Hs).
    exists batches. split; [exact E |]. split; [exact Hc |].
    subst b. rewrite Qceiling_Z in Hs. exact Hs.
  - intros Hn. apply Hstuck. subst b. change 0 with (inject_Z 0).
    rewrite <- Zle_Qle. exact Hn.
Qed.

End BatchProps.

Section IntakeProps.
Import DataIngestor.
Variable parseFloat_string : string -> Js.num.
Variable Date_parse : string -> option Z.

#[local] Abbreviation validate := (validateRecord parseFloat_string Date_parse).
#[local] Abbreviation check_all' := (check_all parseFloat_string Date_parse).
#[local] Abbreviation check' := (check parseFloat_string Date_parse).

Lemma check_all_app label room i l1 l2 c :
  check_all' label room i (l1 ++ l2) c
  = check_all' label room (i + length l1) l2 (check_all' label room i l1 c).
Proof.
  revert i c. induction l1 as [|r l1 IH]; intros i c; cbn [app check_all length].
  - f_equal. lia.
  - rewrite IH. f_equal. lia.
Qed.

(** What the loop with no cap on the errors has counted. *)
Lemma check_all_counts label records :
  forall i c,
    let c' := check_all' label always i records c in
    (n_success c' + n_failed c' = n_success c + n_failed c + length records
     /\ length (n_errors c') + n_failed c
        = length (n_errors c) + n_failed c')%nat.
Proof.
  induction records as [|r records IH]; intros i c; cbn [check_all length].
  - cbn zeta. lia.
  - cbn zeta. destruct (IH (S i) (check' r (label i) always c)) as [A B].
    cbn zeta in A, B.
    assert (S0 : (n_success (check' r (label i) always c)
                  + n_failed (check' r (label i) always c)
                  = S (n_success c + n_failed c)
                  /\ length (n_errors (check' r (label i) always c))
                     + n_failed c
                     = length (n_errors c)
                       + n_failed (check' r (label i) always c))%nat).
    { unfold check. destruct (validate r);
        cbn [n_success n_failed n_errors always];
        rewrite ?length_app; cbn [length]; lia. }
    lia.
Qed.

(** Where the loop with no cap on the errors takes each error from. *)
Lemma check_all_errors label records :
  forall i c p m,
    In (p, m) (n_errors (check_all' label always i records c)) ->
    In (p, m) (n_errors c)
    \/ exists k record,
         p = label (i + k)%nat /\ nth_error records k = Some record
         /\ validate record = Throws m.
Proof.
  induction records as [|r records IH]; intros i c p m H; cbn [check_all] in H.
  - left. exact H.
  - destruct (IH _ _ _ _ H) as [H1|(k & record & -> & Hk & Hv)].
    + unfold check in H1. destruct (validate r) eqn:E;
        cbn [n_errors always] in H1; [left; exact H1|].
      apply in_app_or in H1 as [H1|[H1|[]]]; [left; exact H1|].
      injection H1 as <- <-. right. exists 0%nat, r.
      rewrite Nat.add_0_r. repeat split. exact E.
    + right. exists (S k), record. repeat split; [f_equal; lia|exact Hk|exact Hv].
Qed.

Lemma check_all_clean label records :
  forall i c,
    n_failed (check_all' label always i records c) = n_failed c
    <-> List.Forall (fun record => validate record = Valid) records.
Proof.
  induction records as [|r records IH]; intros i c; cbn [check_all].
  - split; [constructor|reflexivity].
  - pose proof (check_all_counts label records (S i)
                  (check' r (label i) always c)) as [_ B]. cbn zeta in B.
    assert (G : forall c0, (n_failed c0
               <= n_failed (check_all' label always (S i) records c0))%nat).
    { intros c0. pose proof (check_all_counts label records (S i) c0) as [_ B0].
      cbn zeta in B0.
      assert (forall l j c1, (length (n_errors c1)
               <= length (n_errors (check_all' label always j l c1)))%nat).
      { induction l as [|x l IHl]; intros j c1; cbn [check_all]; [lia|].
        etransitivity; [|apply IHl]. unfold check.
        destruct (validate x); cbn [n_errors always]; rewrite ?length_app; lia. }
      specialize (H records (S i) c0). lia. }
    split.
    + intros H. assert (V : validate r = Valid).
      { destruct (validate r) eqn:E; [reflexivity|]. exfalso.
        specialize (G (check' r (label i) always c)).
        unfold check in G, H. rewrite E in G, H.
        cbn [n_failed] in G. rewrite H in G. cbn [n_failed] in G. lia. }
      constructor; [exact V|].
      apply (IH (S i) (check' r (label i) always c)).
      rewrite H. unfold check. rewrite V. reflexivity.
    + intros H. inversion H as [|? ? V Hr]; subst.
      rewrite (proj2 (IH (S i) (check' r (label i) always c)) Hr).
      unfold check. rewrite V. reflexivity.
Qed.


Lemma capped_push {A} (l : list A) (x : A) :
  (if (length (firstn 10 l) <? 10)%nat then firstn 10 l ++ [x]
   else firstn 10 l) = firstn 10 (l ++ [x]).
Proof.
  rewrite List.length_firstn, List.firstn_app.
  destruct (Nat.ltb_spec (Nat.min 10 (length l)) 10) as [C|C].
  - rewrite (List.firstn_all2 l) by lia.
    rewrite List.firstn_all2; [reflexivity|cbn [length]; lia].
  - replace (10 - length l)%nat with 0%nat by lia.
    cbn [firstn]. rewrite app_nil_r. reflexivity.
Qed.

Lemma check_same_count record pb pj cb cj :
  same_count cb cj ->
  same_count (check' record pb below_ten cb) (check' record pj always cj).
Proof.
  intros (A & B & C). unfold check, same_count.
  destruct (validate record) as [|m];
    cbn [n_success n_failed n_errors always].
  - rewrite A. auto.
  - rewrite B. repeat split; [exact A|].
    rewrite map_app. cbn [map snd]. rewrite <- capped_push, <- C.
    unfold below_ten. rewrite !length_map.
    destruct (length (n_errors cb) <? 10)%nat; [|reflexivity].
    rewrite map_app. reflexivity.
Qed.

Lemma check_all_same_count records :
  forall lb lj ib ij cb cj,
    same_count cb cj ->
    same_count (check_all' lb below_ten ib records cb)
               (check_all' lj always ij records cj).
Proof.
  induction records as [|r records IH]; intros lb lj ib ij cb cj H;
    cbn [check_all]; [exact H|].
  apply IH. apply check_same_count. exact H.
Qed.

Lemma check_batches_same_count batches :
  forall batchIdx i cb cj,
    same_count cb cj ->
    same_count
      (check_batches parseFloat_string Date_parse batchIdx batches cb)
      (check_all' Record always i (concat batches) cj).
Proof.
  induction batches as [|batch batches IH]; intros batchIdx i cb cj H;
    cbn [check_batches concat]; [exact H|].
  rewrite check_all_app. apply IH. apply check_all_same_count. exact H.
Qed.

(** X27: with a batch size that is a positive integer the intake in
    batches ends and counts what the intake of the whole list counts:
    the same total, successes and failures, and the same messages in the
    same order (the positions in front of them apart). *)
Theorem batch_intake_agrees (config : IngestConfig) (startTime endTime : Z)
        (data : list (gmap string value)) (n : Z) :
  batchSize config = inject_Z n ->
  (0 < n)%Z ->
  exists turns, forall fuel, (turns <= fuel)%nat ->
    exists r,
      ingestBatch parseFloat_string Date_parse fuel config
                  startTime endTime data = Some r
      /\ let j := ingestFromJSON parseFloat_string Date_parse
                                 startTime endTime data in
         total r = total j /\ success r = success j
         /\ failed r = failed j
         /\ map snd (errors r) = map snd (errors j)
         /\ duration r = duration j.
Proof.
  intros Hsize Hn.
  assert (Hb : 0 < batchSize config).
  { rewrite Hsize. change 0 with (inject_Z 0). rewrite <- Zlt_Qlt.
    exact Hn. }
  clear Hsize Hn.
  exists (Z.to_nat (Qceiling (inject_Z (Z.of_nat (length data))
                              / batchSize config))).
  intros fuel Hf.
  destruct (batches_from_total data (batchSize config) Hb fuel 0 [])
    as (batches & E & Hc & _).
  { lra. }
  { apply enough_turns_reach; assumption. }
  assert (D : concat batches = data).
  { rewrite Hc. replace (Qfloor 0) with 0%Z by reflexivity.
    replace (Z.to_nat (Z.min 0 (Z.of_nat (length data)))) with 0%nat by lia.
    reflexivity. }
  unfold ingestBatch, createBatches. rewrite E. cbn [app mbind option_bind].
  eexists. split; [reflexivity|]. cbn zeta.
  unfold ingestFromJSON. cbn [total success failed errors duration].
  destruct (check_batches_same_count batches 0 0 zero zero) as (A & B & C).
  { repeat split. }
  rewrite D in A, B, C. unfold Js.slice0. rewrite <- List.firstn_map.
  auto.
Qed.

(** X28: the intake of a list and of a text account for every record:
    successes and failures add up to the total, ten errors at most are
    kept and fewer only when fewer records failed; every error of a
    list names a record of it that the validation rejects with that
    message; nothing fails exactly when every record is valid.  The
    total of a text of ASCII characters is the number of its lines that
    are not blank less the header, and such a text with no such line is
    refused. *)
Theorem intake_accounts_for_every_record (startTime endTime : Z) :
  (forall data,
     let r := ingestFromJSON parseFloat_string Date_parse
                             startTime endTime data in
     total r = Z.of_nat (success r + failed r)
     /\ length (errors r) = Nat.min (failed r) 10
     /\ (forall p m, In (p, m) (errors r) ->
           exists i record,
             p = Record i /\ nth_error data i = Some record
             /\ validate record = Throws m)
     /\ (failed r = 0%nat
         <-> List.Forall (fun record => validate record = Valid) data))
  /\ (forall text,
        ascii_only text = true ->
        match ingestFromCSV parseFloat_string Date_parse
                            startTime endTime text with
        | Some r =>
            total r = Z.of_nat (success r + failed r)
            /\ length (errors r) = Nat.min (failed r) 10
            /\ (total r + 1)%Z
               = Z.of_nat (length (List.filter nonblank (split_lines text)))
        | None => List.Forall (fun line => nonblank line = false)
                              (split_lines text)
        end).
Proof.
  split.
  - intros data. cbn zeta. unfold ingestFromJSON.
    cbn [total success failed errors].
    pose proof (check_all_counts Record data 0 zero) as [A B].
    cbn zeta in A, B. cbn [zero n_success n_failed n_errors length] in A, B.
    repeat split.
    + lia.
    + unfold Js.slice0. rewrite List.length_firstn. lia.
    + intros p m H. unfold Js.slice0 in H.
      assert (H' : In (p, m) (n_errors (check_all' Record always 0 data zero))).
      { rewrite <- (firstn_skipn 10). apply in_or_app. left. exact H. }
      destruct (check_all_errors _ _ _ _ _ _ H')
        as [[]|(k & record & -> & Hk & Hv)].
      exists k, record. auto.
    + intros H. apply (check_all_clean Record data 0 zero). exact H.
    + intros H. apply (check_all_clean Record data 0 zero) in H. exact H.
  - intros text _. unfold ingestFromCSV.
    destruct (List.filter nonblank (split_lines text)) as [|first rows] eqn:E.
    + apply List.Forall_forall. intros line Hl.
      destruct (nonblank line) eqn:N; [|reflexivity].
      assert (In line (List.filter nonblank (split_lines text)))
        by (apply List.filter_In; auto).
      rewrite E in H. destruct H.
    + cbn [total success failed errors].
      match goal with |- context [check_all' Line always 1 ?l zero] =>
        pose proof (check_all_counts Line l 1 zero) as [A B] end.
      cbn zeta in A, B. cbn [zero n_success n_failed n_errors length] in A, B.
      rewrite length_map in A.
      repeat split.
      * cbn [length]. lia.
      * unfold Js.slice0. rewrite List.length_firstn. lia.
      * cbn [length]. lia.
Qed.

Lemma append_cons (c : ascii) (s t : string) :
  String c s +:+ t = String c (s +:+ t).
Proof. reflexivity. Qed.

Lemma append_nil (s : string) : s +:+ "" = s.
Proof.
  induction s as [|c s IH]; [reflexivity|].
  rewrite append_cons, IH. reflexivity.
Qed.

Lemma append_assoc (s t u : string) : (s +:+ t) +:+ u = s +:+ (t +:+ u).
Proof.
  induction s as [|c s IH]; [reflexivity|].
  rewrite !append_cons, IH. reflexivity.
Qed.

Lemma has_char_cons (c d : ascii) (s : string) :
  has_char c (String d s) = Ascii.eqb c d || has_char c s.
Proof. reflexivity. Qed.

(** Characters with no quote among them, and no comma unless inside
    quotes, all go to the current field. *)
Lemma parse_plain (f : string) :
  has_char double_quote f = false ->
  forall rest result current q,
    q = true \/ has_char "," f = false ->
    parse_chars (f +:+ rest) result current q
    = parse_chars rest result (current +:+ f) q.
Proof.
  induction f as [|c f IH]; intros Hq rest result current q Hc.
  - rewrite append_nil. reflexivity.
  - rewrite has_char_cons in Hq. apply orb_false_elim in Hq as [Q1 Q2].
    rewrite append_cons. cbn [parse_chars].
    rewrite Ascii.eqb_sym, Q1.
    assert (E : Ascii.eqb c "," && negb q = false).
    { destruct Hc as [->|Hc]; [apply andb_false_r|].
      rewrite has_char_cons in Hc. apply orb_false_elim in Hc as [C1 _].
      rewrite Ascii.eqb_sym, C1. reflexivity. }
    rewrite E, (IH Q2).
    + rewrite append_assoc. reflexivity.
    + destruct Hc as [->|Hc]; [left; reflexivity|right].
      rewrite has_char_cons in Hc. apply orb_false_elim in Hc as [_ C2].
      exact C2.
Qed.

Lemma parse_field (f : string) :
  has_char double_quote f = false ->
  forall rest result current,
    parse_chars (csv_field f +:+ rest) result current false
    = parse_chars rest result (current +:+ f) false.
Proof.
  intros Hq rest result current. unfold csv_field.
  destruct (has_char "," f) eqn:C.
  - unfold quoted. rewrite append_cons, append_assoc, append_cons.
    cbn [parse_chars]. rewrite Ascii.eqb_refl. cbn [negb].
    rewrite (parse_plain f Hq) by (left; reflexivity).
    cbn [parse_chars]. rewrite Ascii.eqb_refl. reflexivity.
  - apply (parse_plain f Hq). right. exact C.
Qed.

Lemma parse_written (fields : list string) :
  fields <> [] -> List.Forall writable fields ->
  forall result,
    parse_chars (csv_line fields) result "" false = result ++ fields.
Proof.
  induction fields as [|f fields IH]; intros Hn Hw result; [congruence|].
  inversion Hw as [|? ? (_ & Ht & Hq) Hw']; subst.
  destruct fields as [|g fields].
  - unfold csv_line. cbn [map String.concat].
    rewrite <- (append_nil (csv_field f)), (parse_field f Hq).
    cbn [parse_chars]. change ("" +:+ f) with f. rewrite Ht. reflexivity.
  - unfold csv_line. cbn [map String.concat].
    rewrite (parse_field f Hq). rewrite append_cons.
    cbn [parse_chars]. change ("" +:+ f) with f.
    change (Ascii.eqb "," double_quote) with false.
    rewrite Ascii.eqb_refl. cbn [andb negb]. rewrite Ht.
    change (String.concat "," (csv_field g :: map csv_field fields))
      with (csv_line (g :: fields)).
    change ("" +:+ csv_line (g :: fields)) with (csv_line (g :: fields)).
    rewrite IH by (congruence || assumption).
    rewrite <- app_assoc. reflexivity.
Qed.

(** X29: a line written from fields of ASCII characters that have no
    quote in them and no white space around them, the fields with a
    comma put in quotes, parses back to the fields; and no line parses
    to no field. *)
Theorem written_line_parses_back (fields : list string) :
  (fields <> [] -> List.Forall writable fields ->
   parseCSVLine (csv_line fields) = fields)
  /\ (forall line, parseCSVLine line <> []).
Proof.
  split.
  - intros Hn Hw. unfold parseCSVLine.
    apply (parse_written fields Hn Hw []).
  - intros line. unfold parseCSVLine.
    assert (G : forall chars result current q,
               parse_chars chars result current q <> []).
    { induction chars as [|c chars IH]; intros result current q;
        cbn [parse_chars].
      - destruct result; discriminate.
      - destruct (Ascii.eqb c double_quote); [apply IH|].
        destruct (Ascii.eqb c "," && negb q); apply IH. }
    apply G.
Qed.

Lemma combine_seq_member {A} (l : list A) :
  forall s i x,
    In (i, x) (combine (seq s (length l)) l) ->
    (s <= i)%nat /\ nth_error l (i - s) = Some x.
Proof.
  induction l as [|a l IH]; intros s i x H; cbn [length seq combine] in H;
    [destruct H|].
  destruct H as [H|H].
  - injection H as <- <-. rewrite Nat.sub_diag. auto.
  - apply IH in H as [H1 H2]. split; [lia|].
    replace (i - s)%nat with (S (i - S s)) by lia. exact H2.
Qed.

Lemma combine_seq_snd {A} (l : list A) :
  forall s, map snd (combine (seq s (length l)) l) = l.
Proof.
  induction l as [|a l IH]; intros s; cbn [length seq combine map snd];
    [reflexivity|].
  rewrite IH. reflexivity.
Qed.

(** The value a header ends with is the cell of one of its columns. *)
Lemma mapToRecord_field (values : list string) (key : string) (v : value) :
  key <> "__proto__" ->
  forall l (m : gmap string value),
    (forall i, In (i, key) l -> cell values i = v) ->
    m !! key = Some v \/ In key (map snd l) ->
    fold_left
      (fun record (h : nat * string) =>
         let '(index, header) := h in
         if String.eqb header "__proto__" then record
         else <[header := cell values index]> record) l m !! key = Some v.
Proof.
  intros Hk. induction l as [|[i h] l IH]; intros m Hv Hin;
    cbn [fold_left].
  - destruct Hin as [Hin|[]]. exact Hin.
  - apply IH.
    + intros j Hj. apply Hv. right. exact Hj.
    + destruct (String.eqb_spec h "__proto__") as [P|P].
      * destruct Hin as [Hin|[Hin|Hin]]; [left; exact Hin| |right; exact Hin].
        cbn [snd] in Hin. congruence.
      * destruct (decide (h = key)) as [->|N].
        -- left. rewrite lookup_insert_eq. f_equal. apply Hv. left. reflexivity.
        -- destruct Hin as [Hin|[Hin|Hin]];
             [left|cbn [snd] in Hin; congruence|right; exact Hin].
           rewrite lookup_insert_ne by exact N. exact Hin.
Qed.

(** X30: a row of a text whose header has the column [is_fraudulent] and
    which leaves that column empty, or ends before it, is never
    accepted, whatever its other fields. *)
Theorem empty_flag_cell_rejected (headers values : list string) :
  In "is_fraudulent" headers ->
  (forall i, nth_error headers i = Some "is_fraudulent" ->
             cell values i = Null) ->
  validate (mapToRecord headers values) <> Valid.
Proof.
  intros Hin Hcell.
  assert (F : field (mapToRecord headers values) "is_fraudulent" = Null).
  { unfold field, mapToRecord.
    rewrite (mapToRecord_field values "is_fraudulent" Null).
    - reflexivity.
    - discriminate.
    - intros i Hi. apply combine_seq_member in Hi as [_ Hi].
      rewrite Nat.sub_0_r in Hi. apply Hcell. exact Hi.
    - right. rewrite combine_seq_snd. exact Hin. }
  unfold validateRecord. rewrite F.
  destruct (falsy _ || _); [discriminate|].
  destruct (falsy _); [discriminate|].
  destruct (Date_of _ _); discriminate.
Qed.

End IntakeProps.

Lemma batch_intake_agrees_witness :
  let config := DataIngestor.default_config in
  let data : list (gmap string DataIngestor.value) :=
    [ {[ "amount" := DataIngestor.Str "12.50"; "timestamp" := DataIngestor.Str "2024-03-01" ]};
      {[ "timestamp" := DataIngestor.Str "2024-03-01" ]} ] in
  let parseFloat_string := fun _ : string => Some 12.5 in
  let Date_parse := fun _ : string => Some 1709251200000%Z in
  DataIngestor.batchSize config = inject_Z 1000
  /\ exists turns, forall fuel, (turns <= fuel)%nat ->
       exists r,
         DataIngestor.ingestBatch parseFloat_string Date_parse fuel config 0 5 data
         = Some r
         /\ let j := DataIngestor.ingestFromJSON parseFloat_string Date_parse 0 5 data in
            DataIngestor.total r = DataIngestor.total j /\ DataIngestor.success r = DataIngestor.success j
            /\ DataIngestor.failed r = DataIngestor.failed j
            /\ map snd (DataIngestor.errors r) = map snd (DataIngestor.errors j)
            /\ DataIngestor.duration r = DataIngestor.duration j.
Proof.
  cbn zeta. split; [reflexivity|].
  apply (batch_intake_agrees (fun _ => Some 12.5)
           (fun _ => Some 1709251200000%Z) DataIngestor.default_config 0 5
           _ 1000%Z); reflexivity.
Defined.


Lemma written_line_parses_back_witness :
  let fields := ["9,500.00"; "2024-03-01"; ""; "grocery"] in
  DataIngestor.parseCSVLine (csv_line fields) = fields.
Proof.
  cbn zeta.
  apply (written_line_parses_back ["9,500.00"; "2024-03-01"; ""; "grocery"]).
  - discriminate.
  - repeat constructor.
Defined.

Lemma empty_flag_cell_rejected_witness :
  let headers :=
    DataIngestor.parseCSVLine "amount,timestamp,is_fraudulent" in
  let values := DataIngestor.parseCSVLine "12.50,2024-03-01," in
  let parseFloat_string := fun _ : string => Some 12.5 in
  let Date_parse := fun _ : string => Some 1709251200000%Z in
  In "is_fraudulent" headers
  /\ DataIngestor.validateRecord parseFloat_string Date_parse
       (DataIngestor.mapToRecord headers values) <> DataIngestor.Valid.
Proof.
  cbn zeta. split; [vm_compute; auto|].
  apply empty_flag_cell_rejected.
  - vm_compute. auto.
  - intros [|[|[|i]]]; vm_compute; try congruence.
    destruct i; discriminate.
Defined.
